(** * The Jito service: fee recommendation, tip accounts and relay calls

    A shallow embedding of [src/jito.service.ts] (class [JitoService]) and of
    the status branch of the bundle script (function [testBundle]), followed
    by the three scripts that call the service: [testBundle],
    [testTransaction] with its polling loop [confirmTransaction], and
    [main].

    A JavaScript [number] is an IEEE 754 binary64 value: it is modelled by
    Rocq's primitive [float], whose operations are specified by
    [SpecFloat] ([mul_spec], [add_spec], [div_spec], ...).  [Math.floor] and
    [Math.max], which are not primitives of [float], are written out from
    their ECMAScript definitions.  The exact values of numbers are rationals
    ([QArith]). *)

From Stdlib Require Import ZArith List Bool Lia Floats QArith Qpower Qround Lqa.
From stdpp Require Import base gmap strings.

Set Warnings "-inexact-float,-register-all".

(** ** JavaScript values *)

Module JS.

Definition number := float.

(** [Math.floor] on the specification side: the greatest integral value
    that is not above [x]; zeros, infinities and NaN are returned as they
    are, and a positive value below one gives [+0]. *)
Definition SFfloor (x : spec_float) : spec_float :=
  match x with
  | S754_finite s m e =>
      if (0 <=? e)%Z then x
      else binary_normalize prec emax
             (Z.shiftr (cond_Zopp s (Zpos m)) (- e)) 0 s
  | _ => x
  end.

Definition Math_floor (x : number) : number := SF2Prim (SFfloor (Prim2SF x)).

Definition is_pzero (x : number) : bool :=
  match Prim2SF x with S754_zero false => true | _ => false end.

Definition is_nzero (x : number) : bool :=
  match Prim2SF x with S754_zero true => true | _ => false end.

(** One step of the loop of [Math.max]: [v] replaces the running maximum
    [h] when it is greater, or when it is [+0] and [h] is [-0]. *)
Definition max_step (h v : number) : number :=
  if (h <? v)%float || (is_pzero v && is_nzero h) then v else h.

(** [Math.max(a, b)]: NaN when an argument is NaN, otherwise the loop
    started at [-Infinity]. *)
Definition Math_max (a b : number) : number :=
  if is_nan a || is_nan b then nan
  else max_step (max_step neg_infinity a) b.

(** The integer [n] as a number (a length, an index). *)
Definition of_Z (n : Z) : number := SF2Prim (binary_normalize prec emax n 0 false).

(** The array index a number denotes as a property key, if any: a
    non-negative integral value ([-0] is the key ["0"]). *)
Definition to_index (x : number) : option nat :=
  match Prim2SF x with
  | S754_zero _ => Some 0%nat
  | S754_finite false m e =>
      if (0 <=? e)%Z then Some (Z.to_nat (Zpos m * 2 ^ e))
      else if (Zpos m mod 2 ^ (- e) =? 0)%Z
           then Some (Z.to_nat (Zpos m / 2 ^ (- e)))
           else None
  | _ => None
  end.

(** [arr[i]] for a number [i]: [undefined] is [None]. *)
Definition array_get {A : Type} (arr : list A) (i : number) : option A :=
  match to_index i with
  | Some n => nth_error arr n
  | None => None
  end.

(** JSON values, as a relay response or a request body carries them. *)
Inductive JSON : Type :=
| JNull
| JBool (b : bool)
| JNum (n : number)
| JStr (s : string)
| JArr (items : list JSON)
| JObj (fields : list (string * JSON)).

(** [ToBoolean]. *)
Definition truthy (v : JSON) : bool :=
  match v with
  | JNull => false
  | JBool b => b
  | JNum n => negb (is_nan n || is_zero n)
  | JStr s => negb (String.eqb s "")
  | JArr _ | JObj _ => true
  end.

(** [v === s] for a string literal [s]. *)
Definition strict_eq_str (v : option JSON) (s : string) : bool :=
  match v with
  | Some (JStr t) => String.eqb t s
  | _ => false
  end.

End JS.

Import JS.

(** ** Errors and the network *)

(** The four [throw new Error(...)] sites of the service. *)
Inductive Error : Type :=
| FailedToFetchTipFloor (status : Z)    (* `Failed to fetch tip floor: ${status}` *)
| NoTipFloorDataAvailable               (* "No tip floor data available" *)
| RpcEndpointRequired                   (* "RPC endpoint is required for bundle simulation" *)
| FailedToSimulateBundle (status : Z).  (* `Failed to simulate bundle: ${status}` *)

(** The names the specification gives to these failures. *)
Inductive ErrorKind : Type :=
| UnavailableError | EmptyDataError | ConfigurationError | TransportError.

Definition kind (e : Error) : ErrorKind :=
  match e with
  | FailedToFetchTipFloor _ => UnavailableError
  | NoTipFloorDataAvailable => EmptyDataError
  | RpcEndpointRequired => ConfigurationError
  | FailedToSimulateBundle _ => TransportError
  end.

Record Request : Type := {
  url : string;
  method : string;
  headers : list (string * string);
  body : option JSON
}.

Record Response (B : Type) : Type := {
  ok : bool;
  status : Z;
  json : B
}.
Arguments ok {B} _.
Arguments status {B} _.
Arguments json {B} _.

(** A computation that may [fetch] and may throw: it reads the answers of
    the network (responses with a body of type [B]) and appends the requests
    it issues to the log.  A [fetch] that is rejected is not modelled. *)
Definition IO (B A : Type) : Type :=
  (Request -> Response B) -> list Request -> list Request * (Error + A).

Definition ret {B A} (a : A) : IO B A := fun _ log => (log, inr a).

Definition throw {B A} (e : Error) : IO B A := fun _ log => (log, inl e).

Definition bind {B A C} (m : IO B A) (k : A -> IO B C) : IO B C :=
  fun net log =>
    match m net log with
    | (log', inl e) => (log', inl e)
    | (log', inr a) => k a net log'
    end.

Definition fetch {B} (rq : Request) : IO B (Response B) :=
  fun net log => (log ++ [rq], inr (net rq)).

#[global] Instance IO_ret {B} : MRet (IO B) := fun A => @ret B A.
#[global] Instance IO_bind {B} : MBind (IO B) := fun A C k m => @bind B A C m k.

(** Running a computation from an empty log. *)
Definition run {B A} (m : IO B A) (net : Request -> Response B)
  : list Request * (Error + A) := m net [].

(** ** The service *)

Inductive TipPercentile : Type := P50 | P75 | P95 | P99.

Definition TIP_ACCOUNTS : list string := [
  "96gYZGLnJYVFmbjzopPSU6QiEV5fGqZNyN9nmNhvrZU5";
  "HFqU5x63VTqvQss8hp11i4wVV8bD44PvwucfZ2bU7gRe";
  "Cw8CFyM9FkoMi7K7Crf6HNQqf4uEMzpKw6QNghXLvLkY";
  "ADaUMid9yfUytqMBgopwjb2DTLSokTSzL1zt6iGPaS49";
  "DfXygSm4jCyNCybVYYK6DwvWqjKee8pbDmJGcLWNDXjh";
  "ADuUkR4vqLUMWXxW9gh6D6L8pMSawimctcNZ5pGwDcEt";
  "DttWaMuVvTiduZRnguLF7jNxTgiMBZ1hyAumKUiL2KRL";
  "3AVi9Tg9Uo68tJfuvoKvqKNWKkC5wPdSSdeBnizKZ6jT"
]%string.

Inductive Encoding : Type := base64 | base58.

Record SendTransactionParams : Type := {
  transaction : string;
  encoding : option Encoding;
  bundleOnly : option bool
}.

Record TipFloorData : Type := {
  time : string;
  landed_tips_25th_percentile : number;
  landed_tips_50th_percentile : number;
  landed_tips_75th_percentile : number;
  landed_tips_95th_percentile : number;
  landed_tips_99th_percentile : number;
  ema_landed_tips_50th_percentile : number
}.

Record FeeRecommendation : Type := {
  priorityFeeLamports : number;
  jitoTipLamports : number;
  totalFeeLamports : number;
  priorityFeeSol : number;
  jitoTipSol : number;
  totalFeeSol : number
}.

Record SimulateBundleParams : Type := {
  encodedTransactions : list string;
  skipSigVerify : option bool;
  replaceRecentBlockhash : option bool
}.

Module JitoService.

Open Scope float_scope.

Definition LAMPORTS_PER_SOL : number := 1000000000.
Definition MIN_TIP_LAMPORTS : number := 1000.

(** The array handed to the relay client's [sendTxn]. *)
Definition sendParams (params : SendTransactionParams) : JSON :=
  match default base64 (encoding params) with
  | base64 =>
      JArr [JStr (transaction params); JObj [("encoding", JStr "base64")]]
  | base58 => JArr [JStr (transaction params)]
  end.

(** [sendTxn] is the method of the base class [JitoJsonRpcClient]. *)
Definition sendTransaction {R : Type} (sendTxn : JSON -> bool -> R)
    (params : SendTransactionParams) : R :=
  sendTxn (sendParams params) (default false (bundleOnly params)).

Definition tip_floor_url : string :=
  "https://bundles.jito.wtf/api/v1/bundles/tip_floor".

Definition getTipFloor {B} : IO B B :=
  response ← fetch {| url := tip_floor_url; method := "GET";
                      headers := []; body := None |};
  if negb (ok response)
  then throw (FailedToFetchTipFloor (status response))
  else ret (json response).

Definition calculateRecommendedFees (totalFeeSol : number) : FeeRecommendation :=
  let totalFeeLamports := totalFeeSol * LAMPORTS_PER_SOL in
  let priorityFeeLamports := Math_floor (totalFeeLamports * 0.7) in
  let jitoTipLamports :=
    Math_max (Math_floor (totalFeeLamports * 0.3)) MIN_TIP_LAMPORTS in
  {| priorityFeeLamports := priorityFeeLamports;
     jitoTipLamports := jitoTipLamports;
     totalFeeLamports := priorityFeeLamports + jitoTipLamports;
     priorityFeeSol := priorityFeeLamports / LAMPORTS_PER_SOL;
     jitoTipSol := jitoTipLamports / LAMPORTS_PER_SOL;
     totalFeeSol := (priorityFeeLamports + jitoTipLamports) / LAMPORTS_PER_SOL |}.

(** The [switch] over the percentile. *)
Definition tipAmount (percentile : TipPercentile) (latestData : TipFloorData)
  : number :=
  match percentile with
  | P50 => landed_tips_50th_percentile latestData
  | P75 => landed_tips_75th_percentile latestData
  | P95 => landed_tips_95th_percentile latestData
  | P99 => landed_tips_99th_percentile latestData
  end.

(** The body of the tip-floor response is the parsed JSON; [None] is a
    [null] body, which [!tipFloor] catches. *)
Definition getRecommendedFeeFromTipFloor (percentile : option TipPercentile)
  : IO (option (list TipFloorData)) FeeRecommendation :=
  tipFloor ← getTipFloor;
  match tipFloor with
  | None | Some [] => throw NoTipFloorDataAvailable
  | Some (latestData :: _) =>
      let jitoTipSol := tipAmount (default P75 percentile) latestData in
      let totalFeeSol := jitoTipSol / 0.3 in
      ret (calculateRecommendedFees totalFeeSol)
  end.

(** [Math.random()] is the argument [random]. *)
Definition getRandomTipAccount (random : number) : option string :=
  let randomIndex :=
    Math_floor (random * of_Z (Z.of_nat (length TIP_ACCOUNTS))) in
  array_get TIP_ACCOUNTS randomIndex.

Definition requestBody (params : SimulateBundleParams) : JSON :=
  JObj [
    ("jsonrpc", JStr "2.0");
    ("id", JStr "1");
    ("method", JStr "simulateBundle");
    ("params", JArr [
       JObj [
         ("encodedTransactions",
            JArr (map JStr (encodedTransactions params)));
         ("skipSigVerify", JBool (default false (skipSigVerify params)));
         ("replaceRecentBlockhash",
            JBool (default false (replaceRecentBlockhash params)))
       ]
     ])
  ].

(** [!rpcEndpoint] holds of a missing argument and of the empty string. *)
Definition simulateBundle {B} (params : SimulateBundleParams)
    (rpcEndpoint : option string) : IO B B :=
  match rpcEndpoint with
  | None => throw RpcEndpointRequired
  | Some rpcUrl =>
      if String.eqb rpcUrl "" then throw RpcEndpointRequired
      else
        response ← fetch {| url := rpcUrl; method := "POST";
                            headers := [("Content-Type", "application/json")];
                            body := Some (requestBody params) |};
        if negb (ok response)
        then throw (FailedToSimulateBundle (status response))
        else ret (json response)
  end.

End JitoService.

(** ** The status branch of [testBundle] *)

Module TestBundle.

(** What the branch taken prints. *)
Inductive Report : Type :=
| ConfirmedAtSlot (slot : option JSON)
    (* `Bundle successfully confirmed on-chain at slot ${slot}` *)
| LandedAtSlot (slot : option JSON)
    (* `Bundle landed at slot ${slot}`; [None] is the text "unknown" *)
| FailedWithStatus (status : string)
    (* `Bundle processing failed with status: ${status}` *)
| StillPending
    (* "Bundle is still pending" *)
| FailedWithErr (err : JSON)
    (* "Bundle processing failed:", err *)
| Unexpected
    (* "Unexpected inflight bundle status:", inflightStatus *)
| Silent.
    (* a [status] that is none of the four: no branch prints *)

Definition reportInflightStatus (inflightStatus : gmap string JSON) : Report :=
  if strict_eq_str (inflightStatus !! "confirmation_status") "confirmed"
  then ConfirmedAtSlot (inflightStatus !! "slot")
  else
    match inflightStatus !! "status" with
    | Some st =>
        if strict_eq_str (Some st) "Landed"
        then LandedAtSlot (inflightStatus !! "landed_slot")
        else if strict_eq_str (Some st) "Failed"
        then FailedWithStatus "Failed"
        else if strict_eq_str (Some st) "Invalid"
        then FailedWithStatus "Invalid"
        else if strict_eq_str (Some st) "Pending"
        then StillPending
        else Silent
    | None =>
        match inflightStatus !! "err" with
        | Some err => if truthy err then FailedWithErr err else Unexpected
        | None => Unexpected
        end
    end.

(** The classification of the specification. *)
Inductive Classification : Type :=
| CONFIRMED (slot : option JSON)
| LANDED (slot : option JSON)
| FAILED (detail : option JSON)
| INVALID
| PENDING
| UNKNOWN.

(** A report read as a classification; a silent branch has none. *)
Definition classify (inflightStatus : gmap string JSON) : option Classification :=
  match reportInflightStatus inflightStatus with
  | ConfirmedAtSlot slot => Some (CONFIRMED slot)
  | LandedAtSlot slot => Some (LANDED slot)
  | FailedWithStatus st =>
      if String.eqb st "Invalid" then Some INVALID else Some (FAILED None)
  | StillPending => Some PENDING
  | FailedWithErr err => Some (FAILED (Some err))
  | Unexpected => Some UNKNOWN
  | Silent => None
  end.

End TestBundle.

Import JitoService.
Import TestBundle.
Open Scope float_scope.

(** ** Values named in the statements *)

(** The request [getTipFloor] issues. *)
Definition tip_floor_request : Request :=
  {| url := tip_floor_url; method := "GET"; headers := []; body := None |}.

(** A tip-floor sample whose 75th percentile is 0.0003 SOL. *)
Definition sample_0003 : TipFloorData :=
  {| time := "2024-01-01T00:00:00Z";
     landed_tips_25th_percentile := 0.0001;
     landed_tips_50th_percentile := 0.0002;
     landed_tips_75th_percentile := 0.0003;
     landed_tips_95th_percentile := 0.0004;
     landed_tips_99th_percentile := 0.0005;
     ema_landed_tips_50th_percentile := 0.0002 |}.

(** The 30% share in lamports, before the floor at the minimum tip:
    the first argument of [Math.max] in [calculateRecommendedFees]. *)
Definition rawTip (x : number) : number :=
  Math_floor (x * JitoService.LAMPORTS_PER_SOL * 0.3).

(** ** Binary64 values as rationals

    The proofs about the arithmetic of [number] go through the exact value
    of a finite number, a rational, and through the description of what
    [SpecFloat]'s rounding ([binary_round_aux]) returns for an exact
    non-negative value.  Only non-negative numbers are treated: fee budgets
    and the draw of [Math.random] are non-negative. *)

Module Binary64.

Local Open Scope Z_scope.

(** Where the remainder [r] of a division by [D] lies in [[0, D)]: zero,
    below the half, at the half, above it. *)
Definition loc_of (r D : Z) : location :=
  if r =? 0 then loc_Exact else loc_Inexact (2 * r ?= D).

(** The integer nearest to [X / Y], ties to even. *)
Definition rne (X Y : Z) : Z :=
  round_nearest_even (X / Y) (loc_of (X mod Y) Y).

(** The shift record of the quotient [X / D] with its remainder. *)
Definition rec_of (X D : Z) : shr_record :=
  shr_record_of_loc (X / D) (loc_of (X mod D) D).

(** The second half of [binary_round_aux]: renormalising the rounded
    mantissa and checking for overflow. *)
Definition finalize (s : bool) (k E : Z) : spec_float :=
  let '(mrs, e') := shr_fexp prec emax k E loc_Exact in
  match shr_m mrs with
  | Z0 => S754_zero s
  | Zpos m => if e' <=? emax - prec then S754_finite s m e' else S754_infinity s
  | Zneg _ => S754_nan
  end.

(** What [finalize] returns for a mantissa [k] of at most 53 bits, or
    [2^53] after a carry. *)
Definition canon (s : bool) (k E : Z) : spec_float :=
  match k with
  | Zpos p =>
      if k =? 2 ^ 53
      then if E + 1 <=? 971 then S754_finite s (2 ^ 52)%positive (E + 1)
           else S754_infinity s
      else if E <=? 971 then S754_finite s p E else S754_infinity s
  | _ => S754_zero s
  end.

Definition pow2 (e : Z) : Q := (2 ^ e)%Q.

(** [k * 2^E] is the rounding of the exact value [v >= 0]: [E] is the
    exponent of the binade of [v] (at least the subnormal exponent -1074),
    and [k] is the integer nearest to [v / 2^E], ties to even. *)
Record RND (v : Q) (k E : Z) : Prop := mkRND {
  rnd_E : -1074 <= E;
  rnd_k : 0 <= k <= 2 ^ 53;
  rnd_kn : E = -1074 \/ 2 ^ 52 <= k;
  rnd_v0 : (0 <= v)%Q;
  rnd_hi : (v < 9007199254740992 * pow2 E)%Q;
  rnd_lo : E = -1074 \/ (4503599627370496 * pow2 E <= v)%Q;
  rnd_up : (2 * (inject_Z k * pow2 E - v) <= pow2 E)%Q;
  rnd_dn : (2 * (v - inject_Z k * pow2 E) <= pow2 E)%Q;
  rnd_tie : (2 * (inject_Z k * pow2 E - v) == pow2 E \/
             2 * (v - inject_Z k * pow2 E) == pow2 E)%Q -> Z.even k = true
}.

(** The exact value of a finite number (0 for the others). *)
Definition SF2Q (x : spec_float) : Q :=
  match x with
  | S754_finite s m e =>
      if s then (- (inject_Z (Zpos m) * pow2 e))%Q
      else (inject_Z (Zpos m) * pow2 e)%Q
  | _ => 0%Q
  end.

(** Finite, valid and not negative (either zero counts). *)
Definition nnf (x : spec_float) : bool :=
  match x with
  | S754_zero _ => true
  | S754_finite false m e => bounded prec emax m e
  | _ => false
  end.

(** Not negative and not NaN: [nnf] or [+Infinity]. *)
Definition nn (x : spec_float) : bool :=
  match x with
  | S754_infinity false => true
  | _ => nnf x
  end.

(** The number [f] returned for the rounded value [k * 2^E]: that value, or
    [+Infinity] when it is [2^1024] or more. *)
Definition Res (k E : Z) (f : spec_float) : Prop :=
  (nnf f = true /\ (SF2Q f == inject_Z k * pow2 E)%Q) \/
  (f = S754_infinity false /\ (pow2 1024 <= inject_Z k * pow2 E)%Q).

(** The value of a number in the rationals extended with [+Infinity]
    ([None]). *)
Definition ext (x : spec_float) : option Q :=
  match x with
  | S754_zero _ | S754_finite _ _ _ => Some (SF2Q x)
  | _ => None
  end.

Definition ole (a b : option Q) : Prop :=
  match a, b with
  | Some x, Some y => (x <= y)%Q
  | _, None => True
  | None, Some _ => False
  end.

Definition olt (a b : option Q) : Prop :=
  match a, b with
  | Some x, Some y => (x < y)%Q
  | Some _, None => True
  | None, _ => False
  end.

(** [f] is the correctly rounded number of the exact extended value. *)
Inductive Rounds : option Q -> spec_float -> Prop :=
| Rounds_inf : Rounds None (S754_infinity false)
| Rounds_fin v k E f : RND v k E -> Res k E f -> Rounds (Some v) f.

Definition omul (a : option Q) (q : Q) : option Q :=
  match a with Some x => Some (x * q)%Q | None => None end.

Definition odiv (a : option Q) (q : Q) : option Q :=
  match a with Some x => Some (x / q)%Q | None => None end.

Definition oadd (a b : option Q) : option Q :=
  match a, b with Some x, Some y => Some (x + y)%Q | _, _ => None end.

(** A positive normal number: the constants 1e9, 0.7, 0.3 and 8. *)
Definition is_normal_pos (c : spec_float) : bool :=
  match c with
  | S754_finite false m e => bounded prec emax m e && (2 ^ 52 <=? Zpos m)
  | _ => false
  end.

(** A [number] that is not negative and not NaN. *)
Definition NN (x : float) : Prop := nn (Prim2SF x) = true.

(** Valid, not NaN and with the sign bit set: [-0], the negative finite
    numbers and [-Infinity]. *)
Definition ng (x : spec_float) : bool :=
  match x with
  | S754_zero true | S754_infinity true => true
  | S754_finite true m e => bounded prec emax m e
  | _ => false
  end.

Definition NG (x : float) : Prop := ng (Prim2SF x) = true.

End Binary64.

(** ** The scripts: [testBundle], [testTransaction] and [main]

    The scripts call the service, the Solana client and the relay.  They
    are modelled as computations that read the answers of a [World] and
    append what they do to a trace of events. *)

Module Scripts.

(** *** Values of the libraries

    The instructions and the transactions of the Solana client are data.
    What reads a file, parses a key, builds an instruction from an amount,
    signs or serializes a transaction or goes over the network may throw;
    [new Transaction()], [add] and [createMemoInstruction] do not.  What a
    library throws is an [Error] or another value, but not [null] or
    [undefined]; a rejected [fetch] and a response body that is not JSON
    are not modelled.  The environment is the one [dotenv] has loaded. *)

Inductive BlockEngineUrl : Type :=
| MAINNET | AMSTERDAM | DUBLIN | FRANKFURT | LONDON | NY | SLC | SINGAPORE
| TOKYO | TESTNET | TESTNET_DALLAS | TESTNET_NY.

(** The string each member of the enumeration stands for. *)
Definition endpoint (u : BlockEngineUrl) : string :=
  match u with
  | MAINNET => "https://mainnet.block-engine.jito.wtf/api/v1"
  | AMSTERDAM => "https://amsterdam.mainnet.block-engine.jito.wtf/api/v1"
  | DUBLIN => "https://dublin.mainnet.block-engine.jito.wtf/api/v1"
  | FRANKFURT => "https://frankfurt.mainnet.block-engine.jito.wtf/api/v1"
  | LONDON => "https://london.mainnet.block-engine.jito.wtf/api/v1"
  | NY => "https://ny.mainnet.block-engine.jito.wtf/api/v1"
  | SLC => "https://slc.mainnet.block-engine.jito.wtf/api/v1"
  | SINGAPORE => "https://singapore.mainnet.block-engine.jito.wtf/api/v1"
  | TOKYO => "https://tokyo.mainnet.block-engine.jito.wtf/api/v1"
  | TESTNET => "https://testnet.block-engine.jito.wtf/api/v1"
  | TESTNET_DALLAS => "https://dallas.testnet.block-engine.jito.wtf/api/v1"
  | TESTNET_NY => "https://ny.testnet.block-engine.jito.wtf/api/v1"
  end.

(** An instance of the class: the constructor keeps the engine URL and
    hands it, with the UUID, to the base class. *)
Record Service : Type := {
  blockEngineUrl : BlockEngineUrl;
  uuid : option string
}.

Definition new_JitoService (blockEngineUrl : BlockEngineUrl) (uuid : option string)
  : Service :=
  {| blockEngineUrl := blockEngineUrl; uuid := uuid |}.

(** A public key, by its base58 text. *)
Record PublicKey : Type := { toString : string }.

Record Keypair : Type := { publicKey : PublicKey }.

Inductive Instruction : Type :=
| setComputeUnitPrice (microLamports : number)
| createMemoInstruction (memo : string) (signerPubkeys : list PublicKey)
| transfer (fromPubkey toPubkey : PublicKey) (lamports : number).

Record Transaction : Type := {
  instructions : list Instruction;
  recentBlockhash : option string;
  feePayer : option PublicKey;
  signers : list Keypair
}.

Definition new_Transaction : Transaction :=
  {| instructions := []; recentBlockhash := None; feePayer := None; signers := [] |}.

Definition add (i : Instruction) (tx : Transaction) : Transaction :=
  {| instructions := instructions tx ++ [i];
     recentBlockhash := recentBlockhash tx;
     feePayer := feePayer tx;
     signers := signers tx |}.

Definition set_recentBlockhash (blockhash : string) (tx : Transaction) : Transaction :=
  {| instructions := instructions tx;
     recentBlockhash := Some blockhash;
     feePayer := feePayer tx;
     signers := signers tx |}.

Definition set_feePayer (payer : PublicKey) (tx : Transaction) : Transaction :=
  {| instructions := instructions tx;
     recentBlockhash := recentBlockhash tx;
     feePayer := Some payer;
     signers := signers tx |}.

Definition sign (signer : Keypair) (tx : Transaction) : Transaction :=
  {| instructions := instructions tx;
     recentBlockhash := recentBlockhash tx;
     feePayer := feePayer tx;
     signers := [signer] |}.

(** *** Responses, by the fields the scripts read *)

Record RpcError : Type := { code : number; message : string }.

(** A JSON-RPC response: [result] or [error], either possibly missing. *)
Record RpcResponse (R : Type) : Type := {
  result : option R;
  error : option RpcError
}.
Arguments result {R} _.
Arguments error {R} _.

Record SimulateBundleResult : Type := {
  slot : number;                       (* [context.slot] *)
  err : JSON;                          (* [any | null] *)
  logs : option (list (list string));
  unitsConsumed : option number
}.

Definition SimulateBundleResponse : Type := RpcResponse SimulateBundleResult.
Definition SendTransactionResponse : Type := RpcResponse string.
Definition SendBundleResponse : Type := RpcResponse string.

(** A response with a [value] that may be [null] or missing. *)
Record Valued (V : Type) : Type := { value : option V }.
Arguments value {V} _.

Record BundleStatus : Type := {
  confirmation_status : option string;
  transactions : option (list string)
}.

Definition BundleStatusesResponse : Type :=
  RpcResponse (Valued (list BundleStatus)).

Record SignatureStatus : Type := { confirmationStatus : option string }.

Definition SignatureStatusResponse : Type := Valued SignatureStatus.

(** *** Exceptions *)

Inductive Exn : Type :=
| ServiceError (e : Error)
    (* an [Error] thrown by the service *)
| ConfirmTimeout (signature : string) (timeoutMs : number)
    (* `Transaction ${signature} failed to confirm within ${timeoutMs}ms` *)
| LibraryError (text : string) (responseData : option JSON)
    (* an [Error] thrown by a library call: its message and its
       [response.data] *)
| NotAnError (responseData : option JSON).
    (* a value thrown by a library call that is not an [Error]: its
       [response.data] *)

(** [error.response.data], when there is one. *)
Definition response_data (error : Exn) : option JSON :=
  match error with
  | LibraryError _ data => data
  | NotAnError data => data
  | _ => None
  end.

(** [error instanceof Error]. *)
Definition instanceof_Error (error : Exn) : bool :=
  match error with
  | NotAnError _ => false
  | _ => true
  end.

(** *** What the scripts print

    One constructor for each call of [console.log] or [console.error],
    with the values the call prints; the texts are those of the scripts,
    their pictograms left out. *)

Inductive Line : Type :=
(* both transaction scripts *)
| MissingHeliusApiKey
    (* "HELIUS_API_KEY not found in environment variables. Please set it in .env file." *)
| WalletFileNotFound
    (* "Wallet file not found. Please update path." *)
| UsingWallet (key : PublicKey)
    (* "Using wallet:", walletKeypair.publicKey.toString() *)
| MissingJitoUuid
    (* "JITO_UUID not found in environment variables. Please set it in .env file." *)
| FetchingRecommendedFees
    (* "Fetching recommended fees..." *)
| RecommendedFees (fees : FeeRecommendation)
    (* "Recommended fees:", fees *)
| UsingJitoTipAccount (key : PublicKey)
    (* "Using Jito tip account:", jitoTipAccount.toString() *)
| ServerResponse (data : JSON)
    (* "Server response:", error.response.data *)
(* testBundle *)
| SimulatingBundle
    (* "Simulating bundle before sending..." *)
| SimulationFailedWithError (error : RpcError)
    (* "Bundle simulation failed with error:", simulationResult.error *)
| SimulationFailed (err : JSON)
    (* "Bundle simulation failed:", simulationResult.result.err *)
| SimulationLogs
    (* "Simulation logs:" *)
| TransactionLogs (n : nat)
    (* `Transaction ${index + 1} logs:` *)
| LogLine (log : string)
    (* `  ${log}` *)
| SimulationSuccessful
    (* "Bundle simulation successful!" *)
| SimulationSlot (slot : option number)
    (* `  Slot: ${simulationResult.result?.context.slot}` *)
| UnitsConsumed (units : option number)
    (* `  Units consumed: ${simulationResult.result?.unitsConsumed || 'N/A'}` *)
| SendingBundle
    (* "Sending bundle with 2 transactions..." *)
| BundleSendResult (result : SendBundleResponse)
    (* "Bundle send result:", result *)
| FailedToGetBundleId
    (* "Failed to get bundle ID from response" *)
| BundleId (bundleId : string)
    (* "Bundle ID:", bundleId *)
| WaitingForBundleConfirmation
    (* "Waiting for bundle confirmation..." *)
| InflightBundleStatus (inflightStatus : gmap string JSON)
    (* "Inflight bundle status:", JSON.stringify(inflightStatus, null, 2) *)
| Reported (report : Report)
    (* the line of the status chain *)
| FetchingFinalBundleStatus
    (* "Fetching final bundle status..." *)
| FinalBundleStatusResponse (finalStatus : BundleStatusesResponse)
    (* "Final bundle status response:", JSON.stringify(finalStatus, null, 2) *)
| ConfirmationStatus (status : option string)
    (* "Confirmation status:", status.confirmation_status *)
| BundleExplorerUrl (url : string)
    (* "Bundle Explorer URL:", explorerUrl *)
| FinalBundleDetails (status : BundleStatus)
    (* "Final bundle details:", JSON.stringify(status, null, 2) *)
| TransactionUrls (n : nat)
    (* `Transaction URLs (${n} transaction(s) in this bundle):`, the count printed *)
| TransactionUrl (n : nat) (url : string)
    (* `Transaction ${index + 1}: ${txUrl}` *)
| NoTransactionsFound
    (* "No transactions found in the bundle status." *)
| UnexpectedFinalStatus
    (* "Unexpected final bundle status response structure" *)
| ErrorFetchingFinalStatus (error : Exn)
    (* "Error fetching final bundle status:", statusError.message *)
| ErrorSendingOrConfirmingBundle (error : Exn)
    (* "Error sending or confirming bundle:", error.message *)
(* testTransaction *)
| SendingTransaction
    (* "Sending transaction..." *)
| TransactionSendResult (result : SendTransactionResponse)
    (* "Transaction send result:", result *)
| TransactionSignature (signature : string)
    (* "Transaction signature:", signature *)
| WaitingForConfirmation
    (* "Waiting for confirmation..." *)
| TransactionConfirmation (confirmation : SignatureStatusResponse)
    (* "Transaction confirmation:", confirmation *)
| TransactionStatus (status : SignatureStatusResponse)
    (* "Transaction status:", status *)
| TransactionFinalized (url : string)
    (* `Transaction finalized. View details on Solscan: ${solscanUrl}` *)
| TransactionNotFinalized
    (* "Transaction was not finalized within the expected time." *)
| ErrorFromJito (error : RpcError)
    (* "Error from Jito:", result.error *)
| ErrorSendingOrConfirmingTransaction (error : Exn)
    (* "Error sending or confirming transaction:", error *)
(* main, and the handlers at the end of the two transaction scripts *)
| ErrorLine (error : Exn)
    (* "Error:", error *)
| Uncaught (error : Exn).
    (* [.catch(console.error)] *)

(** What a script does, as the outside sees it. *)
Inductive Event : Type :=
| console_log (line : Line)
| console_error (line : Line)
| existsSync (path : string)
| readFileSync (path : string)
| fetched (rq : Request)
| Date_now
| setTimeout (ms : number)
| getLatestBlockhash
| getSignatureStatus (signature : string)
| sendTxn (service : Service) (params : JSON) (bundleOnly : bool)
| sendBundle (service : Service) (params : JSON)
| confirmInflightBundle (service : Service) (bundleId : string) (timeoutMs : number)
| getBundleStatuses (service : Service) (params : JSON).

(** *** The world the scripts run in

    The answers of the environment: the process, the file system, the
    clock, the chain and the relay.  The clock and the chain are asked
    repeatedly: their answers are indexed by the number of earlier
    questions of the same kind. *)

Record World : Type := {
  process_env : string -> option string;
    (* [process.env[name]] *)
  fs_existsSync : string -> bool;
  fs_keypair : string -> Exn + Keypair;
    (* [Keypair.fromSecretKey(Uint8Array.from(JSON.parse(fs.readFileSync(path, "utf-8"))))] *)
  toISOString : string;
    (* [new Date().toISOString()] *)
  clock : nat -> number;
    (* [Date.now()] *)
  Math_random : number;
  new_PublicKey : option string -> Exn + PublicKey;
    (* [new PublicKey(value)]; [None] is [undefined] *)
  instruction_error : Instruction -> option Exn;
    (* what [ComputeBudgetProgram.setComputeUnitPrice] or
       [SystemProgram.transfer] throws when asked for this instruction, if
       anything: an amount it cannot encode *)
  sign_error : Keypair -> Transaction -> option Exn;
    (* what [tx.sign(signer)] throws, if anything *)
  latestBlockhash : Exn + string;
    (* [(await connection.getLatestBlockhash()).blockhash] *)
  serialize : bool -> Transaction -> Exn + string;
    (* [Buffer.from(tx.serialize({verifySignatures})).toString("base64")] *)
  tip_floor : Request -> Response (option (list TipFloorData));
    (* [fetch], at the tip-floor endpoint *)
  rpc : Request -> Response SimulateBundleResponse;
    (* [fetch], at the RPC endpoint *)
  relay_sendTxn : Service -> JSON -> bool -> Exn + SendTransactionResponse;
  relay_sendBundle : Service -> JSON -> Exn + SendBundleResponse;
  relay_confirmInflightBundle :
    Service -> string -> number -> Exn + gmap string JSON;
  relay_getBundleStatuses : Service -> JSON -> Exn + BundleStatusesResponse;
  signatureStatus : nat -> string -> Exn + SignatureStatusResponse
    (* [await connection.getSignatureStatus(signature)] *)
}.

(** How a script ends: it returns, it throws (the promise is rejected), or
    its loop is still running when the fuel is spent. *)
Inductive Outcome (A : Type) : Type :=
| Returned (a : A)
| Thrown (e : Exn)
| OutOfFuel.
Arguments Returned {A} _.
Arguments Thrown {A} _.
Arguments OutOfFuel {A}.

(** A script appends what it does to the trace. *)
Definition Script (A : Type) : Type :=
  World -> list Event -> list Event * Outcome A.

Definition pure {A} (a : A) : Script A := fun _ trace => (trace, Returned a).

Definition raise {A} (e : Exn) : Script A := fun _ trace => (trace, Thrown e).

Definition andThen {A B} (m : Script A) (k : A -> Script B) : Script B :=
  fun w trace =>
    match m w trace with
    | (trace', Returned a) => k a w trace'
    | (trace', Thrown e) => (trace', Thrown e)
    | (trace', OutOfFuel) => (trace', OutOfFuel)
    end.

#[global] Instance Script_ret : MRet Script := fun A => @pure A.
#[global] Instance Script_bind : MBind Script := fun A B k m => @andThen A B m k.

(** [try { m } catch (error) { handler }]. *)
Definition try_catch {A} (m : Script A) (handler : Exn -> Script A) : Script A :=
  fun w trace =>
    match m w trace with
    | (trace', Thrown e) => handler e w trace'
    | r => r
    end.

(** An effect without an answer. *)
Definition emit (e : Event) : Script unit :=
  fun _ trace => (trace ++ [e], Returned tt).

(** A value of the world. *)
Definition ask {A} (f : World -> A) : Script A :=
  fun w trace => (trace, Returned (f w)).

(** A call that may throw. *)
Definition attempt {A} (f : World -> Exn + A) : Script A :=
  fun w trace =>
    (trace, match f w with inl e => Thrown e | inr a => Returned a end).

(** A call of the Solana client that builds an instruction from an amount:
    it throws when the client refuses the amount. *)
Definition build (i : Instruction) : Script Instruction :=
  attempt (fun w => match instruction_error w i with
                    | Some e => inl e
                    | None => inr i
                    end).

(** [tx.sign(signer)]. *)
Definition signed (signer : Keypair) (tx : Transaction) : Script Transaction :=
  attempt (fun w => match sign_error w signer tx with
                    | Some e => inl e
                    | None => inr (sign signer tx)
                    end).

(** A method of the service: its requests join the trace, its error is
    thrown. *)
Definition service {B A} (net : World -> Request -> Response B) (m : IO B A)
  : Script A :=
  fun w trace =>
    let '(requests, r) := run m (net w) in
    (trace ++ map fetched requests,
     match r with inl e => Thrown (ServiceError e) | inr a => Returned a end).

Fixpoint count (p : Event -> bool) (trace : list Event) : nat :=
  match trace with
  | [] => 0
  | e :: trace' => (if p e then 1 else 0) + count p trace'
  end.

Definition is_Date_now (e : Event) : bool :=
  match e with Date_now => true | _ => false end.

Definition is_getSignatureStatus (e : Event) : bool :=
  match e with getSignatureStatus _ => true | _ => false end.

(** [Date.now()]. *)
Definition now : Script number :=
  fun w trace => (trace ++ [Date_now], Returned (clock w (count is_Date_now trace))).

(** [await connection.getSignatureStatus(signature)]. *)
Definition connection_getSignatureStatus (signature : string)
  : Script SignatureStatusResponse :=
  fun w trace =>
    (trace ++ [getSignatureStatus signature],
     match signatureStatus w (count is_getSignatureStatus trace) signature with
     | inl e => Thrown e
     | inr s => Returned s
     end).

(** [array.forEach((item, index) => f)]. *)
Fixpoint forEach {A} (f : A -> nat -> Script unit) (items : list A) (index : nat)
  : Script unit :=
  match items with
  | [] => pure tt
  | item :: items' => f item index;; forEach f items' (S index)
  end.

(** [if (error.response && error.response.data) console.error("Server response:", ...)]. *)
Definition printServerResponse (error : Exn) : Script unit :=
  match response_data error with
  | Some data => if truthy data then emit (console_error (ServerResponse data))
                 else pure tt
  | None => pure tt
  end.

(** [if (error instanceof Error && "response" in error)] and, inside,
    [if (axiosError.response?.data) console.error("Server response:", ...)]. *)
Definition printAxiosResponse (error : Exn) : Script unit :=
  if instanceof_Error error then printServerResponse error else pure tt.

(** *** [confirmTransaction] *)

(** [status.value && status.value.confirmationStatus === "finalized"]. *)
Definition finalized (status : SignatureStatusResponse) : bool :=
  match value status with
  | Some v =>
      match confirmationStatus v with
      | Some s => String.eqb s "finalized"
      | None => false
      end
  | None => false
  end.

(** The [while] loop: [fuel] bounds the number of times its condition is
    evaluated. *)
Fixpoint confirmLoop (fuel : nat) (signature : string) (start timeoutMs : number)
  : Script SignatureStatusResponse :=
  match fuel with
  | O => fun _ trace => (trace, OutOfFuel)
  | S fuel' =>
      t ← now;
      if t - start <? timeoutMs then
        status ← connection_getSignatureStatus signature;
        if finalized status then pure status
        else
          emit (setTimeout 1000);;
          confirmLoop fuel' signature start timeoutMs
      else raise (ConfirmTimeout signature timeoutMs)
  end.

Definition confirmTransaction (fuel : nat) (signature : string)
    (timeoutMs : option number) : Script SignatureStatusResponse :=
  let timeoutMs := default 60000 timeoutMs in
  start ← now;
  status ← connection_getSignatureStatus signature;
  confirmLoop fuel signature start timeoutMs.

(** *** What the two scripts share *)

Definition walletPath : string := "../wallet.json".

(** What [if (s)] lets through: a string that is neither [undefined] nor
    empty. *)
Definition nonEmpty (s : option string) : option string :=
  match s with
  | Some "" => None
  | _ => s
  end.

(** [fs.existsSync(path)]. *)
Definition fs_exists (path : string) : Script bool :=
  emit (existsSync path);; ask (fun w => fs_existsSync w path).

(** Reading the wallet file into a key pair. *)
Definition loadKeypair (path : string) : Script Keypair :=
  emit (readFileSync path);; attempt (fun w => fs_keypair w path).

(** [(await connection.getLatestBlockhash()).blockhash]. *)
Definition connection_getLatestBlockhash : Script string :=
  emit getLatestBlockhash;; attempt latestBlockhash.

(** [await jitoService.getRandomTipAccount()]; [None] is [undefined]. *)
Definition service_getRandomTipAccount : Script (option string) :=
  ask (fun w => getRandomTipAccount (Math_random w)).

(** The methods of the base class. *)
Definition service_sendTxn (jitoService : Service) (params : JSON) (bundleOnly : bool)
  : Script SendTransactionResponse :=
  emit (sendTxn jitoService params bundleOnly);;
  attempt (fun w => relay_sendTxn w jitoService params bundleOnly).

Definition service_sendBundle (jitoService : Service) (params : JSON)
  : Script SendBundleResponse :=
  emit (sendBundle jitoService params);;
  attempt (fun w => relay_sendBundle w jitoService params).

Definition service_confirmInflightBundle (jitoService : Service)
    (bundleId : string) (timeoutMs : number) : Script (gmap string JSON) :=
  emit (confirmInflightBundle jitoService bundleId timeoutMs);;
  attempt (fun w => relay_confirmInflightBundle w jitoService bundleId timeoutMs).

Definition service_getBundleStatuses (jitoService : Service) (params : JSON)
  : Script BundleStatusesResponse :=
  emit (getBundleStatuses jitoService params);;
  attempt (fun w => relay_getBundleStatuses w jitoService params).

(** [Math.floor(fees.priorityFeeLamports / 1000)]. *)
Definition microLamports_of (fees : FeeRecommendation) : number :=
  Math_floor (priorityFeeLamports fees / 1000).

(** *** [testTransaction] (scripts/test-tx.ts) *)

(** The transaction the script has built and signed when no step throws. *)
Definition tipTransaction (fees : FeeRecommendation) (walletKeypair : Keypair)
    (jitoTipAccount : PublicKey) (memoText blockhash : string) : Transaction :=
  let transaction := new_Transaction in
  let transaction := add (setComputeUnitPrice (microLamports_of fees)) transaction in
  let memoInstruction :=
    createMemoInstruction memoText [publicKey walletKeypair] in
  let transaction := add memoInstruction transaction in
  let transaction :=
    add (transfer (publicKey walletKeypair) jitoTipAccount (jitoTipLamports fees))
        transaction in
  let transaction := set_recentBlockhash blockhash transaction in
  let transaction := set_feePayer (publicKey walletKeypair) transaction in
  sign walletKeypair transaction.

(** The body of the [try] block. *)
Definition sendAndConfirmTransaction (fuel : nat) (jitoService : Service)
    (walletKeypair : Keypair) : Script unit :=
  emit (console_log FetchingRecommendedFees);;
  fees ← service tip_floor (getRecommendedFeeFromTipFloor (Some P75));
  emit (console_log (RecommendedFees fees));;
  randomTipAccount ← service_getRandomTipAccount;
  jitoTipAccount ← attempt (fun w => new_PublicKey w randomTipAccount);
  emit (console_log (UsingJitoTipAccount jitoTipAccount));;
  let transaction := new_Transaction in
  priceInstruction ← build (setComputeUnitPrice (microLamports_of fees));
  let transaction := add priceInstruction transaction in
  memoText ← ask (fun w => "Test memo from Jito service at " +:+ toISOString w);
  let memoInstruction :=
    createMemoInstruction memoText [publicKey walletKeypair] in
  let transaction := add memoInstruction transaction in
  tipInstruction ←
    build (transfer (publicKey walletKeypair) jitoTipAccount
             (jitoTipLamports fees));
  let transaction := add tipInstruction transaction in
  blockhash ← connection_getLatestBlockhash;
  let transaction := set_recentBlockhash blockhash transaction in
  let transaction := set_feePayer (publicKey walletKeypair) transaction in
  transaction ← signed walletKeypair transaction;
  base64Transaction ← attempt (fun w => serialize w true transaction);
  emit (console_log SendingTransaction);;
  result ← sendTransaction (service_sendTxn jitoService)
             {| transaction := base64Transaction;
                encoding := Some base64;
                bundleOnly := Some false |};
  emit (console_log (TransactionSendResult result));;
  match nonEmpty (Scripts.result result) with
  | Some signature =>
      emit (console_log (TransactionSignature signature));;
      emit (console_log WaitingForConfirmation);;
      confirmation ← confirmTransaction fuel signature (Some 120000);
      emit (console_log (TransactionConfirmation confirmation));;
      status ← connection_getSignatureStatus signature;
      emit (console_log (TransactionStatus status));;
      if finalized status
      then
        let solscanUrl := "https://solscan.io/tx/" +:+ signature in
        emit (console_log (TransactionFinalized solscanUrl))
      else emit (console_log TransactionNotFinalized)
  | None =>
      match error result with
      | Some e => emit (console_error (ErrorFromJito e))
      | None => pure tt
      end
  end.

Definition testTransaction (fuel : nat) : Script unit :=
  heliusApiKey ← ask (fun w => process_env w "HELIUS_API_KEY");
  match nonEmpty heliusApiKey with
  | None => emit (console_error MissingHeliusApiKey)
  | Some heliusApiKey =>
      walletExists ← fs_exists walletPath;
      if negb walletExists
      then emit (console_error WalletFileNotFound)
      else
        walletKeypair ← loadKeypair walletPath;
        emit (console_log (UsingWallet (publicKey walletKeypair)));;
        jitoUuid ← ask (fun w => process_env w "JITO_UUID");
        match nonEmpty jitoUuid with
        | None => emit (console_error MissingJitoUuid)
        | Some jitoUuid =>
            let jitoService := new_JitoService MAINNET (Some jitoUuid) in
            try_catch
              (sendAndConfirmTransaction fuel jitoService walletKeypair)
              (fun error =>
                 emit (console_error (ErrorSendingOrConfirmingTransaction error));;
                 printAxiosResponse error)
        end
  end.

(** [testTransaction().catch(console.error)]. *)
Definition run_testTransaction (fuel : nat) : Script unit :=
  try_catch (testTransaction fuel)
            (fun error => emit (console_error (Uncaught error))).

(** *** [testBundle] (the bundle script) *)

(** The first transaction of the bundle, as the script has built and signed
    it when no step throws. *)
Definition bundleTransaction1 (fees : FeeRecommendation) (walletKeypair : Keypair)
    (memoText1 blockhash : string) : Transaction :=
  let transaction1 := new_Transaction in
  let transaction1 := add (setComputeUnitPrice (microLamports_of fees)) transaction1 in
  let memoInstruction1 :=
    createMemoInstruction memoText1 [publicKey walletKeypair] in
  let transaction1 := add memoInstruction1 transaction1 in
  let transaction1 := set_recentBlockhash blockhash transaction1 in
  let transaction1 := set_feePayer (publicKey walletKeypair) transaction1 in
  sign walletKeypair transaction1.

(** The second one, likewise: two memos, then the tip. *)
Definition bundleTransaction2 (fees : FeeRecommendation) (walletKeypair : Keypair)
    (jitoTipAccount : PublicKey) (blockhash : string) : Transaction :=
  let transaction2 := new_Transaction in
  let transaction2 := add (setComputeUnitPrice (microLamports_of fees)) transaction2 in
  let memoText2 := "Bundle TX 2: Testing Jito bundles" in
  let memoInstruction2 :=
    createMemoInstruction memoText2 [publicKey walletKeypair] in
  let transaction2 := add memoInstruction2 transaction2 in
  let memoText3 := "Bundle TX 2: Additional memo" in
  let memoInstruction3 :=
    createMemoInstruction memoText3 [publicKey walletKeypair] in
  let transaction2 := add memoInstruction3 transaction2 in
  let transaction2 :=
    add (transfer (publicKey walletKeypair) jitoTipAccount (jitoTipLamports fees))
        transaction2 in
  let transaction2 := set_recentBlockhash blockhash transaction2 in
  let transaction2 := set_feePayer (publicKey walletKeypair) transaction2 in
  sign walletKeypair transaction2.

(** The two [forEach] loops that print the simulation logs. *)
Definition printSimulationLogs (logs : list (list string)) : Script unit :=
  emit (console_log SimulationLogs);;
  forEach
    (fun txLogs index =>
       emit (console_log (TransactionLogs (index + 1)));;
       forEach (fun log _ => emit (console_log (LogLine log))) txLogs 0)
    logs 0.

(** The inner [try] of the confirmed branch. *)
Definition fetchFinalStatus (jitoService : Service) (bundleId : string)
  : Script unit :=
  try_catch
    (emit (console_log FetchingFinalBundleStatus);;
     finalStatus ←
       service_getBundleStatuses jitoService (JArr [JArr [JStr bundleId]]);
     emit (console_log (FinalBundleStatusResponse finalStatus));;
     match result finalStatus ≫= value with
     | Some (status :: _) =>
         emit (console_log (ConfirmationStatus (confirmation_status status)));;
         let explorerUrl := "https://explorer.jito.wtf/bundle/" +:+ bundleId in
         emit (console_log (BundleExplorerUrl explorerUrl));;
         emit (console_log (FinalBundleDetails status));;
         match transactions status with
         | Some (txId :: txIds) =>
             emit (console_log (TransactionUrls (length (txId :: txIds))));;
             forEach
               (fun txId index =>
                  let txUrl := "https://solscan.io/tx/" +:+ txId in
                  emit (console_log (TransactionUrl (index + 1) txUrl)))
               (txId :: txIds) 0
         | _ => emit (console_log NoTransactionsFound)
         end
     | _ => emit (console_log UnexpectedFinalStatus)
     end)
    (fun statusError =>
       emit (console_error (ErrorFetchingFinalStatus statusError));;
       printServerResponse statusError).

(** The status chain: what [reportInflightStatus] selects is printed, and
    the confirmed branch goes on to the final status. *)
Definition reportBundle (jitoService : Service) (bundleId : string)
    (inflightStatus : gmap string JSON) : Script unit :=
  match reportInflightStatus inflightStatus with
  | ConfirmedAtSlot slot =>
      emit (console_log (Reported (ConfirmedAtSlot slot)));;
      fetchFinalStatus jitoService bundleId
  | Silent => pure tt
  | report => emit (console_log (Reported report))
  end.

(** From the send to the report. *)
Definition sendAndReport (jitoService : Service)
    (base64EncodedTransaction1 base64EncodedTransaction2 : string) : Script unit :=
  emit (console_log SendingBundle);;
  result ←
    service_sendBundle jitoService
      (JArr [JArr [JStr base64EncodedTransaction1; JStr base64EncodedTransaction2];
             JObj [("encoding", JStr "base64")]]);
  emit (console_log (BundleSendResult result));;
  match nonEmpty (Scripts.result result) with
  | None => emit (console_error FailedToGetBundleId)
  | Some bundleId =>
      emit (console_log (BundleId bundleId));;
      emit (console_log WaitingForBundleConfirmation);;
      inflightStatus ← service_confirmInflightBundle jitoService bundleId 120000;
      emit (console_log (InflightBundleStatus inflightStatus));;
      reportBundle jitoService bundleId inflightStatus
  end.

(** [units || 'N/A']: [None] is the text. *)
Definition orNA (units : option number) : option number :=
  match units with
  | Some u => if truthy (JNum u) then Some u else None
  | None => None
  end.

(** [simulationResult.result?.err], when it is truthy, with the result
    that carries it. *)
Definition simulationFailure (simulationResult : SimulateBundleResponse)
  : option SimulateBundleResult :=
  match result simulationResult with
  | Some r => if truthy (err r) then Some r else None
  | None => None
  end.

(** The simulation and what follows it. *)
Definition simulateAndSend (jitoService : Service) (rpcEndpoint : string)
    (base64EncodedTransaction1 base64EncodedTransaction2 : string) : Script unit :=
  emit (console_log SimulatingBundle);;
  simulationResult ←
    service rpc
      (simulateBundle
         {| encodedTransactions :=
              [base64EncodedTransaction1; base64EncodedTransaction2];
            skipSigVerify := Some false;
            replaceRecentBlockhash := Some false |}
         (Some rpcEndpoint));
  match error simulationResult with
  | Some e => emit (console_error (SimulationFailedWithError e))
  | None =>
      match simulationFailure simulationResult with
      | Some r =>
          emit (console_error (SimulationFailed (err r)));;
          match logs r with
          | Some l => printSimulationLogs l
          | None => pure tt
          end
      | None =>
          let r := result simulationResult in
          emit (console_log SimulationSuccessful);;
          emit (console_log (SimulationSlot (slot <$> r)));;
          emit (console_log (UnitsConsumed (orNA (r ≫= unitsConsumed))));;
          match r ≫= logs with
          | Some l => printSimulationLogs l
          | None => pure tt
          end;;
          sendAndReport jitoService
            base64EncodedTransaction1 base64EncodedTransaction2
      end
  end.

(** The body of the [try] block. *)
Definition buildSimulateAndSend (jitoService : Service) (walletKeypair : Keypair)
    (rpcEndpoint : string) : Script unit :=
  emit (console_log FetchingRecommendedFees);;
  fees ← service tip_floor (getRecommendedFeeFromTipFloor (Some P75));
  emit (console_log (RecommendedFees fees));;
  randomTipAccount ← service_getRandomTipAccount;
  jitoTipAccount ← attempt (fun w => new_PublicKey w randomTipAccount);
  emit (console_log (UsingJitoTipAccount jitoTipAccount));;
  blockhash ← connection_getLatestBlockhash;
  (* the first transaction *)
  let transaction1 := new_Transaction in
  priceInstruction ← build (setComputeUnitPrice (microLamports_of fees));
  let transaction1 := add priceInstruction transaction1 in
  memoText1 ← ask (fun w => "Bundle TX 1: " +:+ toISOString w);
  let memoInstruction1 :=
    createMemoInstruction memoText1 [publicKey walletKeypair] in
  let transaction1 := add memoInstruction1 transaction1 in
  let transaction1 := set_recentBlockhash blockhash transaction1 in
  let transaction1 := set_feePayer (publicKey walletKeypair) transaction1 in
  transaction1 ← signed walletKeypair transaction1;
  base64EncodedTransaction1 ← attempt (fun w => serialize w false transaction1);
  (* the second transaction *)
  let transaction2 := new_Transaction in
  priceInstruction ← build (setComputeUnitPrice (microLamports_of fees));
  let transaction2 := add priceInstruction transaction2 in
  let memoText2 := "Bundle TX 2: Testing Jito bundles" in
  let memoInstruction2 :=
    createMemoInstruction memoText2 [publicKey walletKeypair] in
  let transaction2 := add memoInstruction2 transaction2 in
  let memoText3 := "Bundle TX 2: Additional memo" in
  let memoInstruction3 :=
    createMemoInstruction memoText3 [publicKey walletKeypair] in
  let transaction2 := add memoInstruction3 transaction2 in
  tipInstruction ←
    build (transfer (publicKey walletKeypair) jitoTipAccount
             (jitoTipLamports fees));
  let transaction2 := add tipInstruction transaction2 in
  let transaction2 := set_recentBlockhash blockhash transaction2 in
  let transaction2 := set_feePayer (publicKey walletKeypair) transaction2 in
  transaction2 ← signed walletKeypair transaction2;
  base64EncodedTransaction2 ← attempt (fun w => serialize w false transaction2);
  simulateAndSend jitoService rpcEndpoint
    base64EncodedTransaction1 base64EncodedTransaction2.

Definition testBundle : Script unit :=
  heliusApiKey ← ask (fun w => process_env w "HELIUS_API_KEY");
  match nonEmpty heliusApiKey with
  | None => emit (console_error MissingHeliusApiKey)
  | Some heliusApiKey =>
      let rpcEndpoint := "https://mainnet.helius-rpc.com/?api-key=" +:+ heliusApiKey in
      walletExists ← fs_exists walletPath;
      if negb walletExists
      then emit (console_error WalletFileNotFound)
      else
        walletKeypair ← loadKeypair walletPath;
        emit (console_log (UsingWallet (publicKey walletKeypair)));;
        jitoUuid ← ask (fun w => process_env w "JITO_UUID");
        match nonEmpty jitoUuid with
        | None => emit (console_error MissingJitoUuid)
        | Some jitoUuid =>
            let jitoService := new_JitoService MAINNET (Some jitoUuid) in
            try_catch
              (buildSimulateAndSend jitoService walletKeypair rpcEndpoint)
              (fun error =>
                 emit (console_error (ErrorSendingOrConfirmingBundle error));;
                 printServerResponse error)
        end
  end.

(** [testBundle().catch(console.error)]. *)
Definition run_testBundle : Script unit :=
  try_catch testBundle (fun error => emit (console_error (Uncaught error))).

(** *** [main] (scripts/test-fees.ts) *)

Definition main : Script unit :=
  let service_ := new_JitoService MAINNET None in
  try_catch
    (fees ← service tip_floor (getRecommendedFeeFromTipFloor (Some P75));
     emit (console_log (RecommendedFees fees)))
    (fun error => emit (console_error (ErrorLine error))).

(** *** Reading a trace *)

(** The events [f] selects, in order. *)
Fixpoint select {A} (f : Event -> option A) (trace : list Event) : list A :=
  match trace with
  | [] => []
  | e :: trace' =>
      match f e with
      | Some a => a :: select f trace'
      | None => select f trace'
      end
  end.

Definition bundle_of (e : Event) : option (Service * JSON) :=
  match e with sendBundle s params => Some (s, params) | _ => None end.

Definition transaction_of (e : Event) : option (Service * JSON * bool) :=
  match e with sendTxn s params b => Some (s, params, b) | _ => None end.

Definition request_of (e : Event) : option Request :=
  match e with fetched rq => Some rq | _ => None end.

Definition statusQuery_of (e : Event) : option (Service * JSON) :=
  match e with getBundleStatuses s params => Some (s, params) | _ => None end.

Definition wait_of (e : Event) : option (Service * string * number) :=
  match e with
  | confirmInflightBundle s bundleId timeoutMs => Some (s, bundleId, timeoutMs)
  | _ => None
  end.

Definition poll_of (e : Event) : option string :=
  match e with getSignatureStatus signature => Some signature | _ => None end.

Definition log_of (e : Event) : option Line :=
  match e with console_log line => Some line | _ => None end.

Definition error_of (e : Event) : option Line :=
  match e with console_error line => Some line | _ => None end.

Definition is_console_log (e : Event) : bool :=
  match e with console_log _ => true | _ => false end.

(** What leaves the machine: requests, and calls to the chain and to the
    relay. *)
Definition is_remote (e : Event) : bool :=
  match e with
  | fetched _ | getLatestBlockhash | getSignatureStatus _ | sendTxn _ _ _
  | sendBundle _ _ | confirmInflightBundle _ _ _ | getBundleStatuses _ _ => true
  | _ => false
  end.

Definition remote_of (e : Event) : option Event :=
  if is_remote e then Some e else None.

(** The bundles sent, the transactions sent, the requests issued, the
    final-status queries, the waits for a confirmation, the signatures
    asked about, the lines printed and the errors printed. *)
Definition sentBundles : list Event -> list (Service * JSON) := select bundle_of.
Definition sentTransactions : list Event -> list (Service * JSON * bool) :=
  select transaction_of.
Definition requests : list Event -> list Request := select request_of.
Definition statusQueries : list Event -> list (Service * JSON) :=
  select statusQuery_of.
Definition waits : list Event -> list (Service * string * number) :=
  select wait_of.
Definition polls : list Event -> list string := select poll_of.
Definition printed : list Event -> list Line := select log_of.
Definition errors : list Event -> list Line := select error_of.
Definition remoteCalls : list Event -> list Event := select remote_of.

Definition is_setTimeout (e : Event) : bool :=
  match e with setTimeout _ => true | _ => false end.

(** The events of the polling loop. *)
Definition is_polling (e : Event) : bool :=
  match e with
  | Date_now | getSignatureStatus _ | setTimeout _ => true
  | _ => false
  end.

(** The lines of a [forEach] whose callback only prints. *)
Fixpoint linesOf {A} (g : A -> nat -> list Event) (items : list A) (index : nat)
  : list Event :=
  match items with
  | [] => []
  | item :: items' => g item index ++ linesOf g items' (S index)
  end.

Definition simulationLogLines (logs : list (list string)) : list Event :=
  console_log SimulationLogs ::
  linesOf (fun txLogs index =>
             console_log (TransactionLogs (index + 1)) ::
             linesOf (fun log _ => [console_log (LogLine log)]) txLogs 0)
          logs 0.

(** *** A world for the examples

    Everything is configured and every call succeeds: the simulation is
    clean, the bundle is confirmed, and the chain reports the signature
    [statusAt n] at the poll number [n], the clock [clockAt n] at the
    reading number [n]. *)
Definition world_of (clockAt : nat -> number)
    (statusAt : nat -> SignatureStatusResponse) : World :=
  {| process_env := fun name =>
       if String.eqb name "HELIUS_API_KEY" then Some "helius-key"
       else if String.eqb name "JITO_UUID" then Some "jito-uuid"
       else None;
     fs_existsSync := fun _ => true;
     fs_keypair := fun _ => inr {| publicKey := {| toString := "wallet" |} |};
     toISOString := "2024-01-01T00:00:00.000Z";
     clock := clockAt;
     Math_random := 0.5;
     new_PublicKey := fun v =>
       match v with
       | Some a => inr {| toString := a |}
       | None => inl (LibraryError "Invalid public key input" None)
       end;
     instruction_error := fun _ => None;
     sign_error := fun _ _ => None;
     latestBlockhash := inr "blockhash";
     serialize := fun _ tx =>
       inr (if Nat.eqb (length (instructions tx)) 2 then "AQ==" else "Ag==");
     tip_floor := fun _ =>
       {| ok := true; status := 200; json := Some [sample_0003] |};
     rpc := fun _ =>
       {| ok := true; status := 200;
          json := {| result := Some {| slot := 5; err := JNull;
                                      logs := Some [["log a"; "log b"]; []];
                                      unitsConsumed := Some 300 |};
                     error := None |} |};
     relay_sendTxn := fun _ _ _ =>
       inr {| result := Some "signature"; error := None |};
     relay_sendBundle := fun _ _ =>
       inr {| result := Some "bundle"; error := None |};
     relay_confirmInflightBundle := fun _ _ _ =>
       inr {[ "confirmation_status" := JStr "confirmed"; "slot" := JNum 7 ]};
     relay_getBundleStatuses := fun _ _ =>
       inr {| result :=
                Some {| value :=
                          Some [{| confirmation_status := Some "finalized";
                                   transactions := Some ["tx1"; "tx2"] |}] |};
              error := None |};
     signatureStatus := fun n _ => inr (statusAt n) |}.

Definition status_of (s : string) : SignatureStatusResponse :=
  {| value := Some {| confirmationStatus := Some s |} |}.

(** A second of clock per reading; finalized from the third poll on. *)
Definition happy : World :=
  world_of (fun n => of_Z (1000 * Z.of_nat n))
           (fun n => status_of (if Nat.ltb n 2 then "processed" else "finalized")).

(** The signature is finalized at once, but the clock has already run
    past any deadline at its second reading. *)
Definition late : World :=
  world_of (fun n => match n with O => 0 | _ => 200000 end)
           (fun _ => status_of "finalized").

(** The signature is finalized at the second poll only. *)
Definition flapping : World :=
  world_of (fun n => of_Z (1000 * Z.of_nat n))
           (fun n => status_of (if Nat.eqb n 1 then "finalized" else "processed")).

(** The signature is never finalized; a minute of clock per reading. *)
Definition stalled : World :=
  world_of (fun n => of_Z (60000 * Z.of_nat n)) (fun _ => status_of "processed").

(** The relay refuses both sends, as in [happy] otherwise: the client of
    [sendTxn] throws an [Error] that carries the response, the one of
    [sendBundle] a value that is not an [Error]. *)
Definition rate_limited : World :=
  {| process_env := process_env happy;
     fs_existsSync := fs_existsSync happy;
     fs_keypair := fs_keypair happy;
     toISOString := toISOString happy;
     clock := clock happy;
     Math_random := Math_random happy;
     new_PublicKey := new_PublicKey happy;
     instruction_error := instruction_error happy;
     sign_error := sign_error happy;
     latestBlockhash := latestBlockhash happy;
     serialize := serialize happy;
     tip_floor := tip_floor happy;
     rpc := rpc happy;
     relay_sendTxn := fun _ _ _ =>
       inl (LibraryError "Request failed with status code 429"
              (Some (JStr "rate limited")));
     relay_sendBundle := fun _ _ =>
       inl (NotAnError (Some (JStr "rate limited")));
     relay_confirmInflightBundle := relay_confirmInflightBundle happy;
     relay_getBundleStatuses := relay_getBundleStatuses happy;
     signatureStatus := signatureStatus happy |}.

End Scripts.

(** * Theorems *)

(** ** The rounding of binary64 arithmetic *)

Module Binary64Facts.

Import Binary64.
Local Open Scope Z_scope.

(** *** Bit lengths *)

Lemma digits2_pos_bounds (p : positive) :
  2 ^ (Zpos (digits2_pos p) - 1) <= Zpos p < 2 ^ Zpos (digits2_pos p).
Proof.
  induction p as [p IH|p IH|]; cbn [digits2_pos].
  - rewrite Pos2Z.inj_succ.
    replace (Z.succ (Zpos (digits2_pos p)) - 1) with (Z.succ (Zpos (digits2_pos p) - 1)) by lia.
    rewrite !Z.pow_succ_r by lia. lia.
  - rewrite Pos2Z.inj_succ.
    replace (Z.succ (Zpos (digits2_pos p)) - 1) with (Z.succ (Zpos (digits2_pos p) - 1)) by lia.
    rewrite !Z.pow_succ_r by lia. lia.
  - cbn. lia.
Qed.

Lemma Zdigits2_bounds (q : Z) :
  0 < q -> 2 ^ (Zdigits2 q - 1) <= q < 2 ^ Zdigits2 q.
Proof.
  destruct q as [|p|p]; try lia. intros _. apply digits2_pos_bounds.
Qed.

Lemma Zdigits2_nonneg q : 0 <= Zdigits2 q.
Proof. destruct q; cbn; lia. Qed.

Lemma Zdigits2_pos q : 0 < q -> 0 < Zdigits2 q.
Proof. destruct q; cbn; lia. Qed.

Lemma pow2_lt_inv a b : 0 <= b -> 2 ^ a < 2 ^ b -> a < b.
Proof.
  intros Hb H. destruct (Z_lt_le_dec a b) as [|Hle]; [assumption|].
  pose proof (Z.pow_le_mono_r 2 b a ltac:(lia) Hle). lia.
Qed.

Lemma Zdigits2_unique q d :
  0 < q -> 2 ^ (d - 1) <= q < 2 ^ d -> Zdigits2 q = d.
Proof.
  intros Hq [H1 H2].
  pose proof (Zdigits2_bounds q Hq) as [B1 B2].
  pose proof (Zdigits2_pos q Hq) as Hd.
  assert (0 < d).
  { destruct (Z_lt_le_dec 0 d) as [|Hle]; [assumption|].
    pose proof (Z.pow_le_mono_r 2 d 0 ltac:(lia)) as Hp.
    destruct (Z.eq_dec d 0) as [->|]; [cbn in H2; lia|].
    rewrite (Z.pow_neg_r 2 d) in H2 by lia. lia. }
  assert (Zdigits2 q - 1 < d) by (apply pow2_lt_inv; lia).
  assert (d - 1 < Zdigits2 q) by (apply pow2_lt_inv; lia).
  lia.
Qed.

(** *** Right shifts *)

Lemma shr_1_bits q rb sb :
  0 <= q ->
  shr_1 (Build_shr_record q rb sb) = Build_shr_record (q / 2) (Z.odd q) (rb || sb).
Proof.
  intros Hq. destruct q as [|[p|p|]|p]; try lia; cbn [shr_1].
  - reflexivity.
  - replace (Zpos p~1 / 2) with (Zpos p)
      by (apply (Z.div_unique _ 2 _ 1); lia). reflexivity.
  - replace (Zpos p~0 / 2) with (Zpos p)
      by (apply (Z.div_unique _ 2 _ 0); lia). reflexivity.
  - reflexivity.
Qed.

Lemma shr_record_of_loc_bits m l :
  shr_record_of_loc m l =
    Build_shr_record m
      (match l with loc_Inexact Eq | loc_Inexact Gt => true | _ => false end)
      (match l with loc_Inexact Lt | loc_Inexact Gt => true | _ => false end).
Proof. destruct l as [|[| |]]; reflexivity. Qed.

Lemma div_mod_double X D :
  0 <= X -> 0 < D ->
  X / (2 * D) = X / D / 2 /\ X mod (2 * D) = (X / D mod 2) * D + X mod D.
Proof.
  intros HX HD.
  pose proof (Z.div_mod X D ltac:(lia)) as E1.
  pose proof (Z.mod_pos_bound X D HD) as B1.
  pose proof (Z.div_mod (X / D) 2 ltac:(lia)) as E2.
  pose proof (Z.mod_pos_bound (X / D) 2 ltac:(lia)) as B2.
  assert (Hq : X / (2 * D) = X / D / 2).
  { symmetry. apply (Z.div_unique X (2 * D) _ ((X / D mod 2) * D + X mod D)); nia. }
  split; [exact Hq|].
  pose proof (Z.div_mod X (2 * D) ltac:(lia)) as E3. rewrite Hq in E3. nia.
Qed.

(** One right shift of the quotient by [D] is the quotient by [2 * D], with
    the location of its remainder. *)
Lemma shr_1_rec X D :
  0 <= X -> 0 < D -> shr_1 (rec_of X D) = rec_of X (2 * D).
Proof.
  intros HX HD. unfold rec_of.
  destruct (div_mod_double X D HX HD) as [-> ->].
  pose proof (Z.mod_pos_bound X D HD) as B1.
  pose proof (Z.mod_pos_bound (X / D) 2 ltac:(lia)) as B2.
  assert (Hq : 0 <= X / D) by (apply Z.div_pos; lia).
  rewrite (shr_record_of_loc_bits (X / D)), shr_1_bits by assumption.
  rewrite shr_record_of_loc_bits.
  rewrite Zodd_mod. unfold loc_of.
  set (r := X mod D) in *. set (b := X / D mod 2) in *.
  assert (Hb : b = 0 \/ b = 1) by lia.
  destruct Hb as [-> | ->]; cbn [Z.eqb]; rewrite ?Z.mul_0_l, ?Z.mul_1_l, ?Z.add_0_l.
  - destruct (Z.eqb_spec r 0) as [->|Hr]; [reflexivity|].
    replace (2 * r ?= 2 * D) with Lt by (symmetry; apply Z.compare_lt_iff; lia).
    destruct (2 * r ?= D); reflexivity.
  - destruct (Z.eqb_spec r 0) as [->|Hr].
    + rewrite Z.add_0_r. destruct (Z.eqb_spec D 0); [lia|].
      rewrite Z.compare_refl. reflexivity.
    + destruct (Z.eqb_spec (D + r) 0); [lia|].
      replace (2 * (D + r) ?= 2 * D) with Gt by (symmetry; apply Z.compare_gt_iff; lia).
      destruct (2 * r ?= D); reflexivity.
Qed.

Lemma iter_shr_1_rec p : forall X D,
  0 <= X -> 0 < D -> SpecFloat.iter_pos shr_1 p (rec_of X D) = rec_of X (D * 2 ^ Zpos p).
Proof.
  induction p as [p IH|p IH|]; intros X D HX HD; cbn [SpecFloat.iter_pos].
  - rewrite shr_1_rec, !IH by lia. f_equal.
    replace (Zpos p~1) with (1 + Zpos p + Zpos p) by lia.
    rewrite !Z.pow_add_r by lia. change (2 ^ 1) with 2. ring.
  - rewrite !IH by lia. f_equal.
    replace (Zpos p~0) with (Zpos p + Zpos p) by lia.
    rewrite !Z.pow_add_r by lia. ring.
  - rewrite shr_1_rec by lia. f_equal. change (2 ^ 1) with 2. ring.
Qed.

Lemma shr_rec X D e n :
  0 <= X -> 0 < D -> 0 <= n ->
  shr (rec_of X D) e n = (rec_of X (D * 2 ^ n), e + n).
Proof.
  intros HX HD Hn. destruct n as [|p|p]; try lia; cbn [shr].
  - rewrite Z.pow_0_r, Z.mul_1_r, Z.add_0_r. reflexivity.
  - rewrite iter_shr_1_rec by lia. reflexivity.
Qed.

Lemma shr_m_of_loc m l : shr_m (shr_record_of_loc m l) = m.
Proof. destruct l as [|[| |]]; reflexivity. Qed.

Lemma loc_of_shr_record_of_loc m l :
  loc_of_shr_record (shr_record_of_loc m l) = l.
Proof. destruct l as [|[| |]]; reflexivity. Qed.

(** [binary_round_aux] on the quotient [X / D]: shift by [n], round the
    mantissa to nearest even, renormalise. *)
Lemma binary_round_aux_unfold s X D e :
  0 <= X -> 0 < D ->
  let n := fexp prec emax (Zdigits2 (X / D) + e) - e in
  0 <= n ->
  binary_round_aux prec emax s (X / D) e (loc_of (X mod D) D)
    = finalize s (rne X (D * 2 ^ n)) (e + n).
Proof.
  intros HX HD n Hn. unfold binary_round_aux, finalize.
  unfold shr_fexp at 1. fold n. fold (rec_of X D).
  rewrite shr_rec by assumption. unfold rec_of at 1 2.
  rewrite shr_m_of_loc, loc_of_shr_record_of_loc. fold (rne X (D * 2 ^ n)).
  reflexivity.
Qed.

Lemma fexp_eq e : fexp prec emax e = Z.max (e - 53) (-1074).
Proof. reflexivity. Qed.

Lemma Zdigits2_le k d : 0 <= d -> 0 <= k < 2 ^ d -> Zdigits2 k <= d.
Proof.
  intros Hd [H0 Hk]. destruct (Z.eq_dec k 0) as [->|Hne]; [cbn; lia|].
  pose proof (Zdigits2_bounds k ltac:(lia)) as [B1 _].
  pose proof (Zdigits2_pos k ltac:(lia)).
  assert (Zdigits2 k - 1 < d) by (apply pow2_lt_inv; lia). lia.
Qed.

(** After rounding, at most one more shift is needed, and it is exact. *)
Lemma finalize_canon s k E :
  0 <= k <= 2 ^ 53 -> -1074 <= E -> finalize s k E = canon s k E.
Proof.
  intros [Hk0 Hk] HE. unfold finalize, shr_fexp.
  destruct (Z.eq_dec k (2 ^ 53)) as [->|Hne].
  - change (Zdigits2 (2 ^ 53)) with 54. rewrite fexp_eq.
    replace (Z.max (54 + E - 53) (-1074) - E) with 1 by lia.
    cbn -[Z.add Z.leb]. reflexivity.
  - pose proof (Zdigits2_le k 53 ltac:(lia) ltac:(lia)) as Hd.
    pose proof (Zdigits2_nonneg k) as Hd0.
    rewrite fexp_eq.
    set (n := Z.max (Zdigits2 k + E - 53) (-1074) - E).
    assert (Hn : n <= 0) by lia.
    assert (Hs : shr (shr_record_of_loc k loc_Exact) E n
                 = (shr_record_of_loc k loc_Exact, E)).
    { destruct n; try lia; reflexivity. }
    rewrite Hs, shr_m_of_loc. unfold canon.
    destruct k as [|p|p]; try lia; [reflexivity|].
    destruct (Z.eqb_spec (Zpos p) (2 ^ 53)); [contradiction|reflexivity].
Qed.

(** *** Rounding to the nearest integer, ties to even *)

Lemma rne_spec X Y :
  0 <= X -> 0 < Y ->
  X / Y <= rne X Y <= X / Y + 1 /\
  2 * (rne X Y * Y - X) <= Y /\
  2 * (X - rne X Y * Y) <= Y /\
  (2 * (rne X Y * Y - X) = Y \/ 2 * (X - rne X Y * Y) = Y -> Z.even (rne X Y) = true).
Proof.
  intros HX HY.
  pose proof (Z.div_mod X Y ltac:(lia)) as E.
  pose proof (Z.mod_pos_bound X Y HY) as B.
  unfold rne, loc_of, round_nearest_even.
  set (q := X / Y) in *. set (r := X mod Y) in *.
  destruct (Z.eqb_spec r 0) as [Hr|Hr].
  - repeat apply conj; try nia; intros [H|H]; nia.
  - destruct (Z.compare_spec (2 * r) Y) as [Hc|Hc|Hc].
    + destruct (Z.even q) eqn:Ev.
      * repeat apply conj; try nia. intros _. exact Ev.
      * repeat apply conj; try nia. intros _.
        rewrite Z.even_add, Ev. reflexivity.
    + repeat apply conj; try nia; intros [H|H]; nia.
    + repeat apply conj; try nia; intros [H|H]; nia.
Qed.

(** *** Values *)

Lemma pow2_pos e : (0 < pow2 e)%Q.
Proof. apply Qpower_0_lt. reflexivity. Qed.

Lemma pow2_add a b : (pow2 (a + b) == pow2 a * pow2 b)%Q.
Proof. apply Qpower_plus. discriminate. Qed.

Lemma pow2_Z n : 0 <= n -> (pow2 n == inject_Z (2 ^ n))%Q.
Proof. intros Hn. unfold pow2. rewrite Zpower_Qpower by assumption. reflexivity. Qed.

Lemma pow2_le a b : a <= b -> (pow2 a <= pow2 b)%Q.
Proof. intros H. apply Qpower_le_compat_l; [assumption|]. discriminate. Qed.

Lemma pow2_lt a b : a < b -> (pow2 a < pow2 b)%Q.
Proof. intros H. apply Qpower_lt_compat_l; [assumption|]. reflexivity. Qed.

Lemma inject_Z_pos z : 0 < z -> (0 < inject_Z z)%Q.
Proof. intros H. change 0%Q with (inject_Z 0). rewrite <- Zlt_Qlt. exact H. Qed.

Lemma inject_Z_nonneg z : 0 <= z -> (0 <= inject_Z z)%Q.
Proof. intros H. change 0%Q with (inject_Z 0). rewrite <- Zle_Qle. exact H. Qed.

Lemma Q_scale_le (a x y pE v : Q) :
  (0 < y -> 0 < pE -> v * y == x * pE -> a * y <= x -> a * pE <= v)%Q.
Proof.
  intros Hy Hp Hv H. apply (Qmult_le_r _ _ y Hy).
  rewrite Hv. setoid_replace (a * pE * y)%Q with (a * y * pE)%Q using relation Qeq by ring.
  apply Qmult_le_compat_r; [exact H|]. apply Qlt_le_weak; exact Hp.
Qed.

Lemma Q_scale_ge (a x y pE v : Q) :
  (0 < y -> 0 < pE -> v * y == x * pE -> x <= a * y -> v <= a * pE)%Q.
Proof.
  intros Hy Hp Hv H. apply (Qmult_le_r _ _ y Hy).
  rewrite Hv. setoid_replace (a * pE * y)%Q with (a * y * pE)%Q using relation Qeq by ring.
  apply Qmult_le_compat_r; [exact H|]. apply Qlt_le_weak; exact Hp.
Qed.

Lemma Q_scale_lt (a x y pE v : Q) :
  (0 < y -> 0 < pE -> v * y == x * pE -> x < a * y -> v < a * pE)%Q.
Proof.
  intros Hy Hp Hv H. apply (Qmult_lt_r _ _ y Hy).
  rewrite Hv. setoid_replace (a * pE * y)%Q with (a * y * pE)%Q using relation Qeq by ring.
  apply Qmult_lt_compat_r; [exact Hp|exact H].
Qed.

Lemma Q_scale_eq (a x y pE v : Q) :
  (0 < y -> 0 < pE -> v * y == x * pE -> v == a * pE -> x == a * y)%Q.
Proof.
  intros Hy Hp Hv H. apply (Qmult_inj_r _ _ pE).
  { intros Hc. rewrite Hc in Hp. discriminate. }
  rewrite <- Hv, H. ring.
Qed.

Ltac push_inj H :=
  unfold Z.sub in H;
  repeat (rewrite inject_Z_plus in H || rewrite inject_Z_mult in H
          || rewrite inject_Z_opp in H);
  change (inject_Z 2) with 2%Q in H.

Ltac push_inj_goal :=
  unfold Z.sub;
  repeat (rewrite inject_Z_plus || rewrite inject_Z_mult || rewrite inject_Z_opp);
  change (inject_Z 2) with 2%Q.

Ltac z2q H :=
  first [ rewrite Zle_Qle in H | rewrite Zlt_Qlt in H
        | apply (f_equal inject_Z) in H ];
  push_inj H.

(** The number [binary_round_aux] returns for the exact value
    [v = X / D * 2^e] is [canon] of its rounding. *)
Lemma binary_round_aux_RND s X D e v :
  0 <= X -> 0 < D ->
  (v * inject_Z D == inject_Z X * pow2 e)%Q ->
  let n := fexp prec emax (Zdigits2 (X / D) + e) - e in
  0 <= n ->
  exists k,
    RND v k (e + n) /\
    binary_round_aux prec emax s (X / D) e (loc_of (X mod D) D) = canon s k (e + n).
Proof.
  intros HX HD Hv n Hn.
  pose proof (binary_round_aux_unfold s X D e HX HD Hn) as Hun. fold n in Hun.
  set (Y := D * 2 ^ n) in *.
  assert (HY : 0 < Y) by (unfold Y; apply Z.mul_pos_pos; [lia|apply Z.pow_pos_nonneg; lia]).
  destruct (rne_spec X Y HX HY) as (Hk1 & Hup & Hdn & Htie).
  set (k := rne X Y) in *.
  set (q := X / D) in *. set (d := Zdigits2 q) in *.
  assert (HE : e + n = Z.max (d + e - 53) (-1074)) by (unfold n; rewrite fexp_eq; lia).
  assert (Hq0 : 0 <= q) by (apply Z.div_pos; lia).
  assert (Hm1 : X / Y = q / 2 ^ n).
  { unfold Y, q. rewrite Z.div_div; [reflexivity|lia|apply Z.pow_pos_nonneg; lia]. }
  assert (Hp : 0 < 2 ^ n) by (apply Z.pow_pos_nonneg; lia).
  assert (Hm1hi : X / Y < 2 ^ 53).
  { rewrite Hm1. apply Z.div_lt_upper_bound; [lia|].
    destruct (Z.eq_dec q 0) as [->|Hq]; [nia|].
    pose proof (Zdigits2_bounds q ltac:(lia)) as [_ B2]. fold d in B2.
    pose proof (Zdigits2_pos q ltac:(lia)). fold d in H.
    rewrite <- Z.pow_add_r by lia.
    eapply Z.lt_le_trans; [exact B2|]. apply Z.pow_le_mono_r; lia. }
  assert (Hm1lo : e + n = -1074 \/ 2 ^ 52 <= X / Y).
  { destruct (Z.eq_dec (e + n) (-1074)) as [|Hne]; [left; assumption|right].
    rewrite Hm1. apply Z.div_le_lower_bound; [lia|].
    assert (Hd : n = d - 53) by lia.
    assert (0 < q).
    { destruct (Z.eq_dec q 0) as [Hq|]; [|lia]. unfold d in Hd. rewrite Hq in Hd. cbn in Hd. lia. }
    pose proof (Zdigits2_bounds q ltac:(lia)) as [B1 _]. fold d in B1.
    rewrite Z.mul_comm, <- Z.pow_add_r by lia.
    replace (52 + n) with (d - 1) by lia. exact B1. }
  assert (Hm10 : 0 <= X / Y) by (apply Z.div_pos; lia).
  pose proof (Z.div_mod X Y ltac:(lia)) as EX.
  pose proof (Z.mod_pos_bound X Y HY) as BX.
  exists k. split.
  2:{ rewrite Hun. apply finalize_canon; lia. }
  (* the value, over Y *)
  assert (HvY : (v * inject_Z Y == inject_Z X * pow2 (e + n))%Q).
  { unfold Y. rewrite inject_Z_mult, pow2_add, <- (pow2_Z n) by assumption.
    rewrite Qmult_assoc, Hv. ring. }
  pose proof (pow2_pos (e + n)) as HpE.
  pose proof (inject_Z_pos Y HY) as Hy.
  assert (Hflo : X / Y * Y <= X) by lia.
  assert (Hfhi : X < (X / Y + 1) * Y) by lia.
  clear Hun Hm1 EX BX. clearbody k Y.
  constructor.
  - lia.
  - lia.
  - destruct Hm1lo; [left; assumption|right; lia].
  - assert (H0 : (0 * pow2 (e + n) <= v)%Q).
    { apply (Q_scale_le _ _ _ _ _ Hy HpE HvY).
      pose proof (inject_Z_nonneg X HX). lra. }
    lra.
  - apply (Q_scale_lt _ _ _ _ _ Hy HpE HvY).
    assert (H1 : X < 9007199254740992 * Y) by nia. z2q H1. exact H1.
  - destruct Hm1lo as [|H52]; [left; assumption|right].
    apply (Q_scale_le _ _ _ _ _ Hy HpE HvY).
    assert (H1 : 4503599627370496 * Y <= X) by nia. z2q H1. exact H1.
  - z2q Hup.
    assert (H1 : ((inject_Z k - (1 # 2)) * pow2 (e + n) <= v)%Q).
    { apply (Q_scale_le _ _ _ _ _ Hy HpE HvY). lra. }
    lra.
  - z2q Hdn.
    assert (H1 : (v <= (inject_Z k + (1 # 2)) * pow2 (e + n))%Q).
    { apply (Q_scale_ge _ _ _ _ _ Hy HpE HvY). lra. }
    lra.
  - intros Ht. apply Htie.
    destruct Ht as [Ht|Ht]; [left|right]; apply inject_Z_injective;
      push_inj_goal.
    + assert (H1 : (inject_Z X == (inject_Z k - (1 # 2)) * inject_Z Y)%Q).
      { apply (Q_scale_eq _ _ _ _ _ Hy HpE HvY). lra. }
      lra.
    + assert (H1 : (inject_Z X == (inject_Z k + (1 # 2)) * inject_Z Y)%Q).
      { apply (Q_scale_eq _ _ _ _ _ Hy HpE HvY). lra. }
      lra.
Qed.

Lemma pow2_succ e : (pow2 (e + 1) == 2 * pow2 e)%Q.
Proof. rewrite pow2_add. change (pow2 1) with 2%Q. ring. Qed.

Lemma pow2_double_le a b : a < b -> (2 * pow2 a <= pow2 b)%Q.
Proof. intros H. rewrite <- pow2_succ. apply pow2_le. lia. Qed.

(** Rounding to nearest is monotone. *)
Lemma RND_mono v k E v' k' E' :
  RND v k E -> RND v' k' E' -> (v <= v')%Q ->
  (inject_Z k * pow2 E <= inject_Z k' * pow2 E')%Q.
Proof.
  intros [HE Hk Hkn Hv0 Hhi Hlo Hup Hdn Htie]
         [HE' Hk' Hkn' Hv0' Hhi' Hlo' Hup' Hdn' Htie'] Hvv.
  pose proof (pow2_pos E) as HpE. pose proof (pow2_pos E') as HpE'.
  destruct (Z.lt_trichotomy E E') as [Hlt|[Heq|Hgt]].
  - (* a lower binade: a power of two separates the results *)
    pose proof (pow2_double_le E E' Hlt) as Hd.
    assert (Hk52 : 4503599627370496 <= k') by lia.
    assert (H1 : (inject_Z k * pow2 E <= 9007199254740992 * pow2 E)%Q).
    { apply Qmult_le_compat_r; [|lra].
      change 9007199254740992%Q with (inject_Z 9007199254740992).
      rewrite <- Zle_Qle. lia. }
    assert (H2 : (4503599627370496 * pow2 E' <= inject_Z k' * pow2 E')%Q).
    { apply Qmult_le_compat_r; [|lra].
      change 4503599627370496%Q with (inject_Z 4503599627370496).
      rewrite <- Zle_Qle. lia. }
    lra.
  - subst E'.
    destruct (Z_le_gt_dec k k') as [Hle|Hgt].
    { apply Qmult_le_compat_r; [|lra]. rewrite <- Zle_Qle. exact Hle. }
    exfalso.
    assert (Hk1 : k = k' + 1).
    { destruct (Z.eq_dec k (k' + 1)) as [|Hne]; [assumption|exfalso].
      assert (H2 : k' + 2 <= k) by lia. z2q H2.
      assert (H3 : ((inject_Z k' + 2) * pow2 E <= inject_Z k * pow2 E)%Q).
      { apply Qmult_le_compat_r; [exact H2|lra]. }
      lra. }
    subst k. 
    assert (H3 : (inject_Z (k' + 1) * pow2 E == (inject_Z k' + 1) * pow2 E)%Q).
    { rewrite inject_Z_plus. reflexivity. }
    assert (T1 : Z.even (k' + 1) = true) by (apply Htie; left; lra).
    assert (T2 : Z.even k' = true) by (apply Htie'; right; lra).
    rewrite Z.even_add, T2 in T1. discriminate.
  - (* a higher binade is impossible *)
    exfalso.
    pose proof (pow2_double_le E' E ltac:(lia)) as Hd.
    destruct Hlo as [|Hlo]; [lia|]. lra.
Qed.

(** *** Finite non-negative numbers and their order *)

(** A valid mantissa has at most 53 bits, and exactly 53 above the
    subnormal exponent. *)
Lemma bounded_iff m e :
  bounded prec emax m e = true <->
  -1074 <= e <= 971 /\ Zpos m < 2 ^ 53 /\ (e = -1074 \/ 2 ^ 52 <= Zpos m).
Proof.
  unfold bounded, canonical_mantissa. rewrite andb_true_iff, Z.eqb_eq, Z.leb_le, fexp_eq.
  change (emax - prec) with 971.
  pose proof (digits2_pos_bounds m) as [B1 B2].
  set (d := Zpos (digits2_pos m)) in *.
  assert (Hd : 0 < d) by (unfold d; lia).
  split.
  - intros [Hc He].
    assert (Hd53 : d <= 53) by lia.
    assert (H53 : Zpos m < 2 ^ 53).
    { eapply Z.lt_le_trans; [exact B2|]. apply Z.pow_le_mono_r; lia. }
    repeat apply conj; try lia.
    destruct (Z.eq_dec e (-1074)); [left; assumption|right].
    assert (d = 53) by lia. subst d. rewrite H in B1. exact B1.
  - intros (He & Hm & Hn). split; [|lia].
    assert (Hd53 : d <= 53).
    { assert (d - 1 < 53) by (apply pow2_lt_inv; lia). lia. }
    destruct Hn as [->|Hn]; [lia|].
    assert (52 < d) by (apply pow2_lt_inv; lia). lia.
Qed.

Lemma Qcompare_Lt a b : (a < b)%Q -> (a ?= b)%Q = Lt.
Proof. intros H. apply Qlt_alt. exact H. Qed.

Lemma Qcompare_Gt a b : (b < a)%Q -> (a ?= b)%Q = Gt.
Proof. intros H. apply Qgt_alt. exact H. Qed.

Lemma Qcompare_Eq a b : (a == b)%Q -> (a ?= b)%Q = Eq.
Proof. intros H. apply Qeq_alt. exact H. Qed.

Lemma F2Q_pos m e : (0 < inject_Z (Zpos m) * pow2 e)%Q.
Proof.
  apply Qmult_lt_0_compat; [apply inject_Z_pos; lia|apply pow2_pos].
Qed.

Lemma canonical_lt m e m' e' :
  bounded prec emax m e = true -> bounded prec emax m' e' = true ->
  e < e' ->
  (inject_Z (Zpos m) * pow2 e < inject_Z (Zpos m') * pow2 e')%Q.
Proof.
  intros Hb Hb' Hlt.
  apply bounded_iff in Hb as (He & Hm & Hn).
  apply bounded_iff in Hb' as (He' & Hm' & Hn').
  pose proof (pow2_double_le e e' Hlt) as Hd.
  pose proof (pow2_pos e) as Hp. pose proof (pow2_pos e') as Hp'.
  assert (H1 : (inject_Z (Zpos m) * pow2 e < 9007199254740992 * pow2 e)%Q).
  { apply Qmult_lt_compat_r; [exact Hp|].
    change 9007199254740992%Q with (inject_Z 9007199254740992).
    rewrite <- Zlt_Qlt. lia. }
  assert (H2 : (4503599627370496 * pow2 e' <= inject_Z (Zpos m') * pow2 e')%Q).
  { apply Qmult_le_compat_r; [|lra].
    change 4503599627370496%Q with (inject_Z 4503599627370496).
    rewrite <- Zle_Qle. lia. }
  lra.
Qed.

(** On finite non-negative numbers [SFcompare] compares the exact values. *)
Lemma nnf_compare x y :
  nnf x = true -> nnf y = true ->
  SFcompare x y = Some (SF2Q x ?= SF2Q y)%Q.
Proof.
  destruct x as [sx|[|]| |[|] mx ex]; try discriminate;
  destruct y as [sy|[|]| |[|] my ey]; try discriminate; cbn [nnf SF2Q SFcompare];
  intros Hx Hy.
  - reflexivity.
  - rewrite Qcompare_Lt by apply F2Q_pos. reflexivity.
  - rewrite Qcompare_Gt by apply F2Q_pos. reflexivity.
  - destruct (Z.compare_spec ex ey) as [->|Hlt|Hgt].
    + change (Pos.compare_cont Eq mx my) with (Pos.compare mx my).
      pose proof (pow2_pos ey) as Hp.
      destruct (Pos.compare_spec mx my) as [->|Hm|Hm].
      * rewrite Qcompare_Eq; reflexivity.
      * rewrite Qcompare_Lt; [reflexivity|].
        apply Qmult_lt_compat_r; [exact Hp|]. rewrite <- Zlt_Qlt. lia.
      * rewrite Qcompare_Gt; [reflexivity|].
        apply Qmult_lt_compat_r; [exact Hp|]. rewrite <- Zlt_Qlt. lia.
    + rewrite Qcompare_Lt; [reflexivity|]. apply canonical_lt; assumption.
    + rewrite Qcompare_Gt; [reflexivity|]. apply canonical_lt; assumption.
Qed.

Lemma nnf_leb x y :
  nnf x = true -> nnf y = true ->
  (SFleb x y = true <-> (SF2Q x <= SF2Q y)%Q).
Proof.
  intros Hx Hy. unfold SFleb. rewrite (nnf_compare x y Hx Hy), Qle_alt.
  destruct (SF2Q x ?= SF2Q y)%Q; split; congruence.
Qed.

Lemma nnf_ltb x y :
  nnf x = true -> nnf y = true ->
  (SFltb x y = true <-> (SF2Q x < SF2Q y)%Q).
Proof.
  intros Hx Hy. unfold SFltb. rewrite (nnf_compare x y Hx Hy), Qlt_alt.
  destruct (SF2Q x ?= SF2Q y)%Q; split; congruence.
Qed.

Lemma nnf_nn x : nnf x = true -> nn x = true.
Proof. destruct x as [|[|]| |]; cbn; congruence. Qed.

Lemma nn_cases x :
  nn x = true -> nnf x = true \/ x = S754_infinity false.
Proof. destruct x as [|[|]| |]; cbn; auto. Qed.

Lemma nn_leb_inf x : nn x = true -> SFleb x (S754_infinity false) = true.
Proof. destruct x as [|[|]| |[|]]; cbn; congruence. Qed.

Lemma nnf_ltb_inf x : nnf x = true -> SFltb x (S754_infinity false) = true.
Proof. destruct x as [|[|]| |[|]]; cbn; congruence. Qed.

Lemma nnf_SF2Q_nonneg x : nnf x = true -> (0 <= SF2Q x)%Q.
Proof.
  destruct x as [|[|]| |[|] m e]; cbn; try discriminate; intros _; try lra.
  apply Qlt_le_weak, F2Q_pos.
Qed.

Lemma pow2_1024 : (pow2 1024 == 9007199254740992 * pow2 971)%Q.
Proof.
  replace 1024 with (53 + 971) by reflexivity. rewrite pow2_add.
  apply Qmult_comp; [|reflexivity]. reflexivity.
Qed.

Lemma nnf_lt_max x : nnf x = true -> (SF2Q x < pow2 1024)%Q.
Proof.
  destruct x as [|[|]| |[|] m e]; cbn [nnf SF2Q]; try discriminate; intros H;
    try apply pow2_pos.
  apply bounded_iff in H as (He & Hm & _).
  rewrite pow2_1024.
  pose proof (pow2_pos e) as Hp.
  pose proof (pow2_le e 971 ltac:(lia)) as Hle.
  assert (H1 : (inject_Z (Zpos m) * pow2 e < 9007199254740992 * pow2 e)%Q).
  { apply Qmult_lt_compat_r; [exact Hp|].
    change 9007199254740992%Q with (inject_Z 9007199254740992).
    rewrite <- Zlt_Qlt. lia. }
  assert (H2 : (9007199254740992 * pow2 e <= 9007199254740992 * pow2 971)%Q).
  { apply Qmult_le_l; [reflexivity|exact Hle]. }
  lra.
Qed.

(** *** Rounded results *)

Lemma inject_Z_le_mult a b p :
  a <= b -> (0 < p)%Q -> (inject_Z a * p <= inject_Z b * p)%Q.
Proof.
  intros H Hp. apply Qmult_le_compat_r; [|lra]. rewrite <- Zle_Qle. exact H.
Qed.

Lemma inject_Z_lt_mult a b p :
  a < b -> (0 < p)%Q -> (inject_Z a * p < inject_Z b * p)%Q.
Proof.
  intros H Hp. apply Qmult_lt_compat_r; [exact Hp|]. rewrite <- Zlt_Qlt. exact H.
Qed.

Lemma canon_Res k E :
  -1074 <= E -> 0 <= k <= 2 ^ 53 -> E = -1074 \/ 2 ^ 52 <= k ->
  Res k E (canon false k E).
Proof.
  intros HE Hk Hn. unfold canon.
  pose proof (pow2_pos E) as HpE.
  destruct k as [|p|p]; [| |lia].
  - left. split; [reflexivity|]. cbn. ring.
  - destruct (Z.eqb_spec (Zpos p) (2 ^ 53)) as [Hp|Hp].
    + rewrite Hp. destruct (Z.leb_spec (E + 1) 971) as [Hle|Hgt].
      * left. split.
        { cbn [nnf]. apply bounded_iff. lia. }
        cbn [SF2Q]. rewrite pow2_succ.
        change (inject_Z (Zpos (2 ^ 52))) with 4503599627370496%Q.
        change (inject_Z (2 ^ 53)) with 9007199254740992%Q. ring.
      * right. split; [reflexivity|]. rewrite pow2_1024.
        change (inject_Z (2 ^ 53)) with 9007199254740992%Q.
        pose proof (pow2_le 971 E ltac:(lia)). lra.
    + destruct (Z.leb_spec E 971) as [Hle|Hgt].
      * left. split; [|reflexivity]. cbn [nnf]. apply bounded_iff. lia.
      * right. split; [reflexivity|]. rewrite pow2_1024.
        pose proof (pow2_double_le 971 E ltac:(lia)) as Hd.
        pose proof (inject_Z_le_mult (2 ^ 52) (Zpos p) (pow2 E) ltac:(lia) HpE) as Hm.
        change (inject_Z (2 ^ 52)) with 4503599627370496%Q in Hm. lra.
Qed.

Lemma Rounds_nn w f : Rounds w f -> nn f = true.
Proof.
  intros [|v k E f0 _ [[H _]|[-> _]]]; [reflexivity|apply nnf_nn; exact H|reflexivity].
Qed.

(** Correctly rounded results are ordered as the exact values are. *)
Lemma Rounds_mono w f w' f' :
  Rounds w f -> Rounds w' f' -> ole w w' -> SFleb f f' = true.
Proof.
  intros Hr Hr' Hle.
  destruct Hr' as [|v' k' E' f' Hrnd' Hres'].
  { apply nn_leb_inf. eapply Rounds_nn; exact Hr. }
  destruct Hr as [|v k E f Hrnd Hres]; [contradiction|].
  cbn in Hle. pose proof (RND_mono _ _ _ _ _ _ Hrnd Hrnd' Hle) as Hm.
  destruct Hres as [[Hn Hv]|[-> Hv]], Hres' as [[Hn' Hv']|[-> Hv']].
  - apply nnf_leb; [assumption..|]. rewrite Hv, Hv'. exact Hm.
  - apply nn_leb_inf, nnf_nn. exact Hn.
  - exfalso. pose proof (nnf_lt_max f' Hn') as Hlt. rewrite Hv' in Hlt. lra.
  - reflexivity.
Qed.

(** A value that has a 53-bit mantissa over an exponent of the format is
    its own rounding. *)
Lemma RND_exact v k E m e' :
  RND v k E -> (v == inject_Z m * pow2 e')%Q ->
  0 <= m < 2 ^ 53 -> -1074 <= e' ->
  (inject_Z k * pow2 E == v)%Q.
Proof.
  intros [HE Hk Hkn Hv0 Hhi Hlo Hup Hdn Htie] Hv Hm He'.
  pose proof (pow2_pos E) as HpE. pose proof (pow2_pos e') as Hpe'.
  assert (HEe : E <= e').
  { destruct Hlo as [->|Hlo]; [lia|].
    destruct (Z_le_gt_dec E e') as [|Hgt]; [assumption|exfalso].
    pose proof (pow2_double_le e' E ltac:(lia)) as Hd.
    pose proof (inject_Z_lt_mult m (2 ^ 53) (pow2 e') ltac:(lia) Hpe') as Hlt.
    change (inject_Z (2 ^ 53)) with 9007199254740992%Q in Hlt. lra. }
  set (j := m * 2 ^ (e' - E)).
  assert (Hj : (v == inject_Z j * pow2 E)%Q).
  { rewrite Hv. unfold j. rewrite inject_Z_mult, <- pow2_Z by lia.
    rewrite <- Qmult_assoc, <- pow2_add. replace (e' - E + E) with e' by lia.
    reflexivity. }
  destruct (Z.lt_trichotomy k j) as [Hlt|[->|Hgt]].
  - exfalso. assert (H1 : k + 1 <= j) by lia.
    pose proof (inject_Z_le_mult _ _ _ H1 HpE) as H2.
    rewrite inject_Z_plus in H2. change (inject_Z 1) with 1%Q in H2. lra.
  - symmetry. exact Hj.
  - exfalso. assert (H1 : j + 1 <= k) by lia.
    pose proof (inject_Z_le_mult _ _ _ H1 HpE) as H2.
    rewrite inject_Z_plus in H2. change (inject_Z 1) with 1%Q in H2. lra.
Qed.

Lemma Rounds_exact v f m e' :
  Rounds (Some v) f -> (v == inject_Z m * pow2 e')%Q ->
  0 <= m < 2 ^ 53 -> -1074 <= e' -> (v < pow2 1024)%Q ->
  nnf f = true /\ (SF2Q f == v)%Q.
Proof.
  intros Hr Hv Hm He' Hmax. inversion Hr as [|v0 k E f0 Hrnd Hres]; subst.
  pose proof (RND_exact _ _ _ _ _ Hrnd Hv Hm He') as Hk.
  destruct Hres as [[Hn Hf]|[-> Hf]].
  - split; [exact Hn|]. rewrite Hf. exact Hk.
  - exfalso. lra.
Qed.

Lemma RND_zero v : (v == 0)%Q -> RND v 0 (-1074).
Proof.
  intros Hv. pose proof (pow2_pos (-1074)) as Hp.
  constructor; change (inject_Z 0) with 0%Q;
    try lia; try (left; reflexivity); try (rewrite Hv; lra).
Qed.

Lemma Rounds_zero v s : (v == 0)%Q -> Rounds (Some v) (S754_zero s).
Proof.
  intros Hv. apply (Rounds_fin v 0 (-1074)); [apply RND_zero; exact Hv|].
  left. split; [reflexivity|]. cbn. ring.
Qed.

Lemma RND_canonical m e :
  bounded prec emax m e = true ->
  RND (inject_Z (Zpos m) * pow2 e) (Zpos m) e.
Proof.
  intros Hb. apply bounded_iff in Hb as (He & Hm & Hn).
  pose proof (pow2_pos e) as Hp.
  pose proof (F2Q_pos m e) as Hpos.
  constructor; try lia; try lra.
  - pose proof (inject_Z_lt_mult _ _ _ Hm Hp) as H.
    change (inject_Z (2 ^ 53)) with 9007199254740992%Q in H. exact H.
  - destruct Hn as [|Hn]; [left; assumption|right].
    pose proof (inject_Z_le_mult _ _ _ Hn Hp) as H.
    change (inject_Z (2 ^ 52)) with 4503599627370496%Q in H. exact H.
Qed.

(** A number is the rounding of its own value. *)
Lemma Rounds_repr x : nn x = true -> Rounds (ext x) x.
Proof.
  destruct x as [s|[|]| |[|] m e]; cbn [nn nnf ext]; try discriminate; intros H.
  - apply Rounds_zero. reflexivity.
  - constructor.
  - apply (Rounds_fin _ (Zpos m) e); [apply RND_canonical; exact H|].
    left. split; [exact H|reflexivity].
Qed.

Lemma nn_leb x y :
  nn x = true -> nn y = true -> (SFleb x y = true <-> ole (ext x) (ext y)).
Proof.
  intros Hx Hy.
  destruct (nn_cases x Hx) as [Fx| ->], (nn_cases y Hy) as [Fy| ->].
  - rewrite (nnf_leb x y Fx Fy).
    destruct x as [|[|]| |[|]], y as [|[|]| |[|]]; try discriminate; reflexivity.
  - rewrite nn_leb_inf by assumption.
    destruct x as [|[|]| |[|]]; try discriminate; cbn; tauto.
  - destruct y as [|[|]| |[|]]; try discriminate; cbn; split; (discriminate || tauto).
  - cbn. tauto.
Qed.

(** *** The operations on non-negative numbers *)

Lemma RND_compat v v' k E : (v == v')%Q -> RND v k E -> RND v' k E.
Proof.
  intros Hv [HE Hk Hkn Hv0 Hhi Hlo Hup Hdn Htie].
  constructor; try assumption; rewrite <- Hv; assumption.
Qed.

Lemma Rounds_compat v v' f : (v == v')%Q -> Rounds (Some v) f -> Rounds (Some v') f.
Proof.
  intros Hv Hr. inversion Hr as [|v0 k E f0 Hrnd Hres]; subst.
  apply (Rounds_fin v' k E); [|exact Hres].
  apply (RND_compat v); assumption.
Qed.

Lemma binary_round_aux_Rounds X D e v :
  0 <= X -> 0 < D ->
  (v * inject_Z D == inject_Z X * pow2 e)%Q ->
  0 <= fexp prec emax (Zdigits2 (X / D) + e) - e ->
  Rounds (Some v)
    (binary_round_aux prec emax false (X / D) e (loc_of (X mod D) D)).
Proof.
  intros HX HD Hv Hn.
  destruct (binary_round_aux_RND false X D e v HX HD Hv Hn) as (k & Hrnd & ->).
  apply (Rounds_fin v k _ _ Hrnd).
  destruct Hrnd. apply canon_Res; assumption.
Qed.

Lemma binary_round_aux_exact_Rounds X e :
  0 <= X ->
  0 <= fexp prec emax (Zdigits2 X + e) - e ->
  Rounds (Some (inject_Z X * pow2 e)%Q)
    (binary_round_aux prec emax false X e loc_Exact).
Proof.
  intros HX Hn.
  pose proof (binary_round_aux_Rounds X 1 e (inject_Z X * pow2 e)%Q HX ltac:(lia)) as H.
  rewrite Z.div_1_r, Z.mod_1_r in H. apply H; [|exact Hn].
  change (inject_Z 1) with 1%Q. ring.
Qed.

Lemma Zdigits2_ge q a : 0 <= a -> 2 ^ a <= q -> a + 1 <= Zdigits2 q.
Proof.
  intros Ha Hq.
  assert (0 < q) by (pose proof (Z.pow_pos_nonneg 2 a); lia).
  pose proof (Zdigits2_bounds q H) as [_ B2].
  pose proof (Zdigits2_nonneg q).
  assert (a < Zdigits2 q) by (apply pow2_lt_inv; lia). lia.
Qed.

Lemma Zdigits2_shift p s :
  0 <= s -> Zdigits2 (Zpos p * 2 ^ s) = Zdigits2 (Zpos p) + s.
Proof.
  intros Hs. pose proof (digits2_pos_bounds p) as [B1 B2].
  assert (0 < 2 ^ s) by (apply Z.pow_pos_nonneg; lia).
  apply Zdigits2_unique; [lia|]. cbn [Zdigits2].
  replace (Zpos (digits2_pos p) + s - 1) with (Zpos (digits2_pos p) - 1 + s) by lia.
  rewrite !Z.pow_add_r by lia. nia.
Qed.

(** Multiplication by a positive normal constant is correctly rounded. *)
Lemma SFmul_Rounds x c :
  nn x = true -> is_normal_pos c = true ->
  Rounds (omul (ext x) (SF2Q c)) (SFmul prec emax x c).
Proof.
  intros Hx Hc.
  destruct c as [|[|]| |[|] mc ec]; try discriminate. cbn [is_normal_pos] in Hc.
  apply andb_true_iff in Hc as [Hb Hc52]. apply Z.leb_le in Hc52.
  destruct x as [sx|[|]| |[|] mx ex]; try discriminate; cbn [nn nnf] in Hx.
  - cbn. apply Rounds_zero. ring.
  - cbn. constructor.
  - cbn [SFmul ext omul SF2Q xorb].
    eapply Rounds_compat;
      [|apply (binary_round_aux_exact_Rounds (Zpos (mx * mc)) (ex + ec)); [lia|]].
    + rewrite Pos2Z.inj_mul, inject_Z_mult, pow2_add. ring.
    + rewrite fexp_eq, Pos2Z.inj_mul.
      pose proof (digits2_pos_bounds mx) as [B1 _].
      set (dx := Zpos (digits2_pos mx)) in *. assert (0 < dx) by (unfold dx; lia).
      assert (Hd : dx - 1 + 52 + 1 <= Zdigits2 (Zpos mx * Zpos mc)).
      { apply Zdigits2_ge; [lia|]. rewrite Z.pow_add_r by lia. nia. }
      lia.
Qed.

Lemma new_location_loc_of D r :
  0 < D -> 0 <= r < D -> new_location D r = loc_of r D.
Proof.
  intros HD Hr. unfold new_location, new_location_even, new_location_odd, loc_of.
  destruct (Z.even D) eqn:Ev; destruct (Z.eqb_spec r 0) as [|Hne]; try reflexivity.
  f_equal.
  destruct (Z.compare_spec (2 * r + 1) D) as [Hc|Hc|Hc];
    symmetry; [apply Z.compare_lt_iff|apply Z.compare_lt_iff|apply Z.compare_gt_iff];
    try lia.
  assert (Z.odd D = true) by (rewrite <- Z.negb_even, Ev; reflexivity).
  apply Z.odd_spec in H as [z Hz]. lia.
Qed.

Lemma fexp_mono a b : a <= b -> fexp prec emax a <= fexp prec emax b.
Proof. intros H. rewrite !fexp_eq. lia. Qed.

(** Division by a positive normal constant is correctly rounded. *)
Lemma SFdiv_Rounds x c :
  nn x = true -> is_normal_pos c = true ->
  Rounds (odiv (ext x) (SF2Q c)) (SFdiv prec emax x c).
Proof.
  intros Hx Hc.
  destruct c as [|[|]| |[|] mc ec]; try discriminate. cbn [is_normal_pos] in Hc.
  apply andb_true_iff in Hc as [Hb Hc52]. apply Z.leb_le in Hc52.
  destruct x as [sx|[|]| |[|] mx ex]; try discriminate; cbn [nn nnf] in Hx.
  - cbn. apply Rounds_zero. unfold Qdiv. ring.
  - cbn. constructor.
  - cbn [SFdiv ext odiv SF2Q xorb]. unfold SFdiv_core_binary.
    set (d1 := Zdigits2 (Zpos mx)). set (d2 := Zdigits2 (Zpos mc)).
    set (e' := Z.min (fexp prec emax (d1 + ex - (d2 + ec))) (ex - ec)).
    set (s := ex - ec - e').
    assert (Hs : 0 <= s) by (unfold s, e'; lia).
    set (X := Zpos mx * 2 ^ s).
    assert (Hp2 : 0 < 2 ^ s) by (apply Z.pow_pos_nonneg; lia).
    assert (HX : 0 < X) by (unfold X; lia).
    assert (Hm' : match s with
                  | 0 => Zpos mx
                  | Zpos _ => Z.shiftl (Zpos mx) s
                  | Zneg _ => 0
                  end = X).
    { unfold X. destruct s as [|p|p] eqn:Es; [rewrite Z.pow_0_r; lia| |lia].
      apply Z.shiftl_mul_pow2. lia. }
    rewrite Hm'.
    pose proof (Z.mod_pos_bound X (Zpos mc) ltac:(lia)) as Hr.
    assert (Hqr : Z.div_eucl X (Zpos mc) = (X / Zpos mc, X mod Zpos mc)).
    { unfold Z.div, Z.modulo. destruct (Z.div_eucl X (Zpos mc)); reflexivity. }
    rewrite Hqr, new_location_loc_of by lia.
    apply binary_round_aux_Rounds; [lia|lia| |].
    + unfold X. rewrite inject_Z_mult, <- pow2_Z by assumption.
      pose proof (F2Q_pos mc ec) as Hcpos.
      pose proof (pow2_pos ec) as Hpc.
      assert (Hpe : (pow2 ex == pow2 s * pow2 e' * pow2 ec)%Q).
      { rewrite <- !pow2_add. replace (s + e' + ec) with ex by (unfold s; lia).
        reflexivity. }
      rewrite Hpe. field. split; intros Hz; [rewrite Hz in Hpc; discriminate|].
      pose proof (inject_Z_pos (Zpos mc) ltac:(lia)) as Hi. rewrite Hz in Hi. discriminate.
    + (* the quotient has enough digits *)
      assert (Hdq : d1 + s - d2 <= Zdigits2 (X / Zpos mc)).
      { pose proof (Zdigits2_nonneg (X / Zpos mc)).
        destruct (Z_le_gt_dec (d1 + s - d2) 0) as [|Hgt]; [lia|].
        pose proof (digits2_pos_bounds mx) as [B1 _].
        pose proof (digits2_pos_bounds mc) as [_ B2].
        fold (Zdigits2 (Zpos mx)) in B1. fold (Zdigits2 (Zpos mc)) in B2.
        fold d1 in B1. fold d2 in B2.
        assert (0 < d2) by (unfold d2; cbn; lia).
        assert (0 < d1) by (unfold d1; cbn; lia).
        assert (Hge : d1 + s - d2 - 1 + 1 <= Zdigits2 (X / Zpos mc)).
        { apply Zdigits2_ge; [lia|].
          apply Z.div_le_lower_bound; [lia|].
          assert (Hpw : 2 ^ (d1 - 1) * 2 ^ s = 2 ^ (d1 + s - d2 - 1) * 2 ^ d2).
          { rewrite <- !Z.pow_add_r by lia. f_equal. lia. }
          assert (0 < 2 ^ (d1 + s - d2 - 1)) by (apply Z.pow_pos_nonneg; lia).
          unfold X. nia. }
        lia. }
      pose proof (fexp_mono (d1 + ex - (d2 + ec)) (Zdigits2 (X / Zpos mc) + e')
                    ltac:(unfold s in Hdq; lia)).
      unfold e' at 2. lia.
Qed.

Lemma iter_xO m d : Zpos (Pos.iter xO m d) = Zpos m * 2 ^ Zpos d.
Proof.
  change (Pos.iter xO m d) with (shift_pos d m).
  rewrite shift_pos_correct, Z.pow_pos_fold. ring.
Qed.

Lemma shl_align_spec m e e' :
  snd (shl_align m e e') = Z.min e e' /\
  Zpos (fst (shl_align m e e')) = Zpos m * 2 ^ (e - Z.min e e').
Proof.
  unfold shl_align. destruct (e' - e) as [|p|p] eqn:Ed; cbn [fst snd].
  - replace (Z.min e e') with e by lia. rewrite Z.sub_diag. split; lia.
  - replace (Z.min e e') with e by lia. rewrite Z.sub_diag. split; lia.
  - replace (Z.min e e') with e' by lia. split; [reflexivity|].
    rewrite iter_xO. f_equal. f_equal. lia.
Qed.

(** [binary_round] aligns the mantissa first, so that the shift of
    [binary_round_aux] is not negative. *)
Lemma binary_round_Rounds p e :
  Rounds (Some (inject_Z (Zpos p) * pow2 e)%Q) (binary_round prec emax false p e).
Proof.
  unfold binary_round.
  set (e0 := fexp prec emax (Zpos (digits2_pos p) + e)).
  pose proof (shl_align_spec p e e0) as [H2 H1].
  destruct (shl_align p e e0) as [mz ez]. cbn [fst snd] in H1, H2.
  rewrite <- H2 in H1.
  assert (Hs : 0 <= e - ez) by lia.
  eapply Rounds_compat; [|apply binary_round_aux_exact_Rounds; [lia|]].
  - pose proof (pow2_Z (e - ez) Hs) as Hpz.
    rewrite H1, inject_Z_mult, <- Hpz, <- Qmult_assoc, <- pow2_add.
    replace (e - ez + ez) with e by lia. reflexivity.
  - rewrite H1, Zdigits2_shift by assumption. cbn [Zdigits2].
    replace (Zpos (digits2_pos p) + (e - ez) + ez) with (Zpos (digits2_pos p) + e) by lia.
    fold e0. lia.
Qed.

Lemma binary_normalize_Rounds n e s :
  0 <= n ->
  Rounds (Some (inject_Z n * pow2 e)%Q) (binary_normalize prec emax n e s).
Proof.
  intros Hn. destruct n as [|p|p]; [| |lia]; cbn [binary_normalize].
  - apply Rounds_zero. change (inject_Z 0) with 0%Q. ring.
  - apply binary_round_Rounds.
Qed.

(** Addition of non-negative numbers is correctly rounded. *)
Lemma SFadd_Rounds x y :
  nn x = true -> nn y = true ->
  Rounds (oadd (ext x) (ext y)) (SFadd prec emax x y).
Proof.
  intros Hx Hy.
  destruct x as [sx|[|]| |[|] mx ex]; try discriminate;
  destruct y as [sy|[|]| |[|] my ey]; try discriminate;
  cbn [nn nnf] in Hx, Hy; cbn [SFadd ext oadd]; try constructor.
  - destruct sx, sy; apply Rounds_zero; cbn; ring.
  - eapply Rounds_compat; [|apply (Rounds_repr (S754_finite false my ey)); exact Hy].
    cbn. ring.
  - eapply Rounds_compat; [|apply (Rounds_repr (S754_finite false mx ex)); exact Hx].
    cbn. ring.
  - cbn [cond_Zopp SF2Q].
    pose proof (shl_align_spec mx ex (Z.min ex ey)) as [_ H1].
    pose proof (shl_align_spec my ey (Z.min ex ey)) as [_ H2].
    replace (Z.min ex (Z.min ex ey)) with (Z.min ex ey) in H1 by lia.
    replace (Z.min ey (Z.min ex ey)) with (Z.min ex ey) in H2 by lia.
    set (ez := Z.min ex ey) in *.
    eapply Rounds_compat; [|apply binary_normalize_Rounds; lia].
    pose proof (pow2_Z (ex - ez) ltac:(lia)) as Hp1.
    pose proof (pow2_Z (ey - ez) ltac:(lia)) as Hp2.
    rewrite H1, H2, inject_Z_plus, !inject_Z_mult, <- Hp1, <- Hp2.
    assert (E1 : (pow2 ex == pow2 (ex - ez) * pow2 ez)%Q).
    { rewrite <- pow2_add. replace (ex - ez + ez) with ex by lia. reflexivity. }
    assert (E2 : (pow2 ey == pow2 (ey - ez) * pow2 ez)%Q).
    { rewrite <- pow2_add. replace (ey - ez + ez) with ey by lia. reflexivity. }
    rewrite E1, E2. ring.
Qed.

(** *** Floor *)

Lemma Qfloor_unique z q :
  (inject_Z z <= q)%Q -> (q < inject_Z z + 1)%Q -> Qfloor q = z.
Proof.
  intros H1 H2.
  pose proof (Qfloor_le q) as F1. pose proof (Qlt_floor q) as F2.
  rewrite inject_Z_plus in F2. change (inject_Z 1) with 1%Q in F2.
  assert (A : (inject_Z z < inject_Z (Qfloor q) + 1)%Q) by lra.
  assert (B : (inject_Z (Qfloor q) < inject_Z z + 1)%Q) by lra.
  change 1%Q with (inject_Z 1) in A, B. rewrite <- inject_Z_plus in A, B.
  rewrite <- Zlt_Qlt in A, B. lia.
Qed.

Lemma Qfloor_F2Q m e :
  0 <= m -> e < 0 -> Qfloor (inject_Z m * pow2 e) = m / 2 ^ (- e).
Proof.
  intros Hm He.
  assert (Hp : 0 < 2 ^ (- e)) by (apply Z.pow_pos_nonneg; lia).
  pose proof (Z.div_mod m (2 ^ (- e)) ltac:(lia)) as E.
  pose proof (Z.mod_pos_bound m (2 ^ (- e)) Hp) as B.
  set (q := m / 2 ^ (- e)) in *.
  pose proof (pow2_pos e) as Hpe.
  assert (Hinv : (pow2 (- e) * pow2 e == 1)%Q).
  { rewrite <- pow2_add. replace (- e + e) with 0 by lia. reflexivity. }
  rewrite pow2_Z in Hinv by lia.
  assert (L : q * 2 ^ (- e) <= m) by lia.
  assert (U : m < (q + 1) * 2 ^ (- e)) by lia.
  pose proof (inject_Z_le_mult _ _ _ L Hpe) as L'.
  pose proof (inject_Z_lt_mult _ _ _ U Hpe) as U'.
  rewrite inject_Z_mult in L', U'. rewrite inject_Z_plus in U'.
  change (inject_Z 1) with 1%Q in U'.
  apply Qfloor_unique.
  - setoid_replace (inject_Z q) with (inject_Z q * (inject_Z (2 ^ (- e)) * pow2 e))%Q
      using relation Qeq by (rewrite Hinv; ring).
    lra.
  - setoid_replace (inject_Z q + 1)%Q
      with ((inject_Z q + 1) * (inject_Z (2 ^ (- e)) * pow2 e))%Q
      using relation Qeq by (rewrite Hinv; ring).
    lra.
Qed.

Lemma pow2_53_lt_1024 : (9007199254740992 * pow2 0 < pow2 1024)%Q.
Proof.
  rewrite pow2_1024. pose proof (pow2_lt 0 971 ltac:(lia)).
  pose proof (pow2_pos 0). lra.
Qed.

Lemma Rounds_int f n :
  0 <= n < 2 ^ 53 ->
  Rounds (Some (inject_Z n * pow2 0)%Q) f ->
  nnf f = true /\ (SF2Q f == inject_Z n)%Q.
Proof.
  intros Hn Hr.
  destruct (Rounds_exact _ f n 0 Hr) as [Hf Hv]; [reflexivity|lia|lia| |].
  - pose proof (inject_Z_lt_mult n (2 ^ 53) (pow2 0) ltac:(lia) (pow2_pos 0)) as H.
    change (inject_Z (2 ^ 53)) with 9007199254740992%Q in H.
    pose proof pow2_53_lt_1024. lra.
  - split; [exact Hf|]. rewrite Hv. change (pow2 0) with 1%Q. ring.
Qed.

(** [SFfloor] is the floor of the exact value. *)
Lemma SFfloor_nnf x :
  nnf x = true ->
  nnf (SFfloor x) = true /\ (SF2Q (SFfloor x) == inject_Z (Qfloor (SF2Q x)))%Q.
Proof.
  destruct x as [s|[|]| |[|] m e]; try discriminate; cbn [nnf SFfloor]; intros Hx.
  - split; reflexivity.
  - destruct (Z.leb_spec 0 e) as [He|He].
    + split; [exact Hx|]. cbn [SF2Q].
      assert (Hq : (inject_Z (Zpos m) * pow2 e == inject_Z (Zpos m * 2 ^ e))%Q).
      { rewrite inject_Z_mult, pow2_Z by assumption. reflexivity. }
      rewrite Hq at 2. rewrite Qfloor_Z. exact Hq.
    + cbn [cond_Zopp SF2Q]. rewrite Z.shiftr_div_pow2 by lia.
      rewrite Qfloor_F2Q by lia.
      apply bounded_iff in Hx as (_ & Hm & _).
      assert (Hp : 0 < 2 ^ (- e)) by (apply Z.pow_pos_nonneg; lia).
      assert (Hn : 0 <= Zpos m / 2 ^ (- e) < 2 ^ 53).
      { split; [apply Z.div_pos; lia|].
        apply Z.div_lt_upper_bound; [lia|]. nia. }
      apply Rounds_int; [exact Hn|].
      apply binary_normalize_Rounds. lia.
Qed.

Lemma SFfloor_nn x : nn x = true -> nn (SFfloor x) = true.
Proof.
  intros Hx. destruct (nn_cases x Hx) as [Hf| ->]; [|reflexivity].
  apply nnf_nn, SFfloor_nnf, Hf.
Qed.

Lemma SFfloor_mono x y :
  nn x = true -> nn y = true -> SFleb x y = true ->
  SFleb (SFfloor x) (SFfloor y) = true.
Proof.
  intros Hx Hy Hle.
  destruct (nn_cases y Hy) as [Fy| ->].
  2:{ apply nn_leb_inf, SFfloor_nn, Hx. }
  destruct (nn_cases x Hx) as [Fx| ->].
  2:{ destruct y as [|[|]| |[|]]; discriminate. }
  destruct (SFfloor_nnf x Fx) as [Gx Vx], (SFfloor_nnf y Fy) as [Gy Vy].
  apply nnf_leb; [assumption..|]. rewrite Vx, Vy, <- Zle_Qle.
  apply Qfloor_resp_le. apply nnf_leb; assumption.
Qed.

(** *** Numbers *)

Lemma nn_valid f : nn f = true -> valid_binary f = true.
Proof. destruct f as [|[|]| |[|]]; cbn; congruence. Qed.

(** The numbers that [0 <= a] holds of. *)
Lemma leb_zero_NN a : (0 <=? a)%float = true -> NN a.
Proof.
  rewrite leb_spec. unfold NN. pose proof (Prim2SF_valid a) as Hv.
  change (Prim2SF 0) with (S754_zero false).
  destruct (Prim2SF a) as [|[|]| |[|]]; cbn in *; congruence.
Qed.

Lemma leb_NN a b : NN a -> (a <=? b)%float = true -> NN b.
Proof.
  rewrite leb_spec. unfold NN. pose proof (Prim2SF_valid b) as Hv.
  destruct (Prim2SF a) as [|[|]| |[|]], (Prim2SF b) as [|[|]| |[|]];
    cbn in *; congruence.
Qed.

Lemma leb_ole a b :
  NN a -> NN b ->
  ((a <=? b)%float = true <-> ole (ext (Prim2SF a)) (ext (Prim2SF b))).
Proof. intros Ha Hb. rewrite leb_spec. apply nn_leb; assumption. Qed.

Lemma Rounds_leb (x y : float) w w' :
  Rounds w (Prim2SF x) -> Rounds w' (Prim2SF y) -> ole w w' ->
  (x <=? y)%float = true.
Proof. intros Hx Hy Hle. rewrite leb_spec. eapply Rounds_mono; eassumption. Qed.

Lemma normal_pos_SF2Q c : is_normal_pos c = true -> (0 < SF2Q c)%Q.
Proof.
  destruct c as [|[|]| |[|] m e]; try discriminate. intros _. apply F2Q_pos.
Qed.

Lemma ole_omul a b q : (0 < q)%Q -> ole a b -> ole (omul a q) (omul b q).
Proof.
  intros Hq. destruct a as [x|], b as [y|]; cbn; try tauto.
  intros H. apply Qmult_le_compat_r; [exact H|lra].
Qed.

Lemma ole_odiv a b q : (0 < q)%Q -> ole a b -> ole (odiv a q) (odiv b q).
Proof.
  intros Hq. destruct a as [x|], b as [y|]; cbn; try tauto.
  intros H. unfold Qdiv. apply Qmult_le_compat_r; [exact H|].
  apply Qlt_le_weak, Qinv_lt_0_compat, Hq.
Qed.

Lemma ole_oadd a b a' b' : ole a a' -> ole b b' -> ole (oadd a b) (oadd a' b').
Proof.
  destruct a as [x|], b as [y|], a' as [x'|], b' as [y'|]; cbn; try tauto.
  intros; lra.
Qed.

Lemma mul_Rounds x c :
  NN x -> is_normal_pos (Prim2SF c) = true ->
  Rounds (omul (ext (Prim2SF x)) (SF2Q (Prim2SF c))) (Prim2SF (x * c)).
Proof. intros Hx Hc. rewrite mul_spec. apply SFmul_Rounds; assumption. Qed.

Lemma div_Rounds x c :
  NN x -> is_normal_pos (Prim2SF c) = true ->
  Rounds (odiv (ext (Prim2SF x)) (SF2Q (Prim2SF c))) (Prim2SF (x / c)).
Proof. intros Hx Hc. rewrite div_spec. apply SFdiv_Rounds; assumption. Qed.

Lemma add_Rounds x y :
  NN x -> NN y ->
  Rounds (oadd (ext (Prim2SF x)) (ext (Prim2SF y))) (Prim2SF (x + y)).
Proof. intros Hx Hy. rewrite add_spec. apply SFadd_Rounds; assumption. Qed.

Lemma Prim2SF_floor x : NN x -> Prim2SF (Math_floor x) = SFfloor (Prim2SF x).
Proof.
  intros Hx. unfold Math_floor. apply Prim2SF_SF2Prim, nn_valid, SFfloor_nn, Hx.
Qed.

Lemma NN_mul x c : NN x -> is_normal_pos (Prim2SF c) = true -> NN (x * c).
Proof. intros Hx Hc. eapply Rounds_nn, mul_Rounds; eassumption. Qed.

Lemma NN_div x c : NN x -> is_normal_pos (Prim2SF c) = true -> NN (x / c).
Proof. intros Hx Hc. eapply Rounds_nn, div_Rounds; eassumption. Qed.

Lemma NN_add x y : NN x -> NN y -> NN (x + y).
Proof. intros Hx Hy. eapply Rounds_nn, add_Rounds; eassumption. Qed.

Lemma NN_floor x : NN x -> NN (Math_floor x).
Proof. intros Hx. unfold NN. rewrite Prim2SF_floor by assumption. apply SFfloor_nn, Hx. Qed.

Lemma mul_mono a b c :
  NN a -> NN b -> is_normal_pos (Prim2SF c) = true ->
  (a <=? b)%float = true -> (a * c <=? b * c)%float = true.
Proof.
  intros Ha Hb Hc Hle.
  eapply Rounds_leb; [apply mul_Rounds; assumption..|].
  apply ole_omul; [apply normal_pos_SF2Q, Hc|]. apply leb_ole; assumption.
Qed.

Lemma div_mono a b c :
  NN a -> NN b -> is_normal_pos (Prim2SF c) = true ->
  (a <=? b)%float = true -> (a / c <=? b / c)%float = true.
Proof.
  intros Ha Hb Hc Hle.
  eapply Rounds_leb; [apply div_Rounds; assumption..|].
  apply ole_odiv; [apply normal_pos_SF2Q, Hc|]. apply leb_ole; assumption.
Qed.

Lemma add_mono a b a' b' :
  NN a -> NN b -> NN a' -> NN b' ->
  (a <=? a')%float = true -> (b <=? b')%float = true ->
  (a + b <=? a' + b')%float = true.
Proof.
  intros Ha Hb Ha' Hb' H1 H2.
  eapply Rounds_leb; [apply add_Rounds; assumption..|].
  apply ole_oadd; apply leb_ole; assumption.
Qed.

Lemma floor_mono a b :
  NN a -> NN b -> (a <=? b)%float = true ->
  (Math_floor a <=? Math_floor b)%float = true.
Proof.
  intros Ha Hb Hle. rewrite leb_spec in *.
  rewrite !Prim2SF_floor by assumption. apply SFfloor_mono; assumption.
Qed.

Lemma nn_ltb x y :
  nn x = true -> nn y = true -> (SFltb x y = true <-> olt (ext x) (ext y)).
Proof.
  intros Hx Hy.
  destruct (nn_cases x Hx) as [Fx| ->], (nn_cases y Hy) as [Fy| ->].
  - rewrite (nnf_ltb x y Fx Fy).
    destruct x as [|[|]| |[|]], y as [|[|]| |[|]]; try discriminate; reflexivity.
  - rewrite nnf_ltb_inf by assumption.
    destruct x as [|[|]| |[|]]; try discriminate; cbn; tauto.
  - destruct y as [|[|]| |[|]]; try discriminate; cbn; split; (discriminate || tauto).
  - cbn. split; [discriminate|tauto].
Qed.

Lemma ltb_olt a b :
  NN a -> NN b ->
  ((a <? b)%float = true <-> olt (ext (Prim2SF a)) (ext (Prim2SF b))).
Proof. intros Ha Hb. rewrite ltb_spec. apply nn_ltb; assumption. Qed.

Lemma ole_or_olt a b : ole a b \/ olt b a.
Proof.
  destruct a as [x|], b as [y|]; cbn; auto.
  destruct (Qlt_le_dec y x); auto.
Qed.

Lemma ole_olt_false a b : ole a b -> olt b a -> False.
Proof. destruct a as [x|], b as [y|]; cbn; try tauto. intros; lra. Qed.

Lemma ole_trans a b c : ole a b -> ole b c -> ole a c.
Proof. destruct a as [x|], b as [y|], c as [z|]; cbn; try tauto. intros; lra. Qed.

Lemma ole_refl a : ole a a.
Proof. destruct a; cbn; [lra|exact I]. Qed.

Lemma ltb_false_leb a b :
  NN a -> NN b -> (a <? b)%float = false -> (b <=? a)%float = true.
Proof.
  intros Ha Hb Hlt. apply leb_ole; [assumption..|].
  destruct (ole_or_olt (ext (Prim2SF b)) (ext (Prim2SF a))) as [|H]; [assumption|].
  apply ltb_olt in H; [congruence|assumption..].
Qed.

Lemma leb_trans a b c :
  NN a -> NN b -> NN c ->
  (a <=? b)%float = true -> (b <=? c)%float = true -> (a <=? c)%float = true.
Proof.
  intros Ha Hb Hc H1 H2. apply leb_ole; [assumption..|].
  apply leb_ole in H1, H2; try assumption. eapply ole_trans; eassumption.
Qed.

Lemma leb_refl a : NN a -> (a <=? a)%float = true.
Proof. intros Ha. apply leb_ole; [assumption..|]. apply ole_refl. Qed.

Lemma leb_ltb_false a b :
  NN a -> NN b -> (a <=? b)%float = true -> (b <? a)%float = true -> False.
Proof.
  intros Ha Hb H1 H2. apply leb_ole in H1; try assumption.
  apply ltb_olt in H2; try assumption. eapply ole_olt_false; eassumption.
Qed.

(** *** [Math.max] *)

Lemma SFcompare_refl x :
  x <> S754_nan -> SFcompare x x = Some Eq.
Proof.
  destruct x as [s|[|]| |[|] m e]; cbn; try congruence; intros _;
    rewrite Z.compare_refl;
    change (Pos.compare_cont Eq m m) with (Pos.compare m m);
    rewrite Pos.compare_refl; reflexivity.
Qed.

Lemma ltb_not_nan a b : (a <? b)%float = true -> is_nan a = false.
Proof.
  rewrite ltb_spec. unfold is_nan. rewrite FloatAxioms.eqb_spec.
  unfold SFltb, SFeqb. intros H.
  rewrite SFcompare_refl; [reflexivity|].
  intros Hn. rewrite Hn in H. discriminate.
Qed.

(** Below the second argument, [Math.max] is the second argument, whatever
    the sign of the first. *)
Lemma Math_max_below a b :
  (a <? b)%float = true -> is_nan b = false ->
  (neg_infinity <? b)%float = true ->
  Math_max a b = b.
Proof.
  intros Hlt Hnb Hinf. unfold Math_max.
  rewrite (ltb_not_nan a b Hlt), Hnb. cbn [orb].
  unfold max_step at 2.
  destruct ((neg_infinity <? a)%float || is_pzero a && is_nzero neg_infinity);
    unfold max_step; [rewrite Hlt|rewrite Hinf]; reflexivity.
Qed.

Lemma NN_not_nan a : NN a -> is_nan a = false.
Proof.
  unfold NN, is_nan. rewrite FloatAxioms.eqb_spec. unfold SFeqb. intros H.
  rewrite SFcompare_refl; [reflexivity|].
  intros Hn. rewrite Hn in H. discriminate.
Qed.

(** On non-negative numbers [Math.max] is the greater argument. *)
Lemma Math_max_NN a b :
  NN a -> NN b -> is_pzero b = false ->
  Math_max a b = if (a <? b)%float then b else a.
Proof.
  intros Ha Hb Hz. unfold Math_max.
  rewrite (NN_not_nan a Ha), (NN_not_nan b Hb). cbn [orb].
  assert (H1 : max_step neg_infinity a = a).
  { unfold max_step. rewrite ltb_spec.
    change (Prim2SF neg_infinity) with (S754_infinity true).
    unfold NN in Ha. destruct (Prim2SF a) as [|[|]| |[|]]; try discriminate; reflexivity. }
  rewrite H1. unfold max_step. rewrite Hz, andb_false_l, orb_false_r. reflexivity.
Qed.

Lemma max_mono a b c :
  NN a -> NN b -> NN c -> is_pzero c = false ->
  (a <=? b)%float = true ->
  NN (Math_max a c) /\ NN (Math_max b c) /\
  (Math_max a c <=? Math_max b c)%float = true.
Proof.
  intros Ha Hb Hc Hz Hle.
  rewrite !Math_max_NN by assumption.
  destruct (a <? c)%float eqn:Eac, (b <? c)%float eqn:Ebc;
    repeat apply conj; try assumption.
  - apply leb_refl; assumption.
  - apply ltb_false_leb; assumption.
  - exfalso. apply (leb_ltb_false c b); try assumption.
    apply (leb_trans c a b); try assumption. apply ltb_false_leb; assumption.
Qed.

(** *** Integers as numbers, and array indices *)

Lemma nnf_ext x : nnf x = true -> ext x = Some (SF2Q x).
Proof. destruct x as [|[|]| |[|]]; try discriminate; reflexivity. Qed.

(** [of_Z] is exact below [2^53]. *)
Lemma of_Z_spec n :
  0 <= n < 2 ^ 53 ->
  nnf (Prim2SF (of_Z n)) = true /\ (SF2Q (Prim2SF (of_Z n)) == inject_Z n)%Q.
Proof.
  intros Hn. unfold of_Z.
  destruct (Rounds_int (binary_normalize prec emax n 0 false) n Hn) as [Hf Hv].
  { apply binary_normalize_Rounds. lia. }
  rewrite Prim2SF_SF2Prim by (apply nn_valid, nnf_nn, Hf). split; assumption.
Qed.

Lemma inject_Z_eq a b : (inject_Z a == inject_Z b)%Q -> a = b.
Proof. apply inject_Z_injective. Qed.

(** The index of a number whose value is the integer [i]. *)
Lemma to_index_int (f : float) i :
  nnf (Prim2SF f) = true -> (SF2Q (Prim2SF f) == inject_Z i)%Q -> 0 <= i ->
  to_index f = Some (Z.to_nat i).
Proof.
  unfold to_index. destruct (Prim2SF f) as [s|[|]| |[|] m e]; try discriminate;
    cbn [nnf SF2Q]; intros Hb Hv Hi.
  - f_equal. change 0%Q with (inject_Z 0) in Hv.
    apply inject_Z_eq in Hv. subst i. reflexivity.
  - destruct (Z.leb_spec 0 e) as [He|He].
    + rewrite pow2_Z, <- inject_Z_mult in Hv by assumption.
      apply inject_Z_eq in Hv. rewrite Hv. reflexivity.
    + assert (Hp : 0 < 2 ^ (- e)) by (apply Z.pow_pos_nonneg; lia).
      assert (Hm : Zpos m = i * 2 ^ (- e)).
      { apply inject_Z_injective. rewrite inject_Z_mult, <- pow2_Z by lia.
        rewrite <- Hv, <- Qmult_assoc, <- pow2_add.
        replace (e + - e) with 0 by lia. change (pow2 0) with 1%Q. ring. }
      rewrite Hm, Z.mod_mul, Z.div_mul by lia. reflexivity.
Qed.

(** *** Numbers with the sign bit set

    Of these only that the operations keep them away from NaN is needed. *)

Lemma canon_ng k E :
  -1074 <= E -> 0 <= k <= 2 ^ 53 -> E = -1074 \/ 2 ^ 52 <= k ->
  ng (canon true k E) = true.
Proof.
  intros HE Hk Hn. unfold canon.
  destruct k as [|p|p]; [reflexivity| |lia].
  destruct (Z.eqb_spec (Zpos p) (2 ^ 53)) as [Hp|Hp].
  - destruct (Z.leb_spec (E + 1) 971); [|reflexivity].
    cbn [ng]. apply bounded_iff. lia.
  - destruct (Z.leb_spec E 971); [|reflexivity].
    cbn [ng]. apply bounded_iff. lia.
Qed.

Lemma canon_not_nan s k E : canon s k E <> S754_nan.
Proof.
  unfold canon. destruct k as [|p|p]; try discriminate.
  destruct (Zpos p =? 2 ^ 53), (E + 1 <=? 971), (E <=? 971); discriminate.
Qed.

Lemma binary_round_aux_canon s X e :
  0 <= X ->
  0 <= fexp prec emax (Zdigits2 X + e) - e ->
  exists k E,
    -1074 <= E /\ 0 <= k <= 2 ^ 53 /\ (E = -1074 \/ 2 ^ 52 <= k) /\
    binary_round_aux prec emax s X e loc_Exact = canon s k E.
Proof.
  intros HX Hn.
  pose proof (binary_round_aux_RND s X 1 e (inject_Z X * pow2 e)%Q HX ltac:(lia)) as H.
  rewrite Z.div_1_r, Z.mod_1_r in H.
  destruct H as (k & Hrnd & Heq); [change (inject_Z 1) with 1%Q; ring|exact Hn|].
  exists k, (e + (fexp prec emax (Zdigits2 X + e) - e)).
  destruct Hrnd.
  split; [assumption|]. split; [assumption|]. split; [assumption|exact Heq].
Qed.

Lemma binary_round_canon s p e :
  exists k E,
    -1074 <= E /\ 0 <= k <= 2 ^ 53 /\ (E = -1074 \/ 2 ^ 52 <= k) /\
    binary_round prec emax s p e = canon s k E.
Proof.
  unfold binary_round.
  set (e0 := fexp prec emax (Zpos (digits2_pos p) + e)).
  pose proof (shl_align_spec p e e0) as [H2 H1].
  destruct (shl_align p e e0) as [mz ez]. cbn [fst snd] in H1, H2.
  rewrite <- H2 in H1.
  apply binary_round_aux_canon; [lia|].
  rewrite H1, Zdigits2_shift by lia. cbn [Zdigits2].
  replace (Zpos (digits2_pos p) + (e - ez) + ez) with (Zpos (digits2_pos p) + e) by lia.
  fold e0. lia.
Qed.

Lemma binary_round_ng p e : ng (binary_round prec emax true p e) = true.
Proof.
  destruct (binary_round_canon true p e) as (k & E & HE & Hk & Hn & ->).
  apply canon_ng; assumption.
Qed.

Lemma binary_round_not_nan s p e : binary_round prec emax s p e <> S754_nan.
Proof.
  destruct (binary_round_canon s p e) as (k & E & _ & _ & _ & ->).
  apply canon_not_nan.
Qed.

Lemma ng_valid f : ng f = true -> valid_binary f = true.
Proof. destruct f as [[|]|[|]| |[|]]; cbn; congruence. Qed.

Lemma SFmul_ng x c :
  ng x = true -> is_normal_pos c = true -> ng (SFmul prec emax x c) = true.
Proof.
  intros Hx Hc.
  destruct c as [|[|]| |[|] mc ec]; try discriminate. cbn [is_normal_pos] in Hc.
  apply andb_true_iff in Hc as [Hb Hc52]. apply Z.leb_le in Hc52.
  destruct x as [[|]|[|]| |[|] mx ex]; try discriminate; cbn [ng] in Hx;
    try reflexivity.
  cbn [SFmul xorb].
  destruct (binary_round_aux_canon true (Zpos (mx * mc)) (ex + ec))
    as (k & E & HE & Hk & Hn & ->); [lia| |apply canon_ng; assumption].
  rewrite fexp_eq, Pos2Z.inj_mul.
  pose proof (digits2_pos_bounds mx) as [B1 _].
  set (dx := Zpos (digits2_pos mx)) in *. assert (0 < dx) by (unfold dx; lia).
  assert (Hd : dx - 1 + 52 + 1 <= Zdigits2 (Zpos mx * Zpos mc)).
  { apply Zdigits2_ge; [lia|]. rewrite Z.pow_add_r by lia. nia. }
  lia.
Qed.

Lemma SFfloor_ng x : ng x = true -> ng (SFfloor x) = true.
Proof.
  destruct x as [[|]|[|]| |[|] m e]; try discriminate; cbn [ng SFfloor];
    try reflexivity.
  intros Hx. destruct (Z.leb_spec 0 e) as [He|He]; [exact Hx|].
  cbn [cond_Zopp]. rewrite Z.shiftr_div_pow2 by lia.
  assert (Hp : 0 < 2 ^ (- e)) by (apply Z.pow_pos_nonneg; lia).
  assert (Hneg : - Zpos m / 2 ^ (- e) < 0)
    by (apply Z.div_lt_upper_bound; lia).
  destruct (- Zpos m / 2 ^ (- e)) as [|p|p] eqn:Ed; try lia.
  cbn [binary_normalize]. apply binary_round_ng.
Qed.

Lemma ng_ltb_pos x m e :
  ng x = true -> SFltb x (S754_finite false m e) = true.
Proof. destruct x as [[|]|[|]| |[|]]; try discriminate; reflexivity. Qed.

Lemma SFadd_ng_pos x m e :
  ng x = true -> SFadd prec emax x (S754_finite false m e) <> S754_nan.
Proof.
  destruct x as [[|]|[|]| |[|] mx ex]; try discriminate; cbn [ng SFadd];
    try discriminate.
  intros _. cbn [cond_Zopp].
  destruct (- Zpos (fst (shl_align mx ex (Z.min ex e)))
            + Zpos (fst (shl_align m e (Z.min ex e)))) as [|p|p];
    cbn [binary_normalize]; [discriminate|apply binary_round_not_nan..].
Qed.

Lemma nn_or_ng f :
  valid_binary f = true -> f <> S754_nan -> nn f = true \/ ng f = true.
Proof.
  destruct f as [[|]|[|]| |[|]]; cbn; intros Hv Hn; auto; congruence.
Qed.

Lemma not_nan_cases x : is_nan x = false -> NN x \/ NG x.
Proof.
  intros H. apply nn_or_ng; [apply Prim2SF_valid|].
  intros Hn. unfold is_nan in H. rewrite FloatAxioms.eqb_spec, Hn in H.
  discriminate.
Qed.

Lemma not_nan_eqb x : Prim2SF x <> S754_nan -> (x =? x)%float = true.
Proof.
  intros H. rewrite FloatAxioms.eqb_spec. unfold SFeqb.
  rewrite SFcompare_refl by exact H. reflexivity.
Qed.

Lemma NG_mul x c : NG x -> is_normal_pos (Prim2SF c) = true -> NG (x * c).
Proof. intros Hx Hc. unfold NG. rewrite mul_spec. apply SFmul_ng; assumption. Qed.

Lemma NG_floor x : NG x -> NG (Math_floor x).
Proof.
  intros Hx. unfold NG, Math_floor.
  rewrite Prim2SF_SF2Prim by (apply ng_valid, SFfloor_ng, Hx).
  apply SFfloor_ng, Hx.
Qed.

(** *** Negative numbers

    Rounding does not look at the sign: what is computed on negative
    numbers is the opposite of what is computed on their opposites. *)

Lemma SFopp_involutive x : SFopp (SFopp x) = x.
Proof. destruct x as [[|]|[|]| |[|]]; reflexivity. Qed.

Lemma ng_opp_nn u : ng u = true -> nn (SFopp u) = true.
Proof. destruct u as [[|]|[|]| |[|]]; cbn; congruence. Qed.

Lemma binary_round_aux_opp s X e l :
  binary_round_aux prec emax (negb s) X e l
    = SFopp (binary_round_aux prec emax s X e l).
Proof.
  unfold binary_round_aux.
  destruct (shr_fexp prec emax X e l) as [mrs' e'].
  destruct (shr_fexp prec emax _ e' loc_Exact) as [mrs'' e''].
  destruct (shr_m mrs''); [reflexivity| |reflexivity].
  destruct (e'' <=? emax - prec); reflexivity.
Qed.

Lemma binary_round_opp s p e :
  binary_round prec emax (negb s) p e = SFopp (binary_round prec emax s p e).
Proof.
  unfold binary_round. destruct (shl_align _ _ _). apply binary_round_aux_opp.
Qed.

Lemma SFmul_opp x c :
  SFmul prec emax (SFopp x) c = SFopp (SFmul prec emax x c).
Proof.
  destruct x as [sx|sx| |sx mx ex], c as [sc|sc| |sc mc ec];
    cbn [SFmul SFopp]; try reflexivity;
    try (destruct sx, sc; reflexivity).
  rewrite <- binary_round_aux_opp. destruct sx, sc; reflexivity.
Qed.

Lemma SFadd_ng_ng u v :
  ng u = true -> ng v = true ->
  SFadd prec emax u v = SFopp (SFadd prec emax (SFopp u) (SFopp v)).
Proof.
  destruct u as [[|]|[|]| |[|] mu eu]; try discriminate;
  destruct v as [[|]|[|]| |[|] mv ev]; try discriminate;
    intros _ _; cbn [SFadd SFopp negb cond_Zopp Z.opp Z.add binary_normalize];
    try reflexivity.
  apply (binary_round_opp false).
Qed.

(** The order on negative numbers is the order on their opposites,
    reversed. *)
Lemma SFltb_opp s g :
  nn s = true -> nn g = true -> SFltb (SFopp s) (SFopp g) = SFltb g s.
Proof.
  destruct s as [[|]|[|]| |[|] ms es]; try discriminate;
  destruct g as [[|]|[|]| |[|] mg eg]; try discriminate;
    intros _ _; try reflexivity.
  unfold SFltb. cbn [SFopp negb SFcompare].
  rewrite (Z.compare_antisym eg es).
  destruct (eg ?= es) eqn:E; cbn [CompOpp]; try reflexivity.
  rewrite (Pos.compare_cont_antisym ms mg Eq). cbn [CompOpp].
  destruct (PosDef.Pos.compare_cont Eq mg ms); reflexivity.
Qed.

(** A number that is not positive is below one that is not negative, unless
    both are zero. *)
Lemma SFltb_opp_nn s t :
  nn s = true -> nn t = true ->
  olt (Some 0%Q) (ext s) \/ olt (Some 0%Q) (ext t) ->
  SFltb (SFopp s) t = true.
Proof.
  destruct s as [[|]|[|]| |[|] ms es]; try discriminate;
  destruct t as [[|]|[|]| |[|] mt et]; try discriminate;
    intros _ _ H; try reflexivity;
    cbn in H; destruct H as [H|H]; try contradiction;
    exfalso; revert H; apply Qlt_irrefl.
Qed.

Lemma Qfloor_F2Q_neg m e :
  e < 0 -> Qfloor (- (inject_Z (Zpos m) * pow2 e)) = Zneg m / 2 ^ (- e).
Proof.
  intros He.
  assert (Hp : 0 < 2 ^ (- e)) by (apply Z.pow_pos_nonneg; lia).
  pose proof (Z.div_mod (Zneg m) (2 ^ (- e)) ltac:(lia)) as E.
  pose proof (Z.mod_pos_bound (Zneg m) (2 ^ (- e)) Hp) as B.
  set (q := Zneg m / 2 ^ (- e)) in *.
  pose proof (pow2_pos e) as Hpe.
  assert (Hinv : (pow2 (- e) * pow2 e == 1)%Q).
  { rewrite <- pow2_add. replace (- e + e) with 0 by lia. reflexivity. }
  rewrite pow2_Z in Hinv by lia.
  assert (L : q * 2 ^ (- e) <= Zneg m) by lia.
  assert (U : Zneg m < (q + 1) * 2 ^ (- e)) by lia.
  pose proof (inject_Z_le_mult _ _ _ L Hpe) as L'.
  pose proof (inject_Z_lt_mult _ _ _ U Hpe) as U'.
  rewrite inject_Z_mult in L', U'. rewrite inject_Z_plus in U'.
  change (inject_Z 1) with 1%Q in U'.
  change (inject_Z (Zneg m)) with (- inject_Z (Zpos m))%Q in L', U'.
  apply Qfloor_unique.
  - setoid_replace (inject_Z q) with (inject_Z q * (inject_Z (2 ^ (- e)) * pow2 e))%Q
      using relation Qeq by (rewrite Hinv; ring).
    lra.
  - setoid_replace (inject_Z q + 1)%Q
      with ((inject_Z q + 1) * (inject_Z (2 ^ (- e)) * pow2 e))%Q
      using relation Qeq by (rewrite Hinv; ring).
    lra.
Qed.

(** [Math.floor] of a negative number: the opposite of the least integer
    that is not below its opposite. *)
Lemma SFfloor_ng_value u :
  ng u = true -> nnf (SFopp u) = true ->
  nnf (SFopp (SFfloor u)) = true /\
  (SF2Q (SFopp (SFfloor u)) == inject_Z (Qceiling (SF2Q (SFopp u))))%Q.
Proof.
  destruct u as [[|]|[|]| |[|] m e]; try discriminate; cbn [ng SFfloor SFopp negb nnf].
  - intros _ _. split; reflexivity.
  - intros Hb _. destruct (Z.leb_spec 0 e) as [He|He].
    + cbn [SFopp negb nnf SF2Q]. split; [exact Hb|].
      assert (Hq : (inject_Z (Zpos m) * pow2 e == inject_Z (Zpos m * 2 ^ e))%Q).
      { rewrite inject_Z_mult, pow2_Z by assumption. reflexivity. }
      rewrite Hq at 2. rewrite Qceiling_Z. exact Hq.
    + cbn [cond_Zopp SF2Q]. rewrite Z.shiftr_div_pow2 by lia.
      unfold Qceiling. change (Z.opp (Zpos m)) with (Zneg m).
      rewrite Qfloor_F2Q_neg by lia.
      assert (Hp : 0 < 2 ^ (- e)) by (apply Z.pow_pos_nonneg; lia).
      assert (Hneg : Zneg m / 2 ^ (- e) < 0)
        by (apply Z.div_lt_upper_bound; lia).
      assert (Hlow : Zneg m <= Zneg m / 2 ^ (- e))
        by (apply Z.div_le_lower_bound; nia).
      apply bounded_iff in Hb as (_ & Hm & _).
      destruct (Zneg m / 2 ^ (- e)) as [|p|p] eqn:Ed; try lia.
      cbn [binary_normalize Z.opp].
      rewrite (binary_round_opp false), SFopp_involutive.
      apply Rounds_int; [lia|]. apply binary_round_Rounds.
Qed.

Lemma SFadd_ng_pos_exact u m e :
  ng u = true -> nnf (SFopp u) = true -> bounded prec emax m e = true ->
  ((SF2Q (SFopp u) <= inject_Z (Zpos m) * pow2 e)%Q ->
     Rounds (Some (inject_Z (Zpos m) * pow2 e - SF2Q (SFopp u))%Q)
       (SFadd prec emax u (S754_finite false m e))) /\
  ((inject_Z (Zpos m) * pow2 e < SF2Q (SFopp u))%Q ->
     Rounds (Some (SF2Q (SFopp u) - inject_Z (Zpos m) * pow2 e)%Q)
       (SFopp (SFadd prec emax u (S754_finite false m e)))).
Proof.
  intros Hu Hf Hc.
  destruct u as [[|]|[|]| |[|] mu eu]; try discriminate; cbn [SFopp negb SFadd].
  - (* -0 *)
    cbn [SF2Q]. pose proof (pow2_pos e) as Hpe.
    assert (H0 : (0 < inject_Z (Zpos m) * pow2 e)%Q).
    { apply Qmult_lt_0_compat; [reflexivity|exact Hpe]. }
    split; intros H.
    + eapply Rounds_compat;
        [|apply (Rounds_repr (S754_finite false m e)); exact Hc].
      cbn. ring.
    + exfalso. lra.
  - (* finite *)
    cbn [cond_Zopp SF2Q].
    pose proof (shl_align_spec mu eu (Z.min eu e)) as [_ H1].
    pose proof (shl_align_spec m e (Z.min eu e)) as [_ H2].
    replace (Z.min eu (Z.min eu e)) with (Z.min eu e) in H1 by lia.
    replace (Z.min e (Z.min eu e)) with (Z.min eu e) in H2 by lia.
    set (ez := Z.min eu e) in *.
    pose proof (pow2_Z (eu - ez) ltac:(lia)) as Hp1.
    pose proof (pow2_Z (e - ez) ltac:(lia)) as Hp2.
    assert (E1 : (pow2 eu == pow2 (eu - ez) * pow2 ez)%Q).
    { rewrite <- pow2_add. replace (eu - ez + ez) with eu by lia. reflexivity. }
    assert (E2 : (pow2 e == pow2 (e - ez) * pow2 ez)%Q).
    { rewrite <- pow2_add. replace (e - ez + ez) with e by lia. reflexivity. }
    rewrite H1, H2.
    set (Mu := Zpos mu * 2 ^ (eu - ez)). set (Mc := Zpos m * 2 ^ (e - ez)).
    assert (Vu : (inject_Z (Zpos mu) * pow2 eu == inject_Z Mu * pow2 ez)%Q).
    { unfold Mu. rewrite inject_Z_mult, <- Hp1, E1. ring. }
    assert (Vc : (inject_Z (Zpos m) * pow2 e == inject_Z Mc * pow2 ez)%Q).
    { unfold Mc. rewrite inject_Z_mult, <- Hp2, E2. ring. }
    pose proof (pow2_pos ez) as Hpz.
    assert (Hcmp : forall a b : Z,
               (inject_Z a * pow2 ez <= inject_Z b * pow2 ez)%Q -> a <= b).
    { intros a b H. apply Qmult_le_r in H; [|exact Hpz].
      rewrite <- Zle_Qle in H. exact H. }
    assert (Hcmp' : forall a b : Z,
               (inject_Z a * pow2 ez < inject_Z b * pow2 ez)%Q -> a < b).
    { intros a b H. apply Qmult_lt_r in H; [|exact Hpz].
      rewrite <- Zlt_Qlt in H. exact H. }
    split; intros H; rewrite Vu, Vc in H.
    + apply Hcmp in H.
      eapply Rounds_compat; [|apply binary_normalize_Rounds; lia].
      rewrite Vu, Vc, inject_Z_plus, inject_Z_opp. ring.
    + apply Hcmp' in H.
      destruct (- Mu + Mc) as [|p|p] eqn:En; try lia.
      cbn [binary_normalize].
      rewrite (binary_round_opp false), SFopp_involutive.
      eapply Rounds_compat; [|apply binary_round_Rounds].
      rewrite Vu, Vc.
      change (inject_Z (Zpos p)) with (- inject_Z (Zneg p))%Q.
      rewrite <- En, inject_Z_plus, inject_Z_opp. ring.
Qed.

(** A positive number [c], of value [vc], added to a negative one. *)
Lemma SFadd_ng_pos_Rounds u m e vc :
  ng u = true -> nnf (SFopp u) = true -> bounded prec emax m e = true ->
  (inject_Z (Zpos m) * pow2 e == vc)%Q ->
  ((SF2Q (SFopp u) <= vc)%Q ->
     Rounds (Some (vc - SF2Q (SFopp u))%Q)
       (SFadd prec emax u (S754_finite false m e))) /\
  ((vc < SF2Q (SFopp u))%Q ->
     Rounds (Some (SF2Q (SFopp u) - vc)%Q)
       (SFopp (SFadd prec emax u (S754_finite false m e)))).
Proof.
  intros Hu Hf Hc Hvc.
  destruct (SFadd_ng_pos_exact u m e Hu Hf Hc) as [H1 H2].
  split; intros H.
  - eapply Rounds_compat; [|apply H1; rewrite Hvc; exact H].
    rewrite Hvc. reflexivity.
  - eapply Rounds_compat; [|apply H2; rewrite Hvc; exact H].
    rewrite Hvc. reflexivity.
Qed.

(** The error of a rounding: relative in the normal range, absolute below
    it. *)
Lemma Rounds_error v f :
  Rounds (Some v) f ->
  f = S754_infinity false \/
  (nnf f = true /\
   (v * (1 - (1 # 9007199254740992)) - pow2 (-1075) <= SF2Q f)%Q /\
   (SF2Q f <= v * (1 + (1 # 9007199254740992)) + pow2 (-1075))%Q).
Proof.
  intros Hr. inversion Hr as [|v0 k E f0 Hrnd Hres]; subst.
  destruct Hres as [[Hn Hf]|[-> _]]; [right|left; reflexivity].
  destruct Hrnd as [HE Hk Hkn Hv0 Hhi Hlo Hup Hdn _].
  split; [exact Hn|]. rewrite Hf.
  pose proof (pow2_pos E) as HpE. pose proof (pow2_pos (-1075)) as Hpd.
  destruct Hlo as [->|Hlo].
  - assert (Hh : (pow2 (-1074) == 2 * pow2 (-1075))%Q).
    { rewrite (pow2_add 1 (-1075)). reflexivity. }
    assert (Hh' : (pow2 (-1074) <= 2 * pow2 (-1075))%Q)
      by (rewrite Hh; apply Qle_refl).
    split; lra.
  - split; lra.
Qed.

Lemma SFleb_nnf a b :
  nn a = true -> nnf b = true -> SFleb a b = true -> nnf a = true.
Proof.
  destruct a as [|[|]| |[|]]; try discriminate; intros Ha Hb; try (intros _; exact Ha).
  destruct b as [|[|]| |[|]]; discriminate.
Qed.

Lemma Qeq_bounds (a b : Q) : (a == b)%Q -> (a <= b)%Q /\ (b <= a)%Q.
Proof. intros H. rewrite H. split; apply Qle_refl. Qed.

Lemma pow2_m1075_small : (pow2 (-1075) <= 1 # 1024)%Q.
Proof.
  pose proof (pow2_le (-1075) (-10) ltac:(lia)) as H.
  assert (H10 : (pow2 (-10) <= 1 # 1024)%Q) by (apply Qle_refl).
  lra.
Qed.

(** The floor of a share [L * c] of a negative finite amount [L]: minus an
    integer [z], the least one that is not below the rounded product of
    [-L] and [c]. *)
Lemma negative_share L c q :
  ng L = true -> nnf (SFopp L) = true ->
  is_normal_pos c = true -> (SF2Q c == q)%Q -> (0 < q)%Q -> (q <= 1)%Q ->
  let l := SF2Q (SFopp L) in
  let S := SFfloor (SFmul prec emax L c) in
  ng S = true /\ nnf (SFopp S) = true /\
  (l * q * (1 - (1 # 9007199254740992)) - pow2 (-1075) <= SF2Q (SFopp S))%Q /\
  (SF2Q (SFopp S) < l * q * (1 + (1 # 9007199254740992)) + pow2 (-1075) + 1)%Q.
Proof.
  intros HL FL Hc Vc Hq0 Hq1 l S.
  pose proof (nnf_SF2Q_nonneg _ FL) as Hl0. fold l in Hl0.
  set (A := SFmul prec emax L c) in *.
  pose proof (SFmul_ng L c HL Hc) as HA. fold A in HA.
  assert (EA : SFopp A = SFmul prec emax (SFopp L) c) by (symmetry; apply SFmul_opp).
  pose proof (SFmul_Rounds (SFopp L) c (nnf_nn _ FL) Hc) as Hr.
  rewrite <- EA, (nnf_ext _ FL) in Hr. cbn [omul] in Hr. fold l in Hr.
  apply (Rounds_compat _ (l * q)%Q) in Hr; [|rewrite Vc; reflexivity].
  assert (FA : nnf (SFopp A) = true).
  { apply (SFleb_nnf _ (SFopp L)); [eapply Rounds_nn; exact Hr|exact FL|].
    eapply Rounds_mono; [exact Hr|apply Rounds_repr, nnf_nn, FL|].
    rewrite (nnf_ext _ FL). cbn [ole]. fold l. nra. }
  destruct (Rounds_error _ _ Hr) as [Hinf|(_ & Lo & Hi)].
  { rewrite Hinf in FA. discriminate. }
  destruct (SFfloor_ng_value A HA FA) as [FS VS]. fold S in FS, VS.
  pose proof (Qle_ceiling (SF2Q (SFopp A))) as C1.
  pose proof (Qceiling_lt (SF2Q (SFopp A))) as C2.
  unfold Z.sub in C2. rewrite inject_Z_plus in C2.
  change (inject_Z (- (1))) with (-1)%Q in C2.
  apply Qeq_bounds in VS as [VS1 VS2].
  revert VS1 VS2 C1 C2. generalize (inject_Z (Qceiling (SF2Q (SFopp A)))).
  intros z VS1 VS2 C1 C2.
  repeat apply conj; [apply SFfloor_ng; exact HA|exact FS|..];
    clear EA; clearbody S A l; lra.
Qed.

End Binary64Facts.

Import Binary64.
Import Binary64Facts.

(** ** The JavaScript primitives on examples *)

Example Math_floor_examples :
  Math_floor 2.7 = 2 /\ Math_floor 0.5 = 0 /\ Math_floor (-0.5) = -1 /\
  Math_floor (-2.5) = -3 /\ Math_floor 1e300 = 1e300 /\
  Math_floor infinity = infinity /\ Math_floor neg_infinity = neg_infinity /\
  Prim2SF (Math_floor (-0)) = S754_zero true /\
  is_nan (Math_floor nan) = true.
Proof. vm_compute. repeat split; reflexivity. Qed.

Example Math_max_examples :
  Math_max 3 1000 = 1000 /\ Math_max 2000 1000 = 2000 /\
  Math_max neg_infinity 1000 = 1000 /\ Math_max infinity 1000 = infinity /\
  Prim2SF (Math_max (-0) 0) = S754_zero false /\
  Prim2SF (Math_max 0 (-0)) = S754_zero false /\
  is_nan (Math_max nan 1000) = true /\ is_nan (Math_max 1000 nan) = true.
Proof. vm_compute. repeat split; reflexivity. Qed.

Example array_get_examples :
  array_get TIP_ACCOUNTS 0 = Some "96gYZGLnJYVFmbjzopPSU6QiEV5fGqZNyN9nmNhvrZU5"%string /\
  array_get TIP_ACCOUNTS 7 = Some "3AVi9Tg9Uo68tJfuvoKvqKNWKkC5wPdSSdeBnizKZ6jT"%string /\
  array_get TIP_ACCOUNTS 8 = None /\ array_get TIP_ACCOUNTS 1.5 = None /\
  array_get TIP_ACCOUNTS (-1) = None.
Proof. vm_compute. repeat split; reflexivity. Qed.

(** ** Fee recommendation *)

Lemma normal_LAMPORTS_PER_SOL : is_normal_pos (Prim2SF LAMPORTS_PER_SOL) = true.
Proof. reflexivity. Qed.

Lemma normal_07 : is_normal_pos (Prim2SF 0.7) = true.
Proof. reflexivity. Qed.

Lemma normal_03 : is_normal_pos (Prim2SF 0.3) = true.
Proof. reflexivity. Qed.

Lemma SF2Q_07 : (SF2Q (Prim2SF 0.7) == 6305039478318694 # 9007199254740992)%Q.
Proof. vm_compute. reflexivity. Qed.

Lemma SF2Q_03 : (SF2Q (Prim2SF 0.3) == 5404319552844595 # 18014398509481984)%Q.
Proof. vm_compute. reflexivity. Qed.

Lemma NN_MIN_TIP : NN MIN_TIP_LAMPORTS.
Proof. reflexivity. Qed.

Lemma NN_priority x : NN x -> NN (Math_floor (x * LAMPORTS_PER_SOL * 0.7)).
Proof.
  intros Hx. apply NN_floor, NN_mul; [|exact normal_07].
  apply NN_mul; [exact Hx|exact normal_LAMPORTS_PER_SOL].
Qed.

Lemma NN_rawTip x : NN x -> NN (rawTip x).
Proof.
  intros Hx. apply NN_floor, NN_mul; [|exact normal_03].
  apply NN_mul; [exact Hx|exact normal_LAMPORTS_PER_SOL].
Qed.

Lemma priority_mono a b :
  NN a -> NN b -> (a <=? b) = true ->
  (Math_floor (a * LAMPORTS_PER_SOL * 0.7)
     <=? Math_floor (b * LAMPORTS_PER_SOL * 0.7)) = true.
Proof.
  intros Ha Hb Hle.
  pose proof normal_LAMPORTS_PER_SOL as N9. pose proof normal_07 as N7.
  apply floor_mono; [apply NN_mul; [apply NN_mul|]; assumption..|].
  apply mul_mono; [apply NN_mul; assumption..|exact N7|].
  apply mul_mono; assumption.
Qed.

Lemma rawTip_mono a b :
  NN a -> NN b -> (a <=? b) = true -> (rawTip a <=? rawTip b) = true.
Proof.
  intros Ha Hb Hle.
  pose proof normal_LAMPORTS_PER_SOL as N9. pose proof normal_03 as N3.
  apply floor_mono; [apply NN_mul; [apply NN_mul|]; assumption..|].
  apply mul_mono; [apply NN_mul; assumption..|exact N3|].
  apply mul_mono; assumption.
Qed.

Lemma NN_jitoTip x : NN x -> NN (Math_max (rawTip x) MIN_TIP_LAMPORTS).
Proof.
  intros Hx.
  destruct (max_mono (rawTip x) (rawTip x) MIN_TIP_LAMPORTS
              (NN_rawTip x Hx) (NN_rawTip x Hx) NN_MIN_TIP eq_refl
              (leb_refl _ (NN_rawTip x Hx))) as (H & _).
  exact H.
Qed.

(** With a negative budget the raw tip is negative, the tip is the
    minimum, and the sum is not NaN. *)
Lemma NG_total_eqb x :
  NG x ->
  let priority := Math_floor (x * LAMPORTS_PER_SOL * 0.7) in
  let tip := Math_max (rawTip x) MIN_TIP_LAMPORTS in
  (priority + tip =? priority + tip) = true.
Proof.
  intros Hx priority tip.
  assert (HP : NG priority).
  { apply NG_floor, NG_mul; [|exact normal_07].
    apply NG_mul; [exact Hx|exact normal_LAMPORTS_PER_SOL]. }
  assert (HR : NG (rawTip x)).
  { apply NG_floor, NG_mul; [|exact normal_03].
    apply NG_mul; [exact Hx|exact normal_LAMPORTS_PER_SOL]. }
  assert (HT : tip = 1000).
  { apply Math_max_below; [|reflexivity..].
    rewrite ltb_spec. exact (ng_ltb_pos _ _ _ HR). }
  rewrite HT. apply not_nan_eqb. rewrite add_spec.
  exact (SFadd_ng_pos _ _ _ HP).
Qed.

(** C1: for every input, the [totalFeeLamports] of the recommendation is the
    sum of its [priorityFeeLamports] and its [jitoTipLamports], the two
    values after the minimum-tip floor; for every input but NaN the two also
    compare equal as numbers ([==]); at [0.000001] SOL (1000 lamports) the
    floor applies and the total, 1700, is not the converted input. *)
Theorem C1_total_is_sum_of_components :
  (forall budget : number,
     let r := calculateRecommendedFees budget in
     totalFeeLamports r = priorityFeeLamports r + jitoTipLamports r) /\
  (forall budget : number,
     is_nan budget = false ->
     let r := calculateRecommendedFees budget in
     (totalFeeLamports r =? priorityFeeLamports r + jitoTipLamports r) = true) /\
  (let r := calculateRecommendedFees 0.000001 in
   0.000001 * LAMPORTS_PER_SOL = 1000 /\
   priorityFeeLamports r = 700 /\ jitoTipLamports r = 1000 /\
   totalFeeLamports r = 1700).
Proof.
  repeat apply conj.
  - intros x r. reflexivity.
  - intros x Hnan r.
    unfold r, calculateRecommendedFees; cbn. fold (rawTip x).
    destruct (not_nan_cases x Hnan) as [Hx|Hx].
    + apply not_nan_eqb. intros Hn.
      pose proof (NN_add _ _ (NN_priority x Hx) (NN_jitoTip x Hx)) as H.
      unfold NN in H. rewrite Hn in H. discriminate.
    + exact (NG_total_eqb x Hx).
  - vm_compute. reflexivity.
  - vm_compute. reflexivity.
  - vm_compute. reflexivity.
  - vm_compute. reflexivity.
Qed.

(** C2: the lamport fields follow the 70/30 formulas on the converted input,
    the tip is floored at 1000 lamports, and each SOL field is the lamport
    field divided by the same constant. *)
Theorem C2_fields_follow_the_formulas :
  forall budget : number,
    let totalLamports := budget * 1000000000 in
    let r := calculateRecommendedFees budget in
    priorityFeeLamports r = Math_floor (totalLamports * 0.7) /\
    jitoTipLamports r = Math_max (Math_floor (totalLamports * 0.3)) 1000 /\
    priorityFeeSol r = priorityFeeLamports r / 1000000000 /\
    jitoTipSol r = jitoTipLamports r / 1000000000 /\
    totalFeeSol r = totalFeeLamports r / 1000000000.
Proof.
  intros x L r. unfold r, L, calculateRecommendedFees; cbn.
  repeat split; reflexivity.
Qed.

Lemma run_getTipFloor {B} (net : Request -> Response B) :
  run getTipFloor net =
    ([tip_floor_request],
     if ok (net tip_floor_request)
     then inr (json (net tip_floor_request))
     else inl (FailedToFetchTipFloor (status (net tip_floor_request)))).
Proof.
  unfold run, getTipFloor, mbind, IO_bind, bind, fetch; cbn.
  fold tip_floor_request.
  destruct (ok (net tip_floor_request)); reflexivity.
Qed.

Lemma run_getRecommendedFeeFromTipFloor net percentile :
  run (getRecommendedFeeFromTipFloor percentile) net =
    ([tip_floor_request],
     if ok (net tip_floor_request)
     then match json (net tip_floor_request) with
          | None | Some [] => inl NoTipFloorDataAvailable
          | Some (latestData :: _) =>
              inr (calculateRecommendedFees
                     (tipAmount (default P75 percentile) latestData / 0.3))
          end
     else inl (FailedToFetchTipFloor (status (net tip_floor_request)))).
Proof.
  unfold run, getRecommendedFeeFromTipFloor, mbind, IO_bind, bind.
  pose proof (run_getTipFloor net) as H. unfold run in H. rewrite H.
  destruct (ok (net tip_floor_request)); [|reflexivity].
  destruct (json (net tip_floor_request)) as [[|d l]|]; reflexivity.
Qed.

(** C3: the recommendation is built from the sample at index 0 of the
    fetched sequence, whatever follows it, with one request.  The field
    read is [landed_tips_50th_percentile] for P50,
    [landed_tips_75th_percentile] for P75 and for an omitted percentile,
    [landed_tips_95th_percentile] for P95 and [landed_tips_99th_percentile]
    for P99; that value divided by 0.3 is the budget handed to
    [calculateRecommendedFees].  When the 75th percentile of that sample is
    0.0003 and the percentile is P75, the priority fee is 700000 lamports
    and the tip 300000 lamports. *)
Theorem C3_fee_from_newest_sample :
  forall (net : Request -> Response (option (list TipFloorData)))
         (percentile : option TipPercentile)
         (latestData : TipFloorData) (rest : list TipFloorData),
    ok (net tip_floor_request) = true ->
    json (net tip_floor_request) = Some (latestData :: rest) ->
    let result := run (getRecommendedFeeFromTipFloor percentile) net in
    (percentile = Some P50 ->
       result = ([tip_floor_request],
                 inr (calculateRecommendedFees
                        (landed_tips_50th_percentile latestData / 0.3)))) /\
    (percentile = Some P75 \/ percentile = None ->
       result = ([tip_floor_request],
                 inr (calculateRecommendedFees
                        (landed_tips_75th_percentile latestData / 0.3)))) /\
    (percentile = Some P95 ->
       result = ([tip_floor_request],
                 inr (calculateRecommendedFees
                        (landed_tips_95th_percentile latestData / 0.3)))) /\
    (percentile = Some P99 ->
       result = ([tip_floor_request],
                 inr (calculateRecommendedFees
                        (landed_tips_99th_percentile latestData / 0.3)))) /\
    (percentile = Some P75 \/ percentile = None ->
     landed_tips_75th_percentile latestData = 0.0003 ->
     exists r,
       snd result = inr r /\
       priorityFeeLamports r = 700000 /\ jitoTipLamports r = 300000).
Proof.
  intros net percentile latestData rest Hok Hjson result. unfold result.
  rewrite run_getRecommendedFeeFromTipFloor, Hok, Hjson; cbn [snd].
  repeat apply conj.
  - intros ->. reflexivity.
  - intros [->| ->]; reflexivity.
  - intros ->. reflexivity.
  - intros ->. reflexivity.
  - intros Hp Htip. eexists; split; [reflexivity|].
    assert (Hd : default P75 percentile = P75) by (destruct Hp as [->| ->]; reflexivity).
    rewrite Hd. cbn [tipAmount]. rewrite Htip.
    vm_compute. split; reflexivity.
Qed.

Lemma C3_witness :
  run (getRecommendedFeeFromTipFloor (Some P75))
      (fun _ => {| ok := true; status := 200; json := Some [sample_0003] |})
    = ([tip_floor_request], inr (calculateRecommendedFees (0.0003 / 0.3))) /\
  exists r,
    snd (run (getRecommendedFeeFromTipFloor (Some P75))
           (fun _ => {| ok := true; status := 200; json := Some [sample_0003] |}))
      = inr r /\
    priorityFeeLamports r = 700000 /\ jitoTipLamports r = 300000.
Proof.
  destruct (C3_fee_from_newest_sample
              (fun _ => {| ok := true; status := 200; json := Some [sample_0003] |})
              (Some P75) sample_0003 [] eq_refl eq_refl) as (_ & H75 & _ & _ & H).
  split; [exact (H75 (or_introl eq_refl))|exact (H (or_introl eq_refl) eq_refl)].
Defined.

(** The other percentiles read other fields of the same sample. *)
Example fee_from_the_99th_percentile :
  snd (run (getRecommendedFeeFromTipFloor (Some P99))
         (fun _ => {| ok := true; status := 200; json := Some [sample_0003] |}))
    = inr (calculateRecommendedFees (0.0005 / 0.3)).
Proof. reflexivity. Qed.

(** ** The minimum-tip floor *)

Lemma ltb_leb a b : NN a -> NN b -> (a <? b) = true -> (a <=? b) = true.
Proof.
  intros Ha Hb H. apply leb_ole; [assumption..|].
  apply ltb_olt in H; [|assumption..].
  destruct (ext (Prim2SF a)), (ext (Prim2SF b)); cbn in *; try tauto. lra.
Qed.

Lemma leb_nnf a b :
  NN a -> nnf (Prim2SF b) = true -> (a <=? b) = true -> nnf (Prim2SF a) = true.
Proof.
  unfold NN. rewrite leb_spec. intros Ha Hb.
  destruct (Prim2SF a) as [|[|]| |[|]]; try discriminate; try (intros _; exact Ha).
  destruct (Prim2SF b) as [|[|]| |[|]]; discriminate.
Qed.

Lemma floor_int x :
  NN x -> nnf (Prim2SF (Math_floor x)) = true ->
  exists z, (0 <= z)%Z /\ (SF2Q (Prim2SF (Math_floor x)) == inject_Z z)%Q.
Proof.
  intros Hx. rewrite Prim2SF_floor by assumption.
  destruct (nn_cases _ Hx) as [Hf|Hinf].
  - intros _. destruct (SFfloor_nnf _ Hf) as [_ Hv].
    exists (Qfloor (SF2Q (Prim2SF x))). split; [|exact Hv].
    pose proof (nnf_SF2Q_nonneg _ Hf) as H0.
    apply Qfloor_resp_le in H0. exact H0.
  - rewrite Hinf. discriminate.
Qed.

Lemma add_int a b pa pb :
  nnf (Prim2SF a) = true -> nnf (Prim2SF b) = true ->
  (SF2Q (Prim2SF a) == inject_Z pa)%Q -> (SF2Q (Prim2SF b) == inject_Z pb)%Q ->
  (0 <= pa)%Z -> (0 <= pb)%Z -> (pa + pb < 2 ^ 53)%Z ->
  nnf (Prim2SF (a + b)) = true /\
  (SF2Q (Prim2SF (a + b)) == inject_Z (pa + pb))%Q.
Proof.
  intros Ha Hb Va Vb H0a H0b Hs.
  pose proof (add_Rounds a b (nnf_nn _ Ha) (nnf_nn _ Hb)) as Hr.
  rewrite (nnf_ext _ Ha), (nnf_ext _ Hb) in Hr. cbn [oadd] in Hr.
  apply Rounds_int; [lia|].
  eapply Rounds_compat; [|exact Hr].
  rewrite Va, Vb, inject_Z_plus. change (pow2 0) with 1%Q. ring.
Qed.

Lemma SF2Q_1000 : (SF2Q (Prim2SF 1000) == 1000)%Q.
Proof. vm_compute. reflexivity. Qed.

Lemma SF2Q_2333 : (SF2Q (Prim2SF 2333) == 2333)%Q.
Proof. vm_compute. reflexivity. Qed.

Lemma lamports_below_3334 x :
  NN x -> (rawTip x <? 1000) = true -> (x * LAMPORTS_PER_SOL <? 3334) = true.
Proof.
  intros Hx Hlt.
  pose proof (NN_mul x _ Hx normal_LAMPORTS_PER_SOL) as HL.
  assert (H34 : NN 3334) by reflexivity.
  destruct (x * LAMPORTS_PER_SOL <? 3334) eqn:E; [reflexivity|exfalso].
  apply ltb_false_leb in E; [|assumption..].
  assert (Hm : (Math_floor (3334 * 0.3) <=? rawTip x) = true).
  { apply floor_mono; [apply NN_mul; [assumption|exact normal_03]..|].
    apply mul_mono; [assumption..|exact normal_03|exact E]. }
  assert (Hc : Math_floor (3334 * 0.3) = 1000) by (vm_compute; reflexivity).
  rewrite Hc in Hm.
  apply (leb_ltb_false 1000 (rawTip x)); [reflexivity|apply NN_rawTip|..]; assumption.
Qed.

Lemma priority_at_most_2333 x :
  NN x -> (rawTip x <? 1000) = true ->
  (Math_floor (x * LAMPORTS_PER_SOL * 0.7) <=? 2333) = true.
Proof.
  intros Hx Hlt.
  pose proof (NN_mul x _ Hx normal_LAMPORTS_PER_SOL) as HL.
  assert (H34 : NN 3334) by reflexivity.
  pose proof (lamports_below_3334 x Hx Hlt) as H.
  apply ltb_leb in H; [|assumption..].
  assert (Hc : Math_floor (3334 * 0.7) = 2333) by (vm_compute; reflexivity).
  rewrite <- Hc.
  apply floor_mono; [apply NN_mul; [assumption|exact normal_07]..|].
  apply mul_mono; [assumption..|exact normal_07|exact H].
Qed.

Lemma below_floor_total_exceeds_split x :
  NN x -> (rawTip x <? 1000) = true ->
  let priority := Math_floor (x * LAMPORTS_PER_SOL * 0.7) in
  (priority + rawTip x <? priority + 1000) = true.
Proof.
  intros Hx Hlt priority.
  pose proof (NN_priority x Hx) as HP. fold priority in HP.
  pose proof (NN_rawTip x Hx) as HT.
  pose proof (priority_at_most_2333 x Hx Hlt) as HP2. fold priority in HP2.
  assert (F1000 : nnf (Prim2SF 1000) = true) by reflexivity.
  assert (F2333 : nnf (Prim2SF 2333) = true) by reflexivity.
  assert (FP : nnf (Prim2SF priority) = true) by (eapply leb_nnf; eassumption).
  assert (FT : nnf (Prim2SF (rawTip x)) = true).
  { eapply leb_nnf; [exact HT|exact F1000|]. apply ltb_leb; [assumption|reflexivity|assumption]. }
  destruct (floor_int _ (NN_mul _ _ (NN_mul _ _ Hx normal_LAMPORTS_PER_SOL) normal_07) FP)
    as (p & Hp0 & Vp). fold priority in Vp.
  destruct (floor_int _ (NN_mul _ _ (NN_mul _ _ Hx normal_LAMPORTS_PER_SOL) normal_03) FT)
    as (t & Ht0 & Vt). fold (rawTip x) in Vt.
  (* the bounds, as integers *)
  assert (Hp : (p <= 2333)%Z).
  { rewrite leb_spec in HP2. apply nnf_leb in HP2; [|assumption..].
    rewrite Vp, SF2Q_2333 in HP2.
    change 2333%Q with (inject_Z 2333) in HP2. rewrite <- Zle_Qle in HP2. exact HP2. }
  assert (Ht : (t < 1000)%Z).
  { rewrite ltb_spec in Hlt. apply nnf_ltb in Hlt; [|assumption..].
    rewrite Vt, SF2Q_1000 in Hlt.
    change 1000%Q with (inject_Z 1000) in Hlt. rewrite <- Zlt_Qlt in Hlt. exact Hlt. }
  assert (V1000 : (SF2Q (Prim2SF 1000) == inject_Z 1000)%Q) by exact SF2Q_1000.
  destruct (add_int priority (rawTip x) p t FP FT Vp Vt Hp0 Ht0 ltac:(lia)) as [F1 V1].
  destruct (add_int priority 1000 p 1000 FP F1000 Vp V1000 Hp0 ltac:(lia) ltac:(lia))
    as [F2 V2].
  rewrite ltb_spec. apply nnf_ltb; [assumption..|].
  rewrite V1, V2, <- Zlt_Qlt. lia.
Qed.

Lemma Prim2SF_1000 :
  Prim2SF 1000 = S754_finite false 8796093022208000 (-43).
Proof. reflexivity. Qed.

(** Below zero, the sum of the two floored shares is less than the floored
    70% share plus 1000. *)
Lemma negative_total_exceeds_split L :
  ng L = true -> nnf (SFopp L) = true ->
  let P := SFfloor (SFmul prec emax L (Prim2SF 0.7)) in
  let T := SFfloor (SFmul prec emax L (Prim2SF 0.3)) in
  SFltb (SFadd prec emax P T) (SFadd prec emax P (Prim2SF 1000)) = true.
Proof.
  intros HL FL P T.
  pose proof (nnf_SF2Q_nonneg _ FL) as Hl0.
  destruct (negative_share L _ _ HL FL normal_07 SF2Q_07 eq_refl ltac:(discriminate))
    as (HP & FP & LP & UP). fold P in HP, FP, LP, UP.
  destruct (negative_share L _ _ HL FL normal_03 SF2Q_03 eq_refl ltac:(discriminate))
    as (HT & FT & LT & UT). fold T in HT, FT, LT, UT.
  set (l := SF2Q (SFopp L)) in *.
  pose proof (nnf_SF2Q_nonneg _ FP) as Ha0. pose proof (nnf_SF2Q_nonneg _ FT) as Hb0.
  pose proof pow2_m1075_small as Hd. pose proof (pow2_pos (-1075)) as Hd0.
  rewrite (SFadd_ng_ng P T HP HT).
  pose proof (SFadd_Rounds _ _ (nnf_nn _ FP) (nnf_nn _ FT)) as Hs.
  rewrite (nnf_ext _ FP), (nnf_ext _ FT) in Hs. cbn [oadd] in Hs.
  set (s := SFadd prec emax (SFopp P) (SFopp T)) in *.
  pose proof (Rounds_nn _ _ Hs) as Ns.
  set (va := SF2Q (SFopp P)) in *. set (vb := SF2Q (SFopp T)) in *.
  rewrite Prim2SF_1000.
  assert (Hb : bounded prec emax 8796093022208000 (-43) = true) by reflexivity.
  assert (V1000 : (inject_Z 8796093022208000 * pow2 (-43) == 1000)%Q)
    by (vm_compute; reflexivity).
  destruct (SFadd_ng_pos_Rounds P _ _ 1000%Q HP FP Hb V1000) as [Hle Hgt].
  fold va in Hle, Hgt.
  set (t := SFadd prec emax P (S754_finite false 8796093022208000 (-43))) in *.
  pose proof (Rounds_repr _ (nnf_nn _ FP)) as Ra. rewrite (nnf_ext _ FP) in Ra.
  fold va in Ra.
  destruct (Qlt_le_dec 1000 va) as [Hbig|Hsmall].
  - (* both sides are negative *)
    specialize (Hgt Hbig). set (g := SFopp t) in *.
    pose proof (Rounds_nn _ _ Hgt) as Ng.
    rewrite <- (SFopp_involutive t). fold g.
    rewrite (SFltb_opp s g Ns Ng). apply nn_ltb; [assumption..|].
    assert (Hga : SFleb g (SFopp P) = true).
    { eapply Rounds_mono; [exact Hgt|exact Ra|]. cbn [ole]. lra. }
    pose proof (SFleb_nnf _ _ Ng FP Hga) as Fg.
    apply nnf_leb in Hga; [|assumption..]. fold va in Hga.
    rewrite (nnf_ext _ Fg).
    destruct (Rounds_error _ _ Hs) as [->|(Fs & Lo & _)]; [exact I|].
    rewrite (nnf_ext _ Fs). cbn [olt].
    clearbody va vb l s g t. lra.
  - (* the total is not negative *)
    specialize (Hle Hsmall). pose proof (Rounds_nn _ _ Hle) as Nt.
    apply SFltb_opp_nn; [assumption..|].
    destruct (Qlt_le_dec 0 va) as [Hpos|Hzero].
    + left.
      assert (Has : SFleb (SFopp P) s = true).
      { eapply Rounds_mono; [exact Ra|exact Hs|]. cbn [ole]. lra. }
      destruct (nn_cases _ Ns) as [Fs|Es]; [|rewrite Es; exact I].
      apply nnf_leb in Has; [|assumption..]. fold va in Has.
      rewrite (nnf_ext _ Fs). cbn [olt]. lra.
    + right.
      apply (Rounds_compat _ (inject_Z 1000 * pow2 0)%Q) in Hle.
      2:{ change (pow2 0) with 1%Q. change (inject_Z 1000) with 1000%Q. lra. }
      apply Rounds_int in Hle as [Ft Vt]; [|lia].
      rewrite (nnf_ext _ Ft). cbn [olt]. rewrite Vt. reflexivity.
Qed.

Lemma is_nan_nan x : is_nan x = true -> x = nan.
Proof.
  intros H. rewrite <- (SF2Prim_Prim2SF x).
  destruct (Prim2SF x) eqn:E; try reflexivity;
    exfalso; unfold is_nan in H; rewrite FloatAxioms.eqb_spec in H; unfold SFeqb in H;
    rewrite SFcompare_refl in H by (rewrite E; discriminate); discriminate.
Qed.

Lemma Prim2SF_floor_NG x : NG x -> Prim2SF (Math_floor x) = SFfloor (Prim2SF x).
Proof.
  intros Hx. unfold Math_floor. apply Prim2SF_SF2Prim, ng_valid, SFfloor_ng, Hx.
Qed.

(** The lamport amount of a negative budget is [-Infinity], or finite. *)
Lemma NG_cases x :
  NG x -> x = neg_infinity \/ nnf (SFopp (Prim2SF x)) = true.
Proof.
  unfold NG. intros H. rewrite <- (SF2Prim_Prim2SF x).
  destruct (Prim2SF x) as [[|]|[|]| |[|] m e] eqn:E; try discriminate.
  - right. reflexivity.
  - left. reflexivity.
  - right. rewrite Prim2SF_SF2Prim by (rewrite <- E; apply Prim2SF_valid). exact H.
Qed.

Lemma NG_total_exceeds_split x :
  NG x -> nnf (SFopp (Prim2SF (x * LAMPORTS_PER_SOL))) = true ->
  let priority := Math_floor (x * LAMPORTS_PER_SOL * 0.7) in
  (priority + rawTip x <? priority + 1000) = true.
Proof.
  intros Hx FL priority.
  pose proof (NG_mul x _ Hx normal_LAMPORTS_PER_SOL) as HL.
  unfold priority, rawTip.
  rewrite ltb_spec, !add_spec,
    (Prim2SF_floor_NG _ (NG_mul _ _ HL normal_07)),
    (Prim2SF_floor_NG _ (NG_mul _ _ HL normal_03)), !(mul_spec (x * LAMPORTS_PER_SOL)).
  apply negative_total_exceeds_split; assumption.
Qed.

Lemma eqb_neg_infinity_NN a : NN a -> (a =? neg_infinity) = false.
Proof.
  unfold NN. rewrite FloatAxioms.eqb_spec.
  change (Prim2SF neg_infinity) with (S754_infinity true).
  destruct (Prim2SF a) as [[|]|[|]| |[|]]; cbn; congruence.
Qed.

Lemma eqb_neg_infinity_finite a :
  nnf (SFopp (Prim2SF a)) = true -> (a =? neg_infinity) = false.
Proof.
  rewrite FloatAxioms.eqb_spec.
  change (Prim2SF neg_infinity) with (S754_infinity true).
  destruct (Prim2SF a) as [[|]|[|]| |[|]]; cbn; congruence.
Qed.

(** C4, as stated, fails: a negative input whose lamport amount overflows
    has a raw tip below 1000 and a tip clamped to 1000, but its total,
    [-Infinity], does not exceed the sum of the two raw shares, which is
    [-Infinity] too. *)
Lemma C4_total_does_not_exceed_split_at_minus_1e300 :
  let x := (-1e300)%float in
  let r := calculateRecommendedFees x in
  (rawTip x <? 1000) = true /\
  jitoTipLamports r = 1000 /\
  (priorityFeeLamports r + rawTip x <? totalFeeLamports r) = false.
Proof. vm_compute. repeat split; reflexivity. Qed.

(** C4, amended: whenever the raw 30% share [floor(totalFeeSol * 1e9 * 0.3)]
    is below 1000 the tip is exactly 1000 lamports; and the total is then
    greater than the sum of the two raw shares
    [floor(L * 0.7) + floor(L * 0.3)] exactly when the lamport amount
    [L = totalFeeSol * 1e9] is not [-Infinity]: for every budget that is
    zero, positive or negative, but for the negative ones whose conversion
    to lamports overflows. *)
Theorem C4_floor_clamps_the_tip :
  forall x : number,
    let r := calculateRecommendedFees x in
    (rawTip x <? 1000) = true ->
    jitoTipLamports r = 1000 /\
    ((priorityFeeLamports r + rawTip x <? totalFeeLamports r) = true
       <-> (x * LAMPORTS_PER_SOL =? neg_infinity) = false).
Proof.
  intros x r Hlt.
  assert (HT : jitoTipLamports r = 1000).
  { unfold r, calculateRecommendedFees; cbn [jitoTipLamports].
    fold (rawTip x). apply Math_max_below; [exact Hlt|reflexivity..]. }
  split; [exact HT|].
  assert (Hr : (priorityFeeLamports r + rawTip x <? totalFeeLamports r)
               = (Math_floor (x * LAMPORTS_PER_SOL * 0.7) + rawTip x
                    <? Math_floor (x * LAMPORTS_PER_SOL * 0.7) + 1000)).
  { unfold r, calculateRecommendedFees in *; cbn in *. fold (rawTip x) in *.
    rewrite HT. reflexivity. }
  rewrite Hr. clear Hr HT r.
  assert (Hn : is_nan x = false).
  { destruct (is_nan x) eqn:E; [|reflexivity].
    apply is_nan_nan in E. subst x. vm_compute in Hlt. discriminate. }
  destruct (not_nan_cases x Hn) as [Hx|Hx].
  - (* not negative *)
    pose proof (NN_mul x _ Hx normal_LAMPORTS_PER_SOL) as HL.
    rewrite (eqb_neg_infinity_NN _ HL).
    pose proof (below_floor_total_exceeds_split x Hx Hlt) as H. cbv zeta in H.
    rewrite H. split; reflexivity.
  - (* negative *)
    pose proof (NG_mul x _ Hx normal_LAMPORTS_PER_SOL) as HL.
    destruct (NG_cases _ HL) as [Einf|FL].
    + unfold rawTip. rewrite Einf. vm_compute. split; discriminate.
    + rewrite (eqb_neg_infinity_finite _ FL).
      pose proof (NG_total_exceeds_split x Hx FL) as H. cbv zeta in H.
      rewrite H. split; reflexivity.
Qed.

Lemma C4_witness :
  let r := calculateRecommendedFees 0.000002 in
  (rawTip 0.000002 <? 1000) = true /\
  jitoTipLamports r = 1000 /\
  (priorityFeeLamports r + rawTip 0.000002 <? totalFeeLamports r) = true.
Proof.
  intros r.
  destruct (C4_floor_clamps_the_tip 0.000002 eq_refl) as [H1 H2].
  split; [reflexivity|]. split; [exact H1|exact (proj2 H2 eq_refl)].
Defined.

(** Below zero the floor always applies: at -1 SOL the two raw shares add
    up to -1000000000 lamports and the total is -699999000. *)
Example total_exceeds_split_below_zero :
  let r := calculateRecommendedFees (-1) in
  (rawTip (-1) <? 1000) = true /\
  jitoTipLamports r = 1000 /\ totalFeeLamports r = (-699999000)%float /\
  priorityFeeLamports r + rawTip (-1) = (-1000000000)%float.
Proof. vm_compute. repeat split; reflexivity. Qed.

(** The total is compared with the sum of the two raw shares, not with the
    converted input itself: at 0.0000033332 SOL the tip is floored, and the
    total, 3333 lamports, is below the 3333.2 lamports asked for. *)
Example floored_total_below_the_converted_input :
  let r := calculateRecommendedFees 0.0000033332 in
  (rawTip 0.0000033332 <? 1000) = true /\
  jitoTipLamports r = 1000 /\ totalFeeLamports r = 3333 /\
  (totalFeeLamports r <? 0.0000033332 * LAMPORTS_PER_SOL) = true.
Proof. vm_compute. repeat split; reflexivity. Qed.

(** ** The status branch *)

(** C5, as stated, fails: a response whose [status] field holds none of
    the four values enters the status branch, where no line is printed; it
    is not classified, UNKNOWN or otherwise. *)
Lemma C5_unrecognized_status_is_not_classified :
  let response : gmap string JSON := {[ "status" := JStr "Timeout" ]} in
  strict_eq_str (response !! "confirmation_status") "confirmed" = false /\
  response !! "status" = Some (JStr "Timeout") /\
  response !! "err" = None /\
  reportInflightStatus response = Silent /\
  classify response = None.
Proof. vm_compute. repeat split; reflexivity. Qed.

(** C5, amended: the branches are tried in this order, each only when the
    earlier ones do not apply: [confirmation_status] equal to "confirmed"
    gives CONFIRMED with the slot; otherwise a present [status] decides
    alone: LANDED with [landed_slot] (or no slot), FAILED or INVALID without
    detail, PENDING, and for any other value no classification at all,
    whatever [err] holds; otherwise, without a [status] field, a truthy
    [err] gives FAILED with the payload, and any other response gives
    UNKNOWN. *)
Theorem C5_status_precedence :
  forall inflightStatus : gmap string JSON,
    let confirmed :=
      strict_eq_str (inflightStatus !! "confirmation_status") "confirmed" in
    (confirmed = true ->
       classify inflightStatus = Some (CONFIRMED (inflightStatus !! "slot"))) /\
    (confirmed = false ->
       (inflightStatus !! "status" = Some (JStr "Landed") ->
          classify inflightStatus
            = Some (LANDED (inflightStatus !! "landed_slot"))) /\
       (inflightStatus !! "status" = Some (JStr "Failed") ->
          classify inflightStatus = Some (FAILED None)) /\
       (inflightStatus !! "status" = Some (JStr "Invalid") ->
          classify inflightStatus = Some INVALID) /\
       (inflightStatus !! "status" = Some (JStr "Pending") ->
          classify inflightStatus = Some PENDING) /\
       (forall st : JSON,
          inflightStatus !! "status" = Some st ->
          st <> JStr "Landed" -> st <> JStr "Failed" ->
          st <> JStr "Invalid" -> st <> JStr "Pending" ->
          reportInflightStatus inflightStatus = Silent /\
          classify inflightStatus = None) /\
       (inflightStatus !! "status" = None ->
          (forall err, inflightStatus !! "err" = Some err -> truthy err = true ->
             classify inflightStatus = Some (FAILED (Some err))) /\
          (forall err, inflightStatus !! "err" = Some err -> truthy err = false ->
             classify inflightStatus = Some UNKNOWN) /\
          (inflightStatus !! "err" = None ->
             classify inflightStatus = Some UNKNOWN))).
Proof.
  intros s confirmed. unfold classify, reportInflightStatus. fold confirmed.
  split.
  - intros ->. reflexivity.
  - intros ->. repeat apply conj.
    + intros ->. reflexivity.
    + intros ->. reflexivity.
    + intros ->. reflexivity.
    + intros ->. reflexivity.
    + intros st -> HL HF HI HP.
      destruct st as [|b|n|t|items|fields]; cbn [strict_eq_str];
        try (split; reflexivity).
      destruct (String.eqb_spec t "Landed") as [->|_]; [contradiction|].
      destruct (String.eqb_spec t "Failed") as [->|_]; [contradiction|].
      destruct (String.eqb_spec t "Invalid") as [->|_]; [contradiction|].
      destruct (String.eqb_spec t "Pending") as [->|_]; [contradiction|].
      split; reflexivity.
    + intros ->. repeat apply conj.
      * intros err -> ->. reflexivity.
      * intros err -> ->. reflexivity.
      * intros ->. reflexivity.
Qed.

(** The responses of the specification's examples. *)
Example landed_at_42 :
  classify {[ "status" := JStr "Landed"; "landed_slot" := JNum 42 ]}
    = Some (LANDED (Some (JNum 42))).
Proof. vm_compute. reflexivity. Qed.

Example confirmed_at_7 :
  classify {[ "confirmation_status" := JStr "confirmed"; "slot" := JNum 7 ]}
    = Some (CONFIRMED (Some (JNum 7))).
Proof. vm_compute. reflexivity. Qed.

Example confirmed_wins_over_status :
  classify {[ "confirmation_status" := JStr "confirmed";
              "status" := JStr "Failed"; "err" := JStr "boom" ]}
    = Some (CONFIRMED None).
Proof. vm_compute. reflexivity. Qed.

Example status_wins_over_err :
  classify {[ "status" := JStr "Pending"; "err" := JStr "boom" ]}
    = Some PENDING.
Proof. vm_compute. reflexivity. Qed.

(** A [status] that is none of the four values enters the [status] branch,
    which then prints nothing: [err] is not looked at. *)
Example unrecognized_status_is_silent :
  reportInflightStatus {[ "status" := JStr "Dropped"; "err" := JStr "boom" ]}
    = Silent.
Proof. vm_compute. reflexivity. Qed.

Example null_err_is_unknown :
  classify {[ "err" := JNull ]} = Some UNKNOWN.
Proof. vm_compute. reflexivity. Qed.

(** ** The tip-floor fetch *)

(** C6, as stated, fails: on a successful response whose body is the empty
    sequence, [getTipFloor] returns that sequence and does not fail. *)
Lemma C6_getTipFloor_returns_empty_sequence :
  let net : Request -> Response (option (list TipFloorData)) :=
    fun _ => {| ok := true; status := 200; json := Some [] |} in
  run getTipFloor net = ([tip_floor_request], inr (Some [])) /\
  forall e, snd (run getTipFloor net) <> inl e.
Proof.
  intros net. rewrite run_getTipFloor. cbn. split; [reflexivity|discriminate].
Qed.

(** C6, amended: [getTipFloor] fails (UnavailableError) exactly when the HTTP
    status is not successful and otherwise returns the body as it is, empty or
    not; the empty body is refused (EmptyDataError) by its caller
    [getRecommendedFeeFromTipFloor], which also passes the fetch failure on. *)
Theorem C6_tip_floor_failures :
  forall (net : Request -> Response (option (list TipFloorData)))
         (percentile : option TipPercentile),
    let response := net tip_floor_request in
    let fetched := snd (run getTipFloor net) in
    let recommended := snd (run (getRecommendedFeeFromTipFloor percentile) net) in
    (ok response = false ->
       (exists e, fetched = inl e /\ kind e = UnavailableError) /\
       (exists e, recommended = inl e /\ kind e = UnavailableError)) /\
    (ok response = true ->
       fetched = inr (json response) /\
       (json response = Some [] \/ json response = None ->
          exists e, recommended = inl e /\ kind e = EmptyDataError)).
Proof.
  intros net percentile response fetched recommended.
  unfold fetched, recommended.
  rewrite run_getTipFloor, run_getRecommendedFeeFromTipFloor. fold response.
  split; intros ->; cbn [snd].
  - split; eexists; split; reflexivity.
  - split; [reflexivity|].
    intros [-> | ->]; eexists; split; reflexivity.
Qed.

Example tip_floor_unavailable_at_503 :
  run (getRecommendedFeeFromTipFloor None)
      (fun _ => {| ok := false; status := 503; json := None |})
    = ([tip_floor_request], inl (FailedToFetchTipFloor 503)).
Proof. reflexivity. Qed.

Example tip_floor_empty :
  run (getRecommendedFeeFromTipFloor (Some P95))
      (fun _ => {| ok := true; status := 200; json := Some [] |})
    = ([tip_floor_request], inl NoTipFloorDataAvailable).
Proof. reflexivity. Qed.

(** ** Bundle simulation *)

Lemma run_simulateBundle {B} (net : Request -> Response B) params rpcUrl :
  rpcUrl <> ""%string ->
  let rq := {| url := rpcUrl; method := "POST";
               headers := [("Content-Type", "application/json")]%string;
               body := Some (requestBody params) |} in
  run (simulateBundle params (Some rpcUrl)) net =
    ([rq], if ok (net rq) then inr (json (net rq))
           else inl (FailedToSimulateBundle (status (net rq)))).
Proof.
  intros Hne rq. unfold run, simulateBundle.
  destruct (String.eqb rpcUrl "") eqn:E.
  { apply String.eqb_eq in E. contradiction. }
  unfold mbind, IO_bind, bind, fetch; cbn. fold rq.
  destruct (ok (net rq)); reflexivity.
Qed.

(** C7: without an endpoint (missing, or the empty string) [simulateBundle]
    fails with ConfigurationError and issues no request; with one it issues
    exactly one POST whose body is the JSON-RPC call "simulateBundle" with a
    one-element [params] array holding the transactions and the two flags,
    each [false] when omitted, and fails with TransportError when the
    response status is not successful. *)
Theorem C7_simulateBundle :
  forall (B : Type) (net : Request -> Response B) (params : SimulateBundleParams),
    (forall rpcEndpoint,
       rpcEndpoint = None \/ rpcEndpoint = Some ""%string ->
       run (simulateBundle params rpcEndpoint) net = ([], inl RpcEndpointRequired)
       /\ kind RpcEndpointRequired = ConfigurationError) /\
    (forall rpcUrl : string,
       rpcUrl <> ""%string ->
       let rq :=
         {| url := rpcUrl; method := "POST";
            headers := [("Content-Type", "application/json")]%string;
            body := Some (JObj [
              ("jsonrpc", JStr "2.0");
              ("id", JStr "1");
              ("method", JStr "simulateBundle");
              ("params", JArr [
                 JObj [
                   ("encodedTransactions",
                      JArr (map JStr (encodedTransactions params)));
                   ("skipSigVerify",
                      JBool (match skipSigVerify params with
                             | Some b => b | None => false end));
                   ("replaceRecentBlockhash",
                      JBool (match replaceRecentBlockhash params with
                             | Some b => b | None => false end))
                 ]
               ])
            ]%string) |} in
       fst (run (simulateBundle params (Some rpcUrl)) net) = [rq] /\
       (ok (net rq) = true ->
          snd (run (simulateBundle params (Some rpcUrl)) net) = inr (json (net rq))) /\
       (ok (net rq) = false ->
          exists e,
            snd (run (simulateBundle params (Some rpcUrl)) net) = inl e /\
            kind e = TransportError)).
Proof.
  intros B net params. split.
  - intros ep [-> | ->]; split; reflexivity.
  - intros rpcUrl Hne rq.
    assert (Hbody : rq = {| url := rpcUrl; method := "POST";
                            headers := [("Content-Type", "application/json")]%string;
                            body := Some (requestBody params) |}).
    { unfold rq, requestBody.
      destruct params as [txs [s|] [b|]]; reflexivity. }
    rewrite (run_simulateBundle net params rpcUrl Hne), <- Hbody. cbn [fst snd].
    split; [reflexivity|]. split.
    + intros ->. reflexivity.
    + intros ->. eexists; split; reflexivity.
Qed.

Example simulateBundle_transport_failure :
  run (simulateBundle
         {| encodedTransactions := ["AQID"; "BAUG"]%string;
            skipSigVerify := None; replaceRecentBlockhash := Some true |}
         (Some "https://rpc.example"%string))
      (fun _ => {| ok := false; status := 429; json := JNull |})
    = ([{| url := "https://rpc.example"; method := "POST";
           headers := [("Content-Type", "application/json")]%string;
           body := Some (JObj [
             ("jsonrpc", JStr "2.0"); ("id", JStr "1");
             ("method", JStr "simulateBundle");
             ("params", JArr [JObj [
                ("encodedTransactions", JArr [JStr "AQID"; JStr "BAUG"]);
                ("skipSigVerify", JBool false);
                ("replaceRecentBlockhash", JBool true)]])]%string) |}],
       inl (FailedToSimulateBundle 429)).
Proof. reflexivity. Qed.

(** ** The random tip account *)

Lemma SF2Q_8 : (SF2Q (Prim2SF 8) == 8)%Q.
Proof. vm_compute. reflexivity. Qed.

Lemma normal_8 : is_normal_pos (Prim2SF 8) = true.
Proof. reflexivity. Qed.

Lemma SF2Q_1 : (SF2Q (Prim2SF 1) == 1)%Q.
Proof. vm_compute. reflexivity. Qed.

Lemma pow2_m3 : (pow2 (-3) == 1 # 8)%Q.
Proof. reflexivity. Qed.

Lemma pow2_3 : (pow2 3 == 8)%Q.
Proof. reflexivity. Qed.

(** Multiplying a number below one by eight is exact. *)
Lemma mul_8_exact r :
  nnf (Prim2SF r) = true -> (SF2Q (Prim2SF r) < 1)%Q ->
  nnf (Prim2SF (r * 8)) = true /\
  (SF2Q (Prim2SF (r * 8)) == SF2Q (Prim2SF r) * 8)%Q.
Proof.
  intros Hf H1.
  pose proof (mul_Rounds r 8 (nnf_nn _ Hf) normal_8) as Hr.
  rewrite (nnf_ext _ Hf) in Hr. cbn [omul] in Hr.
  assert (Hmax : (SF2Q (Prim2SF r) * SF2Q (Prim2SF 8) < pow2 1024)%Q).
  { rewrite SF2Q_8. pose proof (pow2_lt 3 1024 ltac:(lia)) as H. rewrite pow2_3 in H. lra. }
  destruct (Prim2SF r) as [s|[|]| |[|] m e] eqn:Er; try discriminate; cbn [nnf SF2Q] in *.
  - destruct (Rounds_exact _ _ 0 0 Hr) as [F V]; try lia; try assumption.
    { change (inject_Z 0) with 0%Q. ring. }
    split; [exact F|]. rewrite V, SF2Q_8. reflexivity.
  - pose proof Hf as Hb. apply bounded_iff in Hb as (He & Hm & _).
    destruct (Rounds_exact _ _ (Zpos m) (e + 3) Hr) as [F V]; try lia; try assumption.
    { rewrite SF2Q_8, pow2_add, pow2_3. ring. }
    split; [exact F|]. rewrite V, SF2Q_8. reflexivity.
Qed.

(** Dividing a small integer by eight is exact. *)
Lemma div_8_exact n :
  (0 <= n < 2 ^ 53)%Z ->
  nnf (Prim2SF (of_Z n / 8)) = true /\
  (SF2Q (Prim2SF (of_Z n / 8)) == inject_Z n * (1 # 8))%Q.
Proof.
  intros Hn. destruct (of_Z_spec n Hn) as [Hf Hv].
  pose proof (div_Rounds (of_Z n) 8 (nnf_nn _ Hf) normal_8) as Hr.
  rewrite (nnf_ext _ Hf) in Hr. cbn [odiv] in Hr.
  assert (Hq : (SF2Q (Prim2SF (of_Z n)) / SF2Q (Prim2SF 8) == inject_Z n * (1 # 8))%Q).
  { rewrite Hv, SF2Q_8. reflexivity. }
  destruct (Rounds_exact _ _ n (-3) Hr) as [F V]; try lia.
  - rewrite Hq, pow2_m3. reflexivity.
  - rewrite Hq.
    pose proof (inject_Z_lt_mult n (2 ^ 53) (pow2 0) ltac:(lia) (pow2_pos 0)) as H.
    change (inject_Z (2 ^ 53)) with 9007199254740992%Q in H.
    change (pow2 0) with 1%Q in H.
    pose proof pow2_53_lt_1024 as H2. change (pow2 0) with 1%Q in H2.
    pose proof (inject_Z_nonneg n ltac:(lia)). lra.
  - split; [exact F|]. rewrite V. exact Hq.
Qed.

Lemma ltb_1_nnf r : NN r -> (r <? 1) = true ->
  nnf (Prim2SF r) = true /\ (SF2Q (Prim2SF r) < 1)%Q.
Proof.
  intros Hr Hlt.
  assert (F1 : nnf (Prim2SF 1) = true) by reflexivity.
  assert (Hf : nnf (Prim2SF r) = true).
  { eapply leb_nnf; [exact Hr|exact F1|]. apply ltb_leb; [assumption|reflexivity|assumption]. }
  split; [exact Hf|].
  rewrite ltb_spec in Hlt. apply nnf_ltb in Hlt; [|assumption..].
  rewrite SF2Q_1 in Hlt. exact Hlt.
Qed.

Lemma TIP_ACCOUNTS_length : length TIP_ACCOUNTS = 8%nat.
Proof. reflexivity. Qed.

Lemma randomIndex_spec r :
  (0 <=? r) = true -> (r <? 1) = true ->
  let i := Qfloor (SF2Q (Prim2SF r) * 8) in
  (0 <= i < 8)%Z /\
  to_index (Math_floor (r * of_Z (Z.of_nat (length TIP_ACCOUNTS)))) = Some (Z.to_nat i).
Proof.
  intros H0 H1 i.
  pose proof (leb_zero_NN r H0) as Hr.
  destruct (ltb_1_nnf r Hr H1) as [Hf Hv1].
  pose proof (nnf_SF2Q_nonneg _ Hf) as Hv0.
  destruct (mul_8_exact r Hf Hv1) as [F8 V8].
  assert (Hi : (0 <= i < 8)%Z).
  { unfold i. split.
    - change 0%Z with (Qfloor 0). apply Qfloor_resp_le. lra.
    - assert (Hlt : (SF2Q (Prim2SF r) * 8 < inject_Z 8)%Q)
        by (change (inject_Z 8) with 8%Q; lra).
      pose proof (Qfloor_le (SF2Q (Prim2SF r) * 8)) as Hfl.
      assert (Hc : (inject_Z (Qfloor (SF2Q (Prim2SF r) * 8)) < inject_Z 8)%Q) by lra.
      rewrite <- Zlt_Qlt in Hc. exact Hc. }
  split; [exact Hi|].
  change (of_Z (Z.of_nat (length TIP_ACCOUNTS))) with 8.
  assert (N8 : NN (r * 8)) by (apply nnf_nn, F8).
  destruct (SFfloor_nnf _ F8) as [FF VF].
  rewrite <- Prim2SF_floor in FF, VF by assumption.
  apply to_index_int; [exact FF| |lia].
  rewrite VF. unfold i. rewrite V8. reflexivity.
Qed.

Lemma nth_error_In_lt {A} (l : list A) n :
  (n < length l)%nat -> exists a, nth_error l n = Some a /\ In a l.
Proof.
  intros H. destruct (nth_error l n) as [a|] eqn:E.
  - exists a. split; [reflexivity|]. eapply nth_error_In; exact E.
  - apply nth_error_None in E. lia.
Qed.

(** C8: the list has 8 distinct entries; for a draw [r] in [[0, 1)] the
    index [floor(r * 8)] is one of 0..7, the result is the entry at that
    index, hence an element of the list; and the index is [j] exactly when
    [j/8 <= r < (j+1)/8], an interval of length 1/8 for each [j]. *)
Theorem C8_random_tip_account :
  length TIP_ACCOUNTS = 8%nat /\ NoDup TIP_ACCOUNTS /\
  forall r : number,
    (0 <=? r) = true -> (r <? 1) = true ->
    exists i : nat,
      (i < 8)%nat /\
      to_index (Math_floor (r * 8)) = Some i /\
      getRandomTipAccount r = nth_error TIP_ACCOUNTS i /\
      (exists a, getRandomTipAccount r = Some a /\ In a TIP_ACCOUNTS) /\
      (forall j : nat, (j < 8)%nat ->
         (i = j <->
          (of_Z (Z.of_nat j) / 8 <=? r) && (r <? of_Z (Z.of_nat j + 1) / 8) = true) /\
         of_Z (Z.of_nat j + 1) / 8 - of_Z (Z.of_nat j) / 8 = 0.125).
Proof.
  split; [reflexivity|]. split.
  { apply (bool_decide_unpack _). vm_compute. exact I. }
  intros r H0 H1.
  destruct (randomIndex_spec r H0 H1) as [Hi Hidx].
  set (i := Qfloor (SF2Q (Prim2SF r) * 8)) in *.
  pose proof (leb_zero_NN r H0) as Hr.
  destruct (ltb_1_nnf r Hr H1) as [Hf Hv1].
  exists (Z.to_nat i).
  assert (Hlt : (Z.to_nat i < 8)%nat) by lia.
  assert (Hget : getRandomTipAccount r = nth_error TIP_ACCOUNTS (Z.to_nat i)).
  { unfold getRandomTipAccount, array_get. rewrite Hidx. reflexivity. }
  repeat apply conj.
  - exact Hlt.
  - exact Hidx.
  - exact Hget.
  - rewrite Hget. apply nth_error_In_lt. rewrite TIP_ACCOUNTS_length. exact Hlt.
  - intros j Hj. split.
    + destruct (div_8_exact (Z.of_nat j) ltac:(lia)) as [Flo Vlo].
      destruct (div_8_exact (Z.of_nat j + 1) ltac:(lia)) as [Fhi Vhi].
      rewrite andb_true_iff, leb_spec, ltb_spec.
      rewrite (nnf_leb _ _ Flo Hf), (nnf_ltb _ _ Hf Fhi), Vlo, Vhi.
      rewrite inject_Z_plus. change (inject_Z 1) with 1%Q.
      pose proof (Qfloor_le (SF2Q (Prim2SF r) * 8)) as Hfl.
      pose proof (Qlt_floor (SF2Q (Prim2SF r) * 8)) as Hfu.
      fold i in Hfl, Hfu. rewrite inject_Z_plus in Hfu.
      change (inject_Z 1) with 1%Q in Hfu.
      split.
      * intros <-. rewrite Z2Nat.id by lia. split; lra.
      * intros [Hlo Hhi].
        assert (Hq : Qfloor (SF2Q (Prim2SF r) * 8) = Z.of_nat j)
          by (apply Qfloor_unique; lra).
        fold i in Hq. rewrite Hq. apply Nat2Z.id.
    + do 8 (destruct j as [|j]; [vm_compute; reflexivity|]). lia.
Qed.

Example tip_account_at_one_half :
  getRandomTipAccount 0.5
    = Some "DfXygSm4jCyNCybVYYK6DwvWqjKee8pbDmJGcLWNDXjh"%string /\
  getRandomTipAccount 0.124999
    = Some "96gYZGLnJYVFmbjzopPSU6QiEV5fGqZNyN9nmNhvrZU5"%string /\
  getRandomTipAccount 0.125
    = Some "HFqU5x63VTqvQss8hp11i4wVV8bD44PvwucfZ2bU7gRe"%string.
Proof. vm_compute. repeat split; reflexivity. Qed.

(** C9: [sendTxn] receives [[transaction, {encoding: "base64"}]] when the
    encoding is omitted or base64 and [[transaction]] when it is base58, and
    [bundleOnly] defaults to [false]. *)
Theorem C9_sendTransaction_params :
  forall (R : Type) (sendTxn : JSON -> bool -> R) (params : SendTransactionParams),
    sendTransaction sendTxn params =
      sendTxn
        (match encoding params with
         | None | Some base64 =>
             JArr [JStr (transaction params); JObj [("encoding", JStr "base64")]]
         | Some base58 => JArr [JStr (transaction params)]
         end)
        (match bundleOnly params with Some b => b | None => false end).
Proof.
  intros R sendTxn [tx [[|]|] [b|]]; reflexivity.
Qed.

(** C10: for [0 <= a <= b], each of the six fields of
    [calculateRecommendedFees a] is at most the same field of
    [calculateRecommendedFees b]. *)
Theorem C10_monotone :
  forall a b : number,
    (0 <=? a) = true -> (a <=? b) = true ->
    let ra := calculateRecommendedFees a in
    let rb := calculateRecommendedFees b in
    (priorityFeeLamports ra <=? priorityFeeLamports rb) = true /\
    (jitoTipLamports ra <=? jitoTipLamports rb) = true /\
    (totalFeeLamports ra <=? totalFeeLamports rb) = true /\
    (priorityFeeSol ra <=? priorityFeeSol rb) = true /\
    (jitoTipSol ra <=? jitoTipSol rb) = true /\
    (totalFeeSol ra <=? totalFeeSol rb) = true.
Proof.
  intros a b H0 Hab ra rb.
  pose proof (leb_zero_NN a H0) as Ha. pose proof (leb_NN a b Ha Hab) as Hb.
  pose proof normal_LAMPORTS_PER_SOL as N9.
  pose proof (NN_priority a Ha) as HPa. pose proof (NN_priority b Hb) as HPb.
  pose proof (priority_mono a b Ha Hb Hab) as HP.
  destruct (max_mono (rawTip a) (rawTip b) MIN_TIP_LAMPORTS
              (NN_rawTip a Ha) (NN_rawTip b Hb) NN_MIN_TIP eq_refl
              (rawTip_mono a b Ha Hb Hab)) as (HTa & HTb & HT).
  unfold ra, rb, calculateRecommendedFees; cbn.
  fold (rawTip a) (rawTip b).
  repeat apply conj.
  - exact HP.
  - exact HT.
  - apply add_mono; assumption.
  - apply div_mono; assumption.
  - apply div_mono; assumption.
  - apply div_mono; [apply NN_add; assumption..|exact N9|].
    apply add_mono; assumption.
Qed.

Lemma C10_witness :
  let ra := calculateRecommendedFees 0.001 in
  let rb := calculateRecommendedFees 0.002 in
  (priorityFeeLamports ra <=? priorityFeeLamports rb) = true /\
  (jitoTipLamports ra <=? jitoTipLamports rb) = true /\
  (totalFeeLamports ra <=? totalFeeLamports rb) = true /\
  (priorityFeeSol ra <=? priorityFeeSol rb) = true /\
  (jitoTipSol ra <=? jitoTipSol rb) = true /\
  (totalFeeSol ra <=? totalFeeSol rb) = true.
Proof. exact (C10_monotone 0.001 0.002 eq_refl eq_refl). Defined.

(** ** Further properties of the fee recommendation *)

Lemma NG_tip x : NG x -> Math_max (rawTip x) MIN_TIP_LAMPORTS = MIN_TIP_LAMPORTS.
Proof.
  intros Hx.
  assert (HR : NG (rawTip x)).
  { apply NG_floor, NG_mul; [|exact normal_03].
    apply NG_mul; [exact Hx|exact normal_LAMPORTS_PER_SOL]. }
  apply Math_max_below; [|reflexivity..].
  rewrite ltb_spec. exact (ng_ltb_pos _ _ _ HR).
Qed.

Lemma tip_above_minimum x :
  NN x -> (MIN_TIP_LAMPORTS <=? Math_max (rawTip x) MIN_TIP_LAMPORTS) = true.
Proof.
  intros Hx. pose proof (NN_rawTip x Hx) as HR.
  rewrite (Math_max_NN _ _ HR NN_MIN_TIP eq_refl).
  destruct (rawTip x <? MIN_TIP_LAMPORTS) eqn:E.
  - reflexivity.
  - apply ltb_false_leb; [exact HR|exact NN_MIN_TIP|exact E].
Qed.

(** X1: the tip is never below the minimum.  For every budget that is not
    NaN, [jitoTipLamports] is at least 1000 and [jitoTipSol] at least
    0.000001; for a NaN budget the floor does not apply: the tip and the
    total are NaN. *)
Theorem X1_tip_never_below_minimum :
  forall budget : number,
    let r := calculateRecommendedFees budget in
    (is_nan budget = false ->
       (1000 <=? jitoTipLamports r) = true /\
       (0.000001 <=? jitoTipSol r) = true) /\
    (is_nan budget = true ->
       is_nan (jitoTipLamports r) = true /\ is_nan (totalFeeLamports r) = true).
Proof.
  intros x r. split.
  - intros Hnan. unfold r, calculateRecommendedFees; cbn. fold (rawTip x).
    destruct (not_nan_cases x Hnan) as [Hx|Hx].
    + pose proof (tip_above_minimum x Hx) as H. split; [exact H|].
      change 0.000001 with (MIN_TIP_LAMPORTS / LAMPORTS_PER_SOL).
      apply div_mono; [exact NN_MIN_TIP|apply NN_jitoTip, Hx
                      |exact normal_LAMPORTS_PER_SOL|exact H].
    + rewrite (NG_tip x Hx). split; reflexivity.
  - intros Hnan. apply is_nan_nan in Hnan. unfold r. rewrite Hnan.
    vm_compute. split; reflexivity.
Qed.

Lemma floor_le a : NN a -> (Math_floor a <=? a) = true.
Proof.
  intros Ha. rewrite leb_spec, Prim2SF_floor by assumption.
  destruct (nn_cases _ Ha) as [Hf|Hinf].
  - destruct (SFfloor_nnf _ Hf) as [Ff Vf].
    apply nnf_leb; [assumption..|]. rewrite Vf. apply Qfloor_le.
  - rewrite Hinf. reflexivity.
Qed.

Lemma mul_share_mono L c d :
  NN L -> is_normal_pos (Prim2SF c) = true -> is_normal_pos (Prim2SF d) = true ->
  (SF2Q (Prim2SF c) <= SF2Q (Prim2SF d))%Q ->
  (L * c <=? L * d) = true.
Proof.
  intros HL Hc Hd Hcd.
  eapply Rounds_leb; [apply mul_Rounds; assumption..|].
  destruct (nn_cases _ HL) as [Hf|Hinf].
  - rewrite (nnf_ext _ Hf). cbn.
    pose proof (nnf_SF2Q_nonneg _ Hf) as H0.
    rewrite !(Qmult_comm (SF2Q (Prim2SF L))).
    apply Qmult_le_compat_r; assumption.
  - rewrite Hinf. exact I.
Qed.

Lemma mul_share_le L c :
  NN L -> is_normal_pos (Prim2SF c) = true -> (SF2Q (Prim2SF c) <= 1)%Q ->
  (L * c <=? L) = true.
Proof.
  intros HL Hc Hc1.
  eapply Rounds_leb; [apply mul_Rounds; assumption|apply Rounds_repr; exact HL|].
  destruct (nn_cases _ HL) as [Hf|Hinf].
  - rewrite (nnf_ext _ Hf). cbn.
    pose proof (nnf_SF2Q_nonneg _ Hf) as H0.
    rewrite <- (Qmult_1_r (SF2Q (Prim2SF L))) at 2.
    rewrite !(Qmult_comm (SF2Q (Prim2SF L))).
    apply Qmult_le_compat_r; assumption.
  - rewrite Hinf. exact I.
Qed.

Lemma share_07_le_1 : (SF2Q (Prim2SF 0.7) <= 1)%Q.
Proof. vm_compute. discriminate. Qed.

Lemma share_03_le_07 : (SF2Q (Prim2SF 0.3) <= SF2Q (Prim2SF 0.7))%Q.
Proof. vm_compute. discriminate. Qed.

(** X2: for a budget that is not negative, the priority fee is not
    negative and does not exceed the budget converted to lamports; the raw
    30% share does not exceed the priority fee; and when the raw share is
    at least 1000, the tip is that share, so the tip does not exceed the
    priority fee. *)
Theorem X2_shares_within_budget :
  forall budget : number,
    (0 <=? budget) = true ->
    let r := calculateRecommendedFees budget in
    (0 <=? priorityFeeLamports r) = true /\
    (priorityFeeLamports r <=? budget * LAMPORTS_PER_SOL) = true /\
    (rawTip budget <=? priorityFeeLamports r) = true /\
    ((1000 <=? rawTip budget) = true ->
       jitoTipLamports r = rawTip budget /\
       (jitoTipLamports r <=? priorityFeeLamports r) = true).
Proof.
  intros x H0 r. pose proof (leb_zero_NN x H0) as Hx.
  pose proof (NN_mul x _ Hx normal_LAMPORTS_PER_SOL) as HL.
  pose proof (NN_mul _ _ HL normal_07) as H7.
  pose proof (NN_mul _ _ HL normal_03) as H3.
  pose proof (NN_priority x Hx) as HP. pose proof (NN_rawTip x Hx) as HR.
  assert (Hshare : (rawTip x <=? Math_floor (x * LAMPORTS_PER_SOL * 0.7)) = true).
  { apply floor_mono; [assumption..|].
    apply mul_share_mono; [assumption|exact normal_03|exact normal_07|exact share_03_le_07]. }
  unfold r, calculateRecommendedFees; cbn. fold (rawTip x).
  repeat apply conj.
  - apply (leb_ole 0 _); [reflexivity|exact HP|].
    destruct (nn_cases _ HP) as [Hf|Hinf].
    + rewrite (nnf_ext _ Hf). cbn. apply (nnf_SF2Q_nonneg _ Hf).
    + rewrite Hinf. exact I.
  - apply (leb_trans _ (x * LAMPORTS_PER_SOL * 0.7)); [assumption..| |].
    + apply floor_le, H7.
    + apply mul_share_le; [assumption|exact normal_07|exact share_07_le_1].
  - exact Hshare.
  - intros Hmin.
    assert (Hlt : (rawTip x <? MIN_TIP_LAMPORTS) = false).
    { destruct (rawTip x <? MIN_TIP_LAMPORTS) eqn:E; [exfalso|reflexivity].
      exact (leb_ltb_false _ _ NN_MIN_TIP HR Hmin E). }
    rewrite (Math_max_NN _ _ HR NN_MIN_TIP eq_refl), Hlt.
    split; [reflexivity|exact Hshare].
Qed.

Lemma X2_witness :
  let r := calculateRecommendedFees 0.001 in
  (0 <=? priorityFeeLamports r) = true /\
  (priorityFeeLamports r <=? 0.001 * LAMPORTS_PER_SOL) = true /\
  (rawTip 0.001 <=? priorityFeeLamports r) = true /\
  ((1000 <=? rawTip 0.001) = true ->
     jitoTipLamports r = rawTip 0.001 /\
     (jitoTipLamports r <=? priorityFeeLamports r) = true).
Proof. exact (X2_shares_within_budget 0.001 eq_refl). Defined.

(** A finite non-negative number whose value is the integer [z] compares
    equal ([==]) to [z]. *)
Lemma eqb_of_Z (f : float) z :
  nnf (Prim2SF f) = true -> (SF2Q (Prim2SF f) == inject_Z z)%Q ->
  (0 <= z < 2 ^ 53)%Z -> (f =? of_Z z) = true.
Proof.
  intros Hf Hv Hz. destruct (of_Z_spec z Hz) as [Fz Vz].
  rewrite FloatAxioms.eqb_spec. unfold SFeqb.
  rewrite (nnf_compare _ _ Hf Fz), Qcompare_Eq; [reflexivity|].
  rewrite Hv, Vz. reflexivity.
Qed.

Lemma leb_int a b pa pb :
  nnf (Prim2SF a) = true -> nnf (Prim2SF b) = true ->
  (SF2Q (Prim2SF a) == inject_Z pa)%Q -> (SF2Q (Prim2SF b) == inject_Z pb)%Q ->
  (a <=? b) = true -> (pa <= pb)%Z.
Proof.
  intros Fa Fb Va Vb H. rewrite leb_spec in H.
  apply nnf_leb in H; [|assumption..].
  rewrite Va, Vb, <- Zle_Qle in H. exact H.
Qed.

Lemma SF2Q_63e14 : (SF2Q (Prim2SF 6300000000000000) == inject_Z 6300000000000000)%Q.
Proof. vm_compute. reflexivity. Qed.

Lemma SF2Q_27e14 : (SF2Q (Prim2SF 2700000000000000) == inject_Z 2700000000000000)%Q.
Proof. vm_compute. reflexivity. Qed.

(** X3: for a budget between 0 and 9,000,000 SOL the three lamport fields
    are whole numbers: the priority fee is an integer [p >= 0], the tip an
    integer [t >= 1000], and the total is exactly [p + t], without
    rounding. *)
Theorem X3_whole_lamports :
  forall budget : number,
    (0 <=? budget) = true -> (budget <=? 9000000) = true ->
    let r := calculateRecommendedFees budget in
    exists p t : Z,
      (0 <= p)%Z /\ (1000 <= t)%Z /\
      (priorityFeeLamports r =? of_Z p) = true /\
      (jitoTipLamports r =? of_Z t) = true /\
      (totalFeeLamports r =? of_Z (p + t)) = true.
Proof.
  intros x H0 Hmax r. pose proof (leb_zero_NN x H0) as Hx.
  assert (Hb : NN 9000000) by reflexivity.
  pose proof (NN_priority x Hx) as HP. pose proof (NN_rawTip x Hx) as HR.
  assert (F7 : nnf (Prim2SF 6300000000000000) = true) by reflexivity.
  assert (F3 : nnf (Prim2SF 2700000000000000) = true) by reflexivity.
  assert (F1000 : nnf (Prim2SF 1000) = true) by reflexivity.
  assert (HP7 : (Math_floor (x * LAMPORTS_PER_SOL * 0.7) <=? 6300000000000000) = true).
  { change 6300000000000000 with (Math_floor (9000000 * LAMPORTS_PER_SOL * 0.7)).
    apply priority_mono; assumption. }
  assert (HR3 : (rawTip x <=? 2700000000000000) = true).
  { change 2700000000000000 with (rawTip 9000000).
    apply rawTip_mono; assumption. }
  assert (FP : nnf (Prim2SF (Math_floor (x * LAMPORTS_PER_SOL * 0.7))) = true)
    by exact (leb_nnf _ _ HP F7 HP7).
  assert (FR : nnf (Prim2SF (rawTip x)) = true) by exact (leb_nnf _ _ HR F3 HR3).
  destruct (floor_int _ (NN_mul _ _ (NN_mul _ _ Hx normal_LAMPORTS_PER_SOL) normal_07) FP)
    as (p & Hp0 & Vp).
  destruct (floor_int _ (NN_mul _ _ (NN_mul _ _ Hx normal_LAMPORTS_PER_SOL) normal_03) FR)
    as (t0 & Ht0 & Vt0). fold (rawTip x) in Vt0.
  pose proof (leb_int _ _ _ _ FP F7 Vp SF2Q_63e14 HP7) as Hp.
  pose proof (leb_int _ _ _ _ FR F3 Vt0 SF2Q_27e14 HR3) as Ht.
  assert (V1000 : (SF2Q (Prim2SF 1000) == inject_Z 1000)%Q) by exact SF2Q_1000.
  (* the tip after the floor *)
  assert (HT : exists t, (1000 <= t <= 2700000000000000)%Z /\
             nnf (Prim2SF (Math_max (rawTip x) MIN_TIP_LAMPORTS)) = true /\
             (SF2Q (Prim2SF (Math_max (rawTip x) MIN_TIP_LAMPORTS)) == inject_Z t)%Q).
  { rewrite (Math_max_NN _ _ HR NN_MIN_TIP eq_refl).
    destruct (rawTip x <? MIN_TIP_LAMPORTS) eqn:E.
    - exists 1000%Z. split; [lia|]. split; [exact F1000|exact V1000].
    - exists t0. split; [|split; assumption].
      apply ltb_false_leb in E; [|exact HR|exact NN_MIN_TIP].
      pose proof (leb_int _ _ _ _ F1000 FR V1000 Vt0 E). lia. }
  destruct HT as (t & Ht' & FT & VT).
  destruct (add_int _ _ p t FP FT Vp VT Hp0 ltac:(lia) ltac:(lia)) as [FS VS].
  exists p, t. unfold r, calculateRecommendedFees; cbn. fold (rawTip x).
  split; [exact Hp0|]. split; [lia|].
  split; [apply eqb_of_Z; [assumption..|lia]|].
  split; apply eqb_of_Z; try assumption; lia.
Qed.

Lemma X3_witness :
  exists p t : Z,
    (0 <= p)%Z /\ (1000 <= t)%Z /\
    (priorityFeeLamports (calculateRecommendedFees 0.001) =? of_Z p) = true /\
    (jitoTipLamports (calculateRecommendedFees 0.001) =? of_Z t) = true /\
    (totalFeeLamports (calculateRecommendedFees 0.001) =? of_Z (p + t)) = true.
Proof. exact (X3_whole_lamports 0.001 eq_refl eq_refl). Defined.

(** The six fields grow with the budget. *)
Lemma fees_mono a b :
  NN a -> (a <=? b) = true ->
  let ra := calculateRecommendedFees a in
  let rb := calculateRecommendedFees b in
  (priorityFeeLamports ra <=? priorityFeeLamports rb) = true /\
  (jitoTipLamports ra <=? jitoTipLamports rb) = true /\
  (totalFeeLamports ra <=? totalFeeLamports rb) = true /\
  (priorityFeeSol ra <=? priorityFeeSol rb) = true /\
  (jitoTipSol ra <=? jitoTipSol rb) = true /\
  (totalFeeSol ra <=? totalFeeSol rb) = true.
Proof.
  intros Ha Hab ra rb.
  pose proof (leb_NN a b Ha Hab) as Hb.
  pose proof normal_LAMPORTS_PER_SOL as N9.
  pose proof (NN_priority a Ha) as HPa. pose proof (NN_priority b Hb) as HPb.
  pose proof (priority_mono a b Ha Hb Hab) as HP.
  destruct (max_mono (rawTip a) (rawTip b) MIN_TIP_LAMPORTS
              (NN_rawTip a Ha) (NN_rawTip b Hb) NN_MIN_TIP eq_refl
              (rawTip_mono a b Ha Hb Hab)) as (HTa & HTb & HT).
  unfold ra, rb, calculateRecommendedFees; cbn.
  fold (rawTip a) (rawTip b).
  repeat apply conj; try assumption.
  - apply add_mono; assumption.
  - apply div_mono; assumption.
  - apply div_mono; assumption.
  - apply div_mono; [apply NN_add; assumption..|exact N9|].
    apply add_mono; assumption.
Qed.

(** X4: asking [getRecommendedFeeFromTipFloor] for a percentile whose value
    in the newest sample is larger never gives a smaller recommendation.
    When the sample's value for [lower] is not negative and at most its
    value for [higher], both calls succeed with one request each, and each
    of the six fields for [lower] is at most the same field for
    [higher]. *)
Theorem X4_higher_percentile_never_cheaper :
  forall (net : Request -> Response (option (list TipFloorData)))
         (latestData : TipFloorData) (rest : list TipFloorData)
         (lower higher : TipPercentile),
    ok (net tip_floor_request) = true ->
    json (net tip_floor_request) = Some (latestData :: rest) ->
    (0 <=? tipAmount lower latestData) = true ->
    (tipAmount lower latestData <=? tipAmount higher latestData) = true ->
    exists rl rh : FeeRecommendation,
      run (getRecommendedFeeFromTipFloor (Some lower)) net
        = ([tip_floor_request], inr rl) /\
      run (getRecommendedFeeFromTipFloor (Some higher)) net
        = ([tip_floor_request], inr rh) /\
      (priorityFeeLamports rl <=? priorityFeeLamports rh) = true /\
      (jitoTipLamports rl <=? jitoTipLamports rh) = true /\
      (totalFeeLamports rl <=? totalFeeLamports rh) = true /\
      (priorityFeeSol rl <=? priorityFeeSol rh) = true /\
      (jitoTipSol rl <=? jitoTipSol rh) = true /\
      (totalFeeSol rl <=? totalFeeSol rh) = true.
Proof.
  intros net latestData rest lower higher Hok Hjson H0 Hle.
  rewrite !run_getRecommendedFeeFromTipFloor, Hok, Hjson.
  do 2 eexists. split; [reflexivity|]. split; [reflexivity|].
  cbn [default].
  pose proof (leb_zero_NN _ H0) as Hl. pose proof (leb_NN _ _ Hl Hle) as Hh.
  apply fees_mono.
  - apply NN_div; [exact Hl|exact normal_03].
  - apply div_mono; [assumption..|exact normal_03|exact Hle].
Qed.

Lemma X4_witness :
  exists rl rh : FeeRecommendation,
    run (getRecommendedFeeFromTipFloor (Some P50))
        (fun _ => {| ok := true; status := 200; json := Some [sample_0003] |})
      = ([tip_floor_request], inr rl) /\
    run (getRecommendedFeeFromTipFloor (Some P99))
        (fun _ => {| ok := true; status := 200; json := Some [sample_0003] |})
      = ([tip_floor_request], inr rh) /\
    (priorityFeeLamports rl <=? priorityFeeLamports rh) = true /\
    (jitoTipLamports rl <=? jitoTipLamports rh) = true /\
    (totalFeeLamports rl <=? totalFeeLamports rh) = true /\
    (priorityFeeSol rl <=? priorityFeeSol rh) = true /\
    (jitoTipSol rl <=? jitoTipSol rh) = true /\
    (totalFeeSol rl <=? totalFeeSol rh) = true.
Proof.
  exact (X4_higher_percentile_never_cheaper
           (fun _ => {| ok := true; status := 200; json := Some [sample_0003] |})
           sample_0003 [] P50 P99 eq_refl eq_refl eq_refl eq_refl).
Defined.

(** *** The total against the budget *)

(** Below [2^53] a rounded value is within one half of the exact one. *)
Lemma Rounds_within_half v f :
  Rounds (Some v) f -> (v < 9007199254740992)%Q ->
  nnf f = true /\ (v - (1 # 2) <= SF2Q f)%Q /\ (SF2Q f <= v + (1 # 2))%Q.
Proof.
  intros Hr Hv. inversion Hr as [|v0 k E f0 Hrnd Hres]; subst.
  destruct Hrnd as [HE Hk Hkn Hv0 Hhi Hlo Hup Hdn _].
  assert (HE0 : (E <= 0)%Z).
  { destruct Hlo as [->|Hlo]; [lia|].
    destruct (Z_le_gt_dec E 0) as [H|H]; [exact H|exfalso].
    pose proof (pow2_le 1 E ltac:(lia)) as Hp.
    change (pow2 1) with 2%Q in Hp. lra. }
  pose proof (pow2_le E 0 HE0) as Hp1. change (pow2 0) with 1%Q in Hp1.
  pose proof (pow2_pos E) as Hp0.
  destruct Hres as [[Hn Hf]|[-> Hf]].
  - split; [exact Hn|]. rewrite Hf. split; lra.
  - exfalso. pose proof (pow2_lt 54 1024 ltac:(lia)) as H.
    assert (H54 : (pow2 54 == 18014398509481984)%Q) by reflexivity.
    rewrite H54 in H. lra.
Qed.

Lemma SF2Q_9e15 : (SF2Q (Prim2SF 9000000000000000) == 9000000000000000)%Q.
Proof. vm_compute. reflexivity. Qed.

Lemma SF2Q_4 : (SF2Q (Prim2SF 4) == 4)%Q.
Proof. vm_compute. reflexivity. Qed.

(** The value of the floor of a finite non-negative number. *)
Lemma floor_within_one a :
  nnf (Prim2SF a) = true ->
  nnf (Prim2SF (Math_floor a)) = true /\
  (SF2Q (Prim2SF a) - 1 < SF2Q (Prim2SF (Math_floor a)))%Q /\
  (SF2Q (Prim2SF (Math_floor a)) <= SF2Q (Prim2SF a))%Q.
Proof.
  intros Hf. rewrite Prim2SF_floor by (apply nnf_nn, Hf).
  destruct (SFfloor_nnf _ Hf) as [Ff Vf].
  split; [exact Ff|]. rewrite Vf.
  pose proof (Qfloor_le (SF2Q (Prim2SF a))) as Hle.
  pose proof (Qlt_floor (SF2Q (Prim2SF a))) as Hlt.
  rewrite inject_Z_plus in Hlt. change (inject_Z 1) with 1%Q in Hlt.
  split; lra.
Qed.

(** A share of a lamport amount of at most [9e15]: the product is within
    one half of the exact one, and its floor within one and a half. *)
Lemma share_within L c q :
  nnf (Prim2SF L) = true -> (SF2Q (Prim2SF L) <= 9000000000000000)%Q ->
  is_normal_pos (Prim2SF c) = true -> (SF2Q (Prim2SF c) == q)%Q ->
  (0 < q)%Q -> (q < 1)%Q ->
  let s := Math_floor (L * c) in
  nnf (Prim2SF s) = true /\
  (SF2Q (Prim2SF L) * q - (3 # 2) < SF2Q (Prim2SF s))%Q /\
  (SF2Q (Prim2SF s) <= SF2Q (Prim2SF L) * q + (1 # 2))%Q.
Proof.
  intros FL HL Hc Vc Hq0 Hq1 s.
  pose proof (nnf_SF2Q_nonneg _ FL) as H0.
  pose proof (mul_Rounds L c (nnf_nn _ FL) Hc) as Hr.
  rewrite (nnf_ext _ FL) in Hr. cbn [omul] in Hr.
  apply (Rounds_compat _ (SF2Q (Prim2SF L) * q)) in Hr; [|rewrite Vc; reflexivity].
  assert (Hprod : (SF2Q (Prim2SF L) * q <= SF2Q (Prim2SF L))%Q).
  { rewrite <- (Qmult_1_r (SF2Q (Prim2SF L))) at 2.
    rewrite !(Qmult_comm (SF2Q (Prim2SF L))).
    apply Qmult_le_compat_r; lra. }
  destruct (Rounds_within_half _ _ Hr) as (FA & Hlo & Hhi); [lra|].
  destruct (floor_within_one (L * c) FA) as (Fs & Hs1 & Hs2).
  split; [exact Fs|]. fold s in Hs1, Hs2. split; lra.
Qed.

(** X5: for a budget between 0.00001 SOL and 9,000,000 SOL,
    [calculateRecommendedFees] returns a total that is at most one lamport
    above the budget in lamports and at most four lamports below it: the
    two shares 0.7 and 0.3 add up to the budget but for the rounding of the
    two products and their floors. *)
Theorem X5_total_tracks_the_budget :
  forall budget : number,
    (0.00001 <=? budget) = true -> (budget <=? 9000000) = true ->
    let lamports := budget * LAMPORTS_PER_SOL in
    let r := calculateRecommendedFees budget in
    (totalFeeLamports r <=? lamports + 1) = true /\
    (lamports <=? totalFeeLamports r + 4) = true.
Proof.
  intros x Hlow Hmax L r.
  assert (Hm : NN 0.00001) by reflexivity.
  pose proof (leb_NN _ _ Hm Hlow) as Hx.
  assert (Hb : NN 9000000) by reflexivity.
  pose proof (NN_mul x _ Hx normal_LAMPORTS_PER_SOL) as HL. fold L in HL.
  assert (F9 : nnf (Prim2SF 9000000000000000) = true) by reflexivity.
  assert (HL9 : (L <=? 9000000000000000) = true).
  { change 9000000000000000 with (9000000 * LAMPORTS_PER_SOL).
    apply mul_mono; [assumption..|exact normal_LAMPORTS_PER_SOL|exact Hmax]. }
  pose proof (leb_nnf _ _ HL F9 HL9) as FL.
  assert (VL : (SF2Q (Prim2SF L) <= 9000000000000000)%Q).
  { rewrite leb_spec in HL9. apply nnf_leb in HL9; [|assumption..].
    rewrite SF2Q_9e15 in HL9. exact HL9. }
  pose proof (nnf_SF2Q_nonneg _ FL) as VL0.
  destruct (share_within L 0.7 _ FL VL normal_07 SF2Q_07 eq_refl eq_refl)
    as (FP & HP1 & HP2).
  destruct (share_within L 0.3 _ FL VL normal_03 SF2Q_03 eq_refl eq_refl)
    as (FT & HT1 & HT2).
  (* the tip is the raw share *)
  pose proof (NN_rawTip x Hx) as HR.
  assert (Hmin : (1000 <=? rawTip x) = true).
  { apply (leb_trans _ (rawTip 0.00001)); [reflexivity|apply NN_rawTip, Hm|exact HR| |].
    - reflexivity.
    - apply rawTip_mono; assumption. }
  assert (Htip : Math_max (rawTip x) MIN_TIP_LAMPORTS = rawTip x).
  { rewrite (Math_max_NN _ _ HR NN_MIN_TIP eq_refl).
    destruct (rawTip x <? MIN_TIP_LAMPORTS) eqn:E; [exfalso|reflexivity].
    exact (leb_ltb_false _ _ NN_MIN_TIP HR Hmin E). }
  change (rawTip x) with (Math_floor (L * 0.3)) in Htip.
  destruct (floor_int _ (NN_mul _ _ HL normal_07) FP) as (zp & Hzp & Vp).
  destruct (floor_int _ (NN_mul _ _ HL normal_03) FT) as (zt & Hzt & Vt).
  set (p := Math_floor (L * 0.7)) in *.
  set (t := Math_floor (L * 0.3)) in *.
  assert (Htotal : totalFeeLamports r = p + t).
  { unfold r, calculateRecommendedFees; cbn. fold L. fold p. fold t.
    rewrite Htip. reflexivity. }
  rewrite Htotal. clearbody p t L. clear Htotal Htip Hmin HR.
  (* the sum is exact *)
  assert (Hsum : (zp + zt < 2 ^ 53)%Z).
  { assert (H : (inject_Z (zp + zt) < inject_Z (2 ^ 53))%Q).
    { rewrite inject_Z_plus, <- Vp, <- Vt.
      change (inject_Z (2 ^ 53)) with 9007199254740992%Q. lra. }
    rewrite <- Zlt_Qlt in H. exact H. }
  destruct (add_int p t zp zt FP FT Vp Vt Hzp Hzt Hsum) as [FS VS].
  assert (VS' : (SF2Q (Prim2SF (p + t)) == SF2Q (Prim2SF p) + SF2Q (Prim2SF t))%Q).
  { rewrite VS, inject_Z_plus, Vp, Vt. reflexivity. }
  assert (N1 : NN 1) by reflexivity. assert (N4 : NN 4) by reflexivity.
  pose proof (nnf_nn _ FS) as HS.
  split.
  - eapply Rounds_leb;
      [apply Rounds_repr; exact HS|apply add_Rounds; [exact HL|exact N1]|].
    rewrite (nnf_ext _ FS), (nnf_ext _ FL).
    change (ext (Prim2SF 1)) with (Some (SF2Q (Prim2SF 1))).
    cbn [oadd ole]. rewrite VS', SF2Q_1. lra.
  - eapply Rounds_leb;
      [apply Rounds_repr; exact HL|apply add_Rounds; [exact HS|exact N4]|].
    rewrite (nnf_ext _ FS), (nnf_ext _ FL).
    change (ext (Prim2SF 4)) with (Some (SF2Q (Prim2SF 4))).
    cbn [oadd ole]. rewrite VS', SF2Q_4. lra.
Qed.

Lemma X5_witness :
  let r := calculateRecommendedFees 0.001 in
  (totalFeeLamports r <=? 0.001 * LAMPORTS_PER_SOL + 1) = true /\
  (0.001 * LAMPORTS_PER_SOL <=? totalFeeLamports r + 4) = true.
Proof. exact (X5_total_tracks_the_budget 0.001 eq_refl eq_refl). Defined.

(** ** The scripts *)

Import Scripts.

(** *** The compute-unit price *)

Lemma normal_1000 : is_normal_pos (Prim2SF 1000) = true.
Proof. reflexivity. Qed.

Lemma div_share_le p c :
  NN p -> is_normal_pos (Prim2SF c) = true -> (1 <= SF2Q (Prim2SF c))%Q ->
  (p / c <=? p) = true.
Proof.
  intros Hp Hc Hc1.
  eapply Rounds_leb; [apply div_Rounds; assumption|apply Rounds_repr; exact Hp|].
  destruct (nn_cases _ Hp) as [Hf|Hinf].
  - rewrite (nnf_ext _ Hf). cbn.
    pose proof (nnf_SF2Q_nonneg _ Hf) as H0.
    apply Qle_shift_div_r; [lra|].
    rewrite <- (Qmult_1_r (SF2Q (Prim2SF p))) at 1.
    rewrite !(Qmult_comm (SF2Q (Prim2SF p))).
    apply Qmult_le_compat_r; assumption.
  - rewrite Hinf. exact I.
Qed.

Lemma one_le_1000 : (1 <= SF2Q (Prim2SF 1000))%Q.
Proof. vm_compute. discriminate. Qed.

Lemma SF2Q_999 : (SF2Q (Prim2SF 999) == inject_Z 999)%Q.
Proof. vm_compute. reflexivity. Qed.

(** X6: the compute-unit price the scripts set is the priority fee in
    lamports divided by 1000 and rounded down.  For a budget that is not
    negative it lies between 0 and the priority fee, and it is 0 whenever
    the priority fee is below 1000 lamports. *)
Theorem X6_compute_unit_price :
  forall budget : number,
    (0 <=? budget) = true ->
    let fees := calculateRecommendedFees budget in
    let price := microLamports_of fees in
    (0 <=? price) = true /\
    (price <=? priorityFeeLamports fees / 1000) = true /\
    (price <=? priorityFeeLamports fees) = true /\
    ((priorityFeeLamports fees <? 1000) = true -> (price =? 0) = true).
Proof.
  intros x H0 fees price. pose proof (leb_zero_NN x H0) as Hx.
  pose proof (NN_priority x Hx) as HP.
  set (p := Math_floor (x * LAMPORTS_PER_SOL * 0.7)) in *.
  assert (Hprice : price = Math_floor (p / 1000)) by reflexivity.
  assert (Hfee : priorityFeeLamports fees = p) by reflexivity.
  rewrite Hprice, Hfee. clear Hprice Hfee.
  pose proof (NN_div p 1000 HP normal_1000) as HD.
  pose proof (NN_floor _ HD) as HF.
  assert (Z0 : NN 0) by reflexivity.
  assert (H1 : (0 <=? Math_floor (p / 1000)) = true).
  { apply (leb_ole 0 _); [exact Z0|exact HF|].
    destruct (nn_cases _ HF) as [Hf|Hinf].
    - rewrite (nnf_ext _ Hf). cbn. apply (nnf_SF2Q_nonneg _ Hf).
    - rewrite Hinf. exact I. }
  assert (H2 : (Math_floor (p / 1000) <=? p / 1000) = true) by (apply floor_le, HD).
  assert (H3 : (p / 1000 <=? p) = true)
    by (apply div_share_le; [exact HP|exact normal_1000|exact one_le_1000]).
  repeat apply conj.
  - exact H1.
  - exact H2.
  - exact (leb_trans _ _ _ HF HD HP H2 H3).
  - intros Hlt.
    assert (F1000 : nnf (Prim2SF 1000) = true) by reflexivity.
    assert (F999 : nnf (Prim2SF 999) = true) by reflexivity.
    assert (N999 : NN 999) by reflexivity.
    assert (FP : nnf (Prim2SF p) = true).
    { eapply leb_nnf; [exact HP|exact F1000|].
      apply ltb_leb; [exact HP|reflexivity|exact Hlt]. }
    destruct (floor_int _ (NN_mul _ _ (NN_mul _ _ Hx normal_LAMPORTS_PER_SOL) normal_07) FP)
      as (z & Hz0 & Vz). fold p in Vz.
    assert (Hz : (z <= 999)%Z).
    { rewrite ltb_spec in Hlt. apply nnf_ltb in Hlt; [|assumption..].
      rewrite Vz, SF2Q_1000 in Hlt.
      change 1000%Q with (inject_Z 1000) in Hlt. rewrite <- Zlt_Qlt in Hlt. lia. }
    assert (H999 : (p <=? 999) = true).
    { rewrite leb_spec. apply nnf_leb; [assumption..|].
      rewrite Vz, SF2Q_999, <- Zle_Qle. exact Hz. }
    assert (Hle : (Math_floor (p / 1000) <=? 0) = true).
    { change 0 with (Math_floor (999 / 1000)).
      apply floor_mono; [exact HD|reflexivity|].
      apply div_mono; [exact HP|exact N999|exact normal_1000|exact H999]. }
    assert (F0 : nnf (Prim2SF 0) = true) by reflexivity.
    assert (FF : nnf (Prim2SF (Math_floor (p / 1000))) = true)
      by exact (leb_nnf _ _ HF F0 Hle).
    rewrite FloatAxioms.eqb_spec. unfold SFeqb.
    rewrite (nnf_compare _ _ FF F0), Qcompare_Eq; [reflexivity|].
    rewrite leb_spec in Hle. apply nnf_leb in Hle; [|assumption..].
    pose proof (nnf_SF2Q_nonneg _ FF) as Hge.
    change (SF2Q (Prim2SF 0)) with 0%Q in *. lra.
Qed.

Lemma X6_witness :
  let fees := calculateRecommendedFees 0.000001 in
  let price := microLamports_of fees in
  (0 <=? price) = true /\
  (price <=? priorityFeeLamports fees / 1000) = true /\
  (price <=? priorityFeeLamports fees) = true /\
  ((priorityFeeLamports fees <? 1000) = true -> (price =? 0) = true).
Proof. exact (X6_compute_unit_price 0.000001 eq_refl). Defined.

(** *** Traces *)

Lemma count_app p l l' : count p (l ++ l') = (count p l + count p l')%nat.
Proof. induction l as [|e l IH]; cbn; [reflexivity|]. rewrite IH. lia. Qed.

Lemma select_app {A} (f : Event -> option A) l l' :
  select f (l ++ l') = select f l ++ select f l'.
Proof.
  induction l as [|e l IH]; [reflexivity|].
  cbn. destruct (f e); rewrite IH; reflexivity.
Qed.

(** Events of a class that a query does not select are invisible to it. *)
Lemma select_none {A} (f : Event -> option A) (p : Event -> bool) events :
  (forall e, p e = true -> f e = None) ->
  forallb p events = true -> select f events = [].
Proof.
  intros Hf. induction events as [|e l IH]; [reflexivity|].
  cbn. intros H. apply andb_true_iff in H as [He Hl].
  rewrite (Hf e He). exact (IH Hl).
Qed.

Lemma linesOf_console {A} (g : A -> nat -> list Event) items index :
  (forall a i, forallb is_console_log (g a i) = true) ->
  forallb is_console_log (linesOf g items index) = true.
Proof.
  intros Hg. revert index. induction items as [|a items IH]; intros index; cbn.
  - reflexivity.
  - rewrite forallb_app, Hg, IH. reflexivity.
Qed.

Lemma simulationLogLines_console logs :
  forallb is_console_log (simulationLogLines logs) = true.
Proof.
  unfold simulationLogLines. cbn. apply linesOf_console.
  intros a i. cbn. apply linesOf_console. reflexivity.
Qed.

Lemma select_simulationLogLines {A} (f : Event -> option A) logs :
  (forall e, is_console_log e = true -> f e = None) ->
  select f (simulationLogLines logs) = [].
Proof.
  intros Hf. apply (select_none f is_console_log); [exact Hf|].
  apply simulationLogLines_console.
Qed.

Lemma select_linesOf {A B} (f : Event -> option A) (g : B -> nat -> list Event)
    items index :
  (forall e, is_console_log e = true -> f e = None) ->
  (forall a i, forallb is_console_log (g a i) = true) ->
  select f (linesOf g items index) = [].
Proof.
  intros Hf Hg. apply (select_none f is_console_log); [exact Hf|].
  apply linesOf_console, Hg.
Qed.

Lemma forEach_lines {A} (f : A -> nat -> Script unit) (g : A -> nat -> list Event)
    items index w trace :
  (forall a i w trace, f a i w trace = (trace ++ g a i, Returned tt)) ->
  forEach f items index w trace = (trace ++ linesOf g items index, Returned tt).
Proof.
  intros Hf. revert index w trace.
  induction items as [|a items IH]; intros index w trace; cbn.
  - rewrite app_nil_r. reflexivity.
  - unfold mbind, Script_bind, andThen. rewrite Hf, IH, app_assoc. reflexivity.
Qed.

Lemma run_printSimulationLogs logs w trace :
  printSimulationLogs logs w trace = (trace ++ simulationLogLines logs, Returned tt).
Proof.
  unfold printSimulationLogs, simulationLogLines, mbind, Script_bind, andThen, emit.
  rewrite (forEach_lines _ (fun txLogs index =>
             console_log (TransactionLogs (index + 1)) ::
             linesOf (fun log _ => [console_log (LogLine log)]) txLogs 0)).
  - rewrite <- app_assoc. reflexivity.
  - intros a i w' trace'.
    rewrite (forEach_lines _ (fun log _ => [console_log (LogLine log)])).
    + rewrite <- app_assoc. reflexivity.
    + reflexivity.
Qed.

Lemma run_simulateBundle_helius {B} (net : Request -> Response B) params key :
  let rq := {| url := "https://mainnet.helius-rpc.com/?api-key=" +:+ key;
               method := "POST";
               headers := [("Content-Type", "application/json")]%string;
               body := Some (requestBody params) |} in
  run (simulateBundle params (Some ("https://mainnet.helius-rpc.com/?api-key=" +:+ key)))
      net
  = ([rq], if ok (net rq) then inr (json (net rq))
           else inl (FailedToSimulateBundle (status (net rq)))).
Proof. apply run_simulateBundle. discriminate. Qed.

(** *** [confirmTransaction] *)

Ltac run_script :=
  unfold mbind, Script_bind, andThen, now, connection_getSignatureStatus,
    emit, pure, raise.

Lemma confirmLoop_returned fuel signature start timeoutMs w trace trace' st :
  confirmLoop fuel signature start timeoutMs w trace = (trace', Returned st) ->
  finalized st = true /\
  exists n, (count is_getSignatureStatus trace <= n)%nat /\
            signatureStatus w n signature = inr st.
Proof.
  revert trace. induction fuel as [|fuel IH]; intros trace; cbn [confirmLoop].
  - discriminate.
  - run_script.
    destruct (clock w (count is_Date_now trace) - start <? timeoutMs); [|discriminate].
    destruct (signatureStatus w (count is_getSignatureStatus (trace ++ [Date_now])) signature)
      as [e|s] eqn:Es; [discriminate|].
    rewrite count_app in Es. cbn in Es. rewrite Nat.add_0_r in Es.
    destruct (finalized s) eqn:Ef.
    + intros [= <- <-]. split; [exact Ef|]. eexists; split; [|exact Es]. lia.
    + intros H. apply IH in H as (Hf & n & Hn & Hs). split; [exact Hf|].
      exists n. split; [|exact Hs].
      rewrite !count_app in Hn. cbn in Hn. lia.
Qed.

Lemma polls_signature signature events added :
  (forall s, In s (select poll_of events) -> s = signature) ->
  (forall s, In s (select poll_of added) -> s = signature) ->
  forall s, In s (select poll_of (events ++ added)) -> s = signature.
Proof.
  intros H1 H2 s. rewrite select_app, in_app_iff. intros [H|H]; auto.
Qed.

Lemma confirmLoop_polling fuel signature start timeoutMs w trace :
  exists added,
    fst (confirmLoop fuel signature start timeoutMs w trace) = trace ++ added /\
    forallb is_polling added = true /\
    forall s, In s (select poll_of added) -> s = signature.
Proof.
  revert trace. induction fuel as [|fuel IH]; intros trace; cbn [confirmLoop].
  - exists []. rewrite app_nil_r. repeat split. intros s [].
  - run_script.
    destruct (clock w (count is_Date_now trace) - start <? timeoutMs).
    2:{ exists [Date_now]. repeat split. intros s []. }
    destruct (signatureStatus w _ signature) as [e|s].
    { exists [Date_now; getSignatureStatus signature].
      rewrite <- app_assoc. repeat split. intros s [<-|[]]. reflexivity. }
    destruct (finalized s).
    { exists [Date_now; getSignatureStatus signature].
      rewrite <- app_assoc. repeat split. intros s' [<-|[]]. reflexivity. }
    destruct (IH (((trace ++ [Date_now]) ++ [getSignatureStatus signature])
                    ++ [setTimeout 1000])) as (added & Hrun & Hp & Hs).
    exists ([Date_now; getSignatureStatus signature; setTimeout 1000] ++ added).
    rewrite Hrun, <- !app_assoc. split; [reflexivity|]. split; [exact Hp|].
    apply polls_signature; [|exact Hs]. intros s' [<-|[]]. reflexivity.
Qed.

Lemma confirmTransaction_polling fuel signature timeoutMs w trace :
  exists added,
    fst (confirmTransaction fuel signature timeoutMs w trace) = trace ++ added /\
    forallb is_polling added = true /\
    forall s, In s (select poll_of added) -> s = signature.
Proof.
  unfold confirmTransaction. run_script.
  destruct (signatureStatus w _ signature) as [e|s].
  { exists [Date_now; getSignatureStatus signature].
    rewrite <- app_assoc. repeat split. intros s [<-|[]]. reflexivity. }
  destruct (confirmLoop_polling fuel signature
              (clock w (count is_Date_now trace)) (default 60000 timeoutMs) w
              ((trace ++ [Date_now]) ++ [getSignatureStatus signature]))
    as (added & Hrun & Hp & Hs).
  exists ([Date_now; getSignatureStatus signature] ++ added).
  rewrite Hrun, <- !app_assoc. split; [reflexivity|]. split; [exact Hp|].
  apply polls_signature; [|exact Hs]. intros s' [<-|[]]. reflexivity.
Qed.

Lemma confirmTransaction_returned fuel signature timeoutMs w trace trace' st :
  confirmTransaction fuel signature timeoutMs w trace = (trace', Returned st) ->
  finalized st = true /\
  exists n, (count is_getSignatureStatus trace < n)%nat /\
            signatureStatus w n signature = inr st.
Proof.
  unfold confirmTransaction. run_script.
  destruct (signatureStatus w _ signature) as [e|s0]; [discriminate|].
  intros H. apply confirmLoop_returned in H as (Hf & n & Hn & Hs).
  split; [exact Hf|]. exists n. split; [|exact Hs].
  rewrite !count_app in Hn. cbn in Hn. lia.
Qed.

(** X7: a status that [confirmTransaction] returns is finalized, and it is
    the answer of the chain to a poll of the loop, not to the first query. *)
Theorem X7_confirmTransaction_returns_finalized :
  forall (fuel : nat) (w : World) (signature : string) (timeoutMs : option number)
         (trace : list Event) (status : SignatureStatusResponse),
    confirmTransaction fuel signature timeoutMs w [] = (trace, Returned status) ->
    finalized status = true /\
    exists n : nat, (1 <= n)%nat /\ signatureStatus w n signature = inr status.
Proof.
  intros fuel w signature timeoutMs trace status H.
  apply confirmTransaction_returned in H as (Hf & n & Hn & Hs).
  split; [exact Hf|]. exists n. split; [|exact Hs]. cbn in Hn. lia.
Qed.

Lemma X7_witness :
  finalized (status_of "finalized") = true /\
  exists n : nat,
    (1 <= n)%nat /\
    signatureStatus happy n "signature" = inr (status_of "finalized").
Proof.
  apply (X7_confirmTransaction_returns_finalized 5 happy "signature" (Some 120000)
           [Date_now; getSignatureStatus "signature";
            Date_now; getSignatureStatus "signature"; setTimeout 1000;
            Date_now; getSignatureStatus "signature"]).
  vm_compute. reflexivity.
Defined.

(** X8: when the deadline has passed at the first evaluation of the loop
    condition (a timeout of 0, say), [confirmTransaction] throws after one
    query whose answer it never looks at, even if that answer is finalized. *)
Theorem X8_confirmTransaction_expired_at_first_check :
  forall (fuel : nat) (w : World) (signature : string) (timeoutMs : option number)
         (first : SignatureStatusResponse),
    signatureStatus w 0 signature = inr first ->
    (clock w 1 - clock w 0 <? default 60000 timeoutMs) = false ->
    confirmTransaction (S fuel) signature timeoutMs w [] =
      ([Date_now; getSignatureStatus signature; Date_now],
       Thrown (ConfirmTimeout signature (default 60000 timeoutMs))).
Proof.
  intros fuel w signature timeoutMs first Hfirst Hlate.
  unfold confirmTransaction. cbn [confirmLoop]. run_script.
  cbn [app count is_Date_now is_getSignatureStatus Nat.add].
  rewrite Hfirst, Hlate. reflexivity.
Qed.

Lemma X8_witness :
  finalized (status_of "finalized") = true /\
  confirmTransaction 1 "signature" (Some 0) late [] =
    ([Date_now; getSignatureStatus "signature"; Date_now],
     Thrown (ConfirmTimeout "signature" 0)).
Proof.
  split; [reflexivity|].
  exact (X8_confirmTransaction_expired_at_first_check
           0 late "signature" (Some 0) (status_of "finalized") eq_refl eq_refl).
Defined.

Lemma confirmLoop_terminates w signature start timeoutMs k :
  forall fuel trace,
    (clock w (count is_Date_now trace + k) - start <? timeoutMs) = false ->
    (k < fuel)%nat ->
    snd (confirmLoop fuel signature start timeoutMs w trace) <> OutOfFuel.
Proof.
  induction k as [|k IH]; intros [|fuel] trace Hlate Hfuel; try lia;
    cbn [confirmLoop]; run_script.
  - rewrite Nat.add_0_r in Hlate. rewrite Hlate. discriminate.
  - destruct (clock w (count is_Date_now trace) - start <? timeoutMs); [|discriminate].
    destruct (signatureStatus w _ signature) as [e|s]; [discriminate|].
    destruct (finalized s); [discriminate|].
    apply IH; [|lia].
    rewrite !count_app. cbn.
    replace (count is_Date_now trace + 1 + 0 + 0 + k)%nat
      with (count is_Date_now trace + S k)%nat by lia.
    exact Hlate.
Qed.

(** X9: the loop ends.  If the deadline has passed at the reading number
    [k + 1] of the clock, [confirmTransaction] returns or throws within [k]
    rounds of the loop, whatever the chain answers. *)
Theorem X9_confirmTransaction_terminates :
  forall (w : World) (signature : string) (timeoutMs : option number)
         (fuel k : nat),
    (clock w (S k) - clock w 0 <? default 60000 timeoutMs) = false ->
    (k < fuel)%nat ->
    exists trace : list Event,
      (exists status,
         confirmTransaction fuel signature timeoutMs w [] = (trace, Returned status)) \/
      (exists e,
         confirmTransaction fuel signature timeoutMs w [] = (trace, Thrown e)).
Proof.
  intros w signature timeoutMs fuel k Hlate Hfuel.
  assert (H : snd (confirmTransaction fuel signature timeoutMs w []) <> OutOfFuel).
  { unfold confirmTransaction. run_script.
    cbn [app count is_Date_now is_getSignatureStatus Nat.add].
    destruct (signatureStatus w 0 signature) as [e|s0]; [discriminate|].
    apply (confirmLoop_terminates w signature _ _ k); [|exact Hfuel].
    exact Hlate. }
  destruct (confirmTransaction fuel signature timeoutMs w []) as [trace [st|e|]].
  - exists trace. left. exists st. reflexivity.
  - exists trace. right. exists e. reflexivity.
  - contradiction H. reflexivity.
Qed.

Lemma X9_witness :
  exists trace : list Event,
    (exists status,
       confirmTransaction 3 "signature" (Some 120000) stalled []
         = (trace, Returned status)) \/
    (exists e,
       confirmTransaction 3 "signature" (Some 120000) stalled [] = (trace, Thrown e)).
Proof.
  apply (X9_confirmTransaction_terminates stalled "signature" (Some 120000) 3 2).
  - reflexivity.
  - lia.
Defined.

Lemma confirmLoop_timeout w signature start timeoutMs k :
  forall fuel trace,
    (forall i, (i < k)%nat ->
       (clock w (count is_Date_now trace + i) - start <? timeoutMs) = true /\
       exists s, signatureStatus w (count is_getSignatureStatus trace + i) signature
                   = inr s /\ finalized s = false) ->
    (clock w (count is_Date_now trace + k) - start <? timeoutMs) = false ->
    (k < fuel)%nat ->
    exists trace',
      confirmLoop fuel signature start timeoutMs w trace
        = (trace', Thrown (ConfirmTimeout signature timeoutMs)) /\
      count is_Date_now trace' = (count is_Date_now trace + k + 1)%nat /\
      count is_getSignatureStatus trace'
        = (count is_getSignatureStatus trace + k)%nat /\
      count is_setTimeout trace' = (count is_setTimeout trace + k)%nat.
Proof.
  induction k as [|k IH]; intros [|fuel] trace Hpolls Hlate Hfuel; try lia;
    cbn [confirmLoop]; run_script.
  - rewrite Nat.add_0_r in Hlate. rewrite Hlate.
    eexists; split; [reflexivity|]. rewrite !count_app. cbn. lia.
  - destruct (Hpolls 0%nat ltac:(lia)) as (Hc & s & Hs & Hf).
    rewrite Nat.add_0_r in Hc, Hs. rewrite Hc.
    rewrite count_app. cbn [count is_getSignatureStatus]. rewrite Nat.add_0_r.
    rewrite Hs, Hf.
    destruct (IH fuel (((trace ++ [Date_now]) ++ [getSignatureStatus signature])
                         ++ [setTimeout 1000])) as (trace' & Hrun & H1 & H2 & H3).
    + intros i Hi. destruct (Hpolls (S i) ltac:(lia)) as (Hc' & s' & Hs' & Hf').
      rewrite !count_app. cbn.
      replace (count is_Date_now trace + 1 + 0 + 0 + i)%nat
        with (count is_Date_now trace + S i)%nat by lia.
      replace (count is_getSignatureStatus trace + 0 + 1 + 0 + i)%nat
        with (count is_getSignatureStatus trace + S i)%nat by lia.
      split; [exact Hc'|]. exists s'. split; assumption.
    + rewrite !count_app. cbn.
      replace (count is_Date_now trace + 1 + 0 + 0 + k)%nat
        with (count is_Date_now trace + S k)%nat by lia.
      exact Hlate.
    + lia.
    + exists trace'. split; [exact Hrun|].
      rewrite !count_app in H1, H2, H3. cbn in H1, H2, H3. lia.
Qed.

(** X10: when no poll made before the deadline is answered with a finalized
    status, and the deadline has passed at the reading number [k + 1] of
    the clock, [confirmTransaction] throws the timeout error after [k + 1]
    queries (the first one and [k] polls), [k + 2] readings of the clock
    and [k] pauses of one second. *)
Theorem X10_confirmTransaction_times_out :
  forall (w : World) (signature : string) (timeoutMs : option number)
         (fuel k : nat) (first : SignatureStatusResponse),
    signatureStatus w 0 signature = inr first ->
    (forall i : nat, (1 <= i <= k)%nat ->
       (clock w i - clock w 0 <? default 60000 timeoutMs) = true /\
       exists s, signatureStatus w i signature = inr s /\ finalized s = false) ->
    (clock w (S k) - clock w 0 <? default 60000 timeoutMs) = false ->
    (k < fuel)%nat ->
    exists trace : list Event,
      confirmTransaction fuel signature timeoutMs w []
        = (trace, Thrown (ConfirmTimeout signature (default 60000 timeoutMs))) /\
      count is_Date_now trace = (k + 2)%nat /\
      count is_getSignatureStatus trace = (k + 1)%nat /\
      count is_setTimeout trace = k.
Proof.
  intros w signature timeoutMs fuel k first Hfirst Hpolls Hlate Hfuel.
  unfold confirmTransaction. run_script.
  cbn [app count is_Date_now is_getSignatureStatus Nat.add].
  rewrite Hfirst.
  destruct (confirmLoop_timeout w signature (clock w 0) (default 60000 timeoutMs) k
              fuel [Date_now; getSignatureStatus signature])
    as (trace & Hrun & H1 & H2 & H3).
  - intros i Hi. cbn. apply (Hpolls (S i)). lia.
  - exact Hlate.
  - exact Hfuel.
  - exists trace. split; [exact Hrun|]. cbn in H1, H2, H3. lia.
Qed.

Lemma X10_witness :
  exists trace : list Event,
    confirmTransaction 3 "signature" (Some 120000) stalled []
      = (trace, Thrown (ConfirmTimeout "signature" 120000)) /\
    count is_Date_now trace = 3%nat /\
    count is_getSignatureStatus trace = 2%nat /\
    count is_setTimeout trace = 1%nat.
Proof.
  apply (X10_confirmTransaction_times_out stalled "signature" (Some 120000) 3 1
           (status_of "processed")).
  - reflexivity.
  - intros i Hi. assert (i = 1%nat) as -> by lia.
    split; [reflexivity|]. eexists. split; reflexivity.
  - reflexivity.
  - lia.
Defined.

(** *** [testBundle] *)

(** Running a script on an unknown world: the definitions are unfolded and
    each answer of the world is split into its cases. *)
Ltac unfold_script H :=
  unfold service_sendBundle, service_confirmInflightBundle,
    service_getBundleStatuses, service_sendTxn, service_getRandomTipAccount,
    connection_getLatestBlockhash, loadKeypair, fs_exists, printAxiosResponse,
    printServerResponse, build, signed in H;
  unfold mbind, Script_bind, andThen, try_catch, emit, pure, raise, ask, attempt,
    service in H.

Ltac crunch H :=
  repeat (first
    [ progress (cbn beta iota zeta delta [app map response_data instanceof_Error]
                  in H)
    | rewrite run_printSimulationLogs in H
    | rewrite (forEach_lines _
                 (fun txId index =>
                    [console_log (TransactionUrl (index + 1)
                                    ("https://solscan.io/tx/" +:+ txId))]))
        in H; [|intros; reflexivity]
    | rewrite run_simulateBundle_helius in H
    | rewrite run_getRecommendedFeeFromTipFloor in H
    | match type of H with
      | context [match ?x with _ => _ end] =>
          lazymatch x with
          | context [match _ with _ => _ end] => fail
          | _ => destruct x eqn:?
          end
      end ]).

Ltac leaf H := apply pair_equal_spec in H as [ <- <- ].

Ltac unfold_testBundle H :=
  unfold run_testBundle, testBundle, buildSimulateAndSend, simulateAndSend,
    sendAndReport, reportBundle, fetchFinalStatus in H;
  unfold_script H.

Ltac no_line := intros []; (discriminate || reflexivity).

(** Evaluating the queries on the trace of a finished run. *)
Ltac queries_in H :=
  unfold sentBundles, sentTransactions, requests, statusQueries, waits, polls,
    printed, errors, remoteCalls in H;
  repeat first
    [ progress cbn [select bundle_of transaction_of request_of statusQuery_of
                    wait_of poll_of log_of error_of remote_of is_remote
                    app fst snd] in H
    | rewrite select_app in H
    | rewrite select_simulationLogLines in H; [|no_line]
    | rewrite select_linesOf in H; [|no_line|intros; reflexivity] ].

Ltac queries :=
  unfold sentBundles, sentTransactions, requests, statusQueries, waits, polls,
    printed, errors, remoteCalls;
  repeat first
    [ progress cbn [select bundle_of transaction_of request_of statusQuery_of
                    wait_of poll_of log_of error_of remote_of is_remote
                    app fst snd]
    | rewrite select_app
    | rewrite select_simulationLogLines; [|no_line]
    | rewrite select_linesOf; [|no_line|intros; reflexivity] ].

(** X11: [testBundle] sends at most one bundle, and only after the
    simulation of the same two transactions, in the same order, at the RPC
    endpoint of the API key, was answered with a successful status, no
    [error] and no truthy [result.err]; the tip-floor request and the
    simulation are then the only two requests. *)
Theorem X11_bundle_sent_only_after_clean_simulation :
  forall (w : World) (jitoService : Service) (params : JSON),
    let trace := fst (run_testBundle w []) in
    In (jitoService, params) (sentBundles trace) ->
    exists key uuid b1 b2 : string,
      let rq :=
        {| url := "https://mainnet.helius-rpc.com/?api-key=" +:+ key;
           method := "POST";
           headers := [("Content-Type", "application/json")]%string;
           body := Some (requestBody
                           {| encodedTransactions := [b1; b2];
                              skipSigVerify := Some false;
                              replaceRecentBlockhash := Some false |}) |} in
      nonEmpty (process_env w "HELIUS_API_KEY") = Some key /\
      nonEmpty (process_env w "JITO_UUID") = Some uuid /\
      jitoService = new_JitoService MAINNET (Some uuid) /\
      params = JArr [JArr [JStr b1; JStr b2]; JObj [("encoding", JStr "base64")]] /\
      sentBundles trace = [(jitoService, params)] /\
      requests trace = [tip_floor_request; rq] /\
      ok (rpc w rq) = true /\
      error (json (rpc w rq)) = None /\
      simulationFailure (json (rpc w rq)) = None.
Proof.
  intros w jitoService params trace. subst trace.
  destruct (run_testBundle w []) as [trace out] eqn:H.
  intros Hin. unfold_testBundle H.
  crunch H; leaf H; queries_in Hin; try contradiction.
  all: destruct Hin as [[= <- <-]|[]].
  all: do 4 eexists; cbn zeta; queries;
    repeat apply conj; try eassumption; reflexivity.
Qed.

Lemma X11_witness :
  exists key uuid b1 b2 : string,
    let rq :=
      {| url := "https://mainnet.helius-rpc.com/?api-key=" +:+ key;
         method := "POST";
         headers := [("Content-Type", "application/json")]%string;
         body := Some (requestBody
                         {| encodedTransactions := [b1; b2];
                            skipSigVerify := Some false;
                            replaceRecentBlockhash := Some false |}) |} in
    nonEmpty (process_env happy "HELIUS_API_KEY") = Some key /\
    nonEmpty (process_env happy "JITO_UUID") = Some uuid /\
    new_JitoService MAINNET (Some "jito-uuid") = new_JitoService MAINNET (Some uuid) /\
    JArr [JArr [JStr "AQ=="; JStr "Ag=="]; JObj [("encoding", JStr "base64")]]
      = JArr [JArr [JStr b1; JStr b2]; JObj [("encoding", JStr "base64")]] /\
    sentBundles (fst (run_testBundle happy []))
      = [(new_JitoService MAINNET (Some "jito-uuid"),
          JArr [JArr [JStr "AQ=="; JStr "Ag=="]; JObj [("encoding", JStr "base64")]])] /\
    requests (fst (run_testBundle happy [])) = [tip_floor_request; rq] /\
    ok (rpc happy rq) = true /\
    error (json (rpc happy rq)) = None /\
    simulationFailure (json (rpc happy rq)) = None.
Proof.
  apply (X11_bundle_sent_only_after_clean_simulation happy
           (new_JitoService MAINNET (Some "jito-uuid"))
           (JArr [JArr [JStr "AQ=="; JStr "Ag=="]; JObj [("encoding", JStr "base64")]])).
  vm_compute. left. reflexivity.
Defined.

Lemma tip_of_percentile_above_minimum t :
  (0 <=? t) = true ->
  (1000 <=? jitoTipLamports (calculateRecommendedFees (t / 0.3))) = true.
Proof.
  intros H0. apply (tip_above_minimum (t / 0.3)).
  apply NN_div; [apply leb_zero_NN, H0|exact normal_03].
Qed.

Lemma random_account r :
  (0 <=? r) = true -> (r <? 1) = true ->
  exists a, In a TIP_ACCOUNTS /\ getRandomTipAccount r = Some a.
Proof.
  intros H0 H1. destruct (randomIndex_spec r H0 H1) as [Hi Hidx].
  unfold getRandomTipAccount, array_get. rewrite Hidx.
  destruct (nth_error_In_lt TIP_ACCOUNTS
              (Z.to_nat (Qfloor (SF2Q (Prim2SF r) * 8)))) as (a & Ha & Hin).
  { rewrite TIP_ACCOUNTS_length. lia. }
  exists a. split; [exact Hin|exact Ha].
Qed.

(** X12: the bundle that [testBundle] sends is made of the two transactions
    the script builds from the recommendation for the 75th percentile of the
    newest tip-floor sample: both start with the same compute-unit price,
    the first carries no transfer, and the last instruction of the second is
    the transfer of [jitoTipLamports] from the wallet to the tip account
    drawn.  That tip is at least 1000 lamports when the percentile is not
    negative, and the account is one of [TIP_ACCOUNTS] when the draw is in
    [[0, 1)]. *)
Theorem X12_bundle_pays_the_recommended_tip :
  forall (w : World) (jitoService : Service) (params : JSON),
    In (jitoService, params) (sentBundles (fst (run_testBundle w []))) ->
    exists (latestData : TipFloorData) (rest : list TipFloorData)
           (walletKeypair : Keypair) (jitoTipAccount : PublicKey)
           (blockhash b1 b2 : string),
      let fees :=
        calculateRecommendedFees (landed_tips_75th_percentile latestData / 0.3) in
      let price := setComputeUnitPrice (Math_floor (priorityFeeLamports fees / 1000)) in
      let signer := [publicKey walletKeypair] in
      let transaction1 :=
        bundleTransaction1 fees walletKeypair
          ("Bundle TX 1: " +:+ toISOString w) blockhash in
      let transaction2 :=
        bundleTransaction2 fees walletKeypair jitoTipAccount blockhash in
      json (tip_floor w tip_floor_request) = Some (latestData :: rest) /\
      fs_keypair w walletPath = inr walletKeypair /\
      new_PublicKey w (getRandomTipAccount (Math_random w)) = inr jitoTipAccount /\
      latestBlockhash w = inr blockhash /\
      serialize w false transaction1 = inr b1 /\
      serialize w false transaction2 = inr b2 /\
      params = JArr [JArr [JStr b1; JStr b2]; JObj [("encoding", JStr "base64")]] /\
      instructions transaction1 =
        [price;
         createMemoInstruction ("Bundle TX 1: " +:+ toISOString w) signer] /\
      instructions transaction2 =
        [price;
         createMemoInstruction "Bundle TX 2: Testing Jito bundles" signer;
         createMemoInstruction "Bundle TX 2: Additional memo" signer;
         transfer (publicKey walletKeypair) jitoTipAccount (jitoTipLamports fees)] /\
      ((0 <=? landed_tips_75th_percentile latestData) = true ->
         (1000 <=? jitoTipLamports fees) = true) /\
      ((0 <=? Math_random w) = true -> (Math_random w <? 1) = true ->
         exists account,
           In account TIP_ACCOUNTS /\
           new_PublicKey w (Some account) = inr jitoTipAccount).
Proof.
  intros w jitoService params.
  destruct (run_testBundle w []) as [trace out] eqn:H. cbn [fst].
  intros Hin. unfold_testBundle H.
  crunch H; leaf H; queries_in Hin; try contradiction.
  all: destruct Hin as [[= <- <-]|[]].
  all: do 7 eexists; cbn zeta;
    repeat apply conj; try eassumption; try reflexivity.
  all: try (intros H0; exact (tip_of_percentile_above_minimum _ H0)).
  all: intros H0 H1; destruct (random_account _ H0 H1) as (a & Ha & Hr);
    exists a; split; [exact Ha|]; rewrite <- Hr; eassumption.
Qed.

Lemma X12_witness :
  exists (latestData : TipFloorData) (rest : list TipFloorData)
         (walletKeypair : Keypair) (jitoTipAccount : PublicKey)
         (blockhash b1 b2 : string),
    let fees :=
      calculateRecommendedFees (landed_tips_75th_percentile latestData / 0.3) in
    let price := setComputeUnitPrice (Math_floor (priorityFeeLamports fees / 1000)) in
    let signer := [publicKey walletKeypair] in
    let transaction1 :=
      bundleTransaction1 fees walletKeypair
        ("Bundle TX 1: " +:+ toISOString happy) blockhash in
    let transaction2 :=
      bundleTransaction2 fees walletKeypair jitoTipAccount blockhash in
    json (tip_floor happy tip_floor_request) = Some (latestData :: rest) /\
    fs_keypair happy walletPath = inr walletKeypair /\
    new_PublicKey happy (getRandomTipAccount (Math_random happy))
      = inr jitoTipAccount /\
    latestBlockhash happy = inr blockhash /\
    serialize happy false transaction1 = inr b1 /\
    serialize happy false transaction2 = inr b2 /\
    JArr [JArr [JStr "AQ=="; JStr "Ag=="]; JObj [("encoding", JStr "base64")]]
      = JArr [JArr [JStr b1; JStr b2]; JObj [("encoding", JStr "base64")]] /\
    instructions transaction1 =
      [price;
       createMemoInstruction ("Bundle TX 1: " +:+ toISOString happy) signer] /\
    instructions transaction2 =
      [price;
       createMemoInstruction "Bundle TX 2: Testing Jito bundles" signer;
       createMemoInstruction "Bundle TX 2: Additional memo" signer;
       transfer (publicKey walletKeypair) jitoTipAccount (jitoTipLamports fees)] /\
    ((0 <=? landed_tips_75th_percentile latestData) = true ->
       (1000 <=? jitoTipLamports fees) = true) /\
    ((0 <=? Math_random happy) = true -> (Math_random happy <? 1) = true ->
       exists account,
         In account TIP_ACCOUNTS /\
         new_PublicKey happy (Some account) = inr jitoTipAccount).
Proof.
  apply (X12_bundle_pays_the_recommended_tip happy
           (new_JitoService MAINNET (Some "jito-uuid"))
           (JArr [JArr [JStr "AQ=="; JStr "Ag=="]; JObj [("encoding", JStr "base64")]])).
  vm_compute. left. reflexivity.
Defined.

Ltac unfold_testTransaction H :=
  unfold run_testTransaction, testTransaction, sendAndConfirmTransaction,
    sendTransaction in H;
  unfold_script H;
  unfold connection_getSignatureStatus in H.

(** X13: whatever the world answers, every failure inside the [try] block
    of a script is caught there.  The only exception that escapes
    [testBundle] or [testTransaction] is the failure to read the wallet,
    which the handler at the end of the script turns into an error line:
    the run never ends in a rejection. *)
Theorem X13_scripts_catch_their_failures :
  forall (w : World) (fuel : nat),
    (snd (testBundle w []) = Returned tt \/
     exists e, snd (testBundle w []) = Thrown e /\
               fs_keypair w walletPath = inl e) /\
    snd (run_testBundle w []) = Returned tt /\
    (snd (testTransaction fuel w []) = Returned tt \/
     snd (testTransaction fuel w []) = OutOfFuel \/
     exists e, snd (testTransaction fuel w []) = Thrown e /\
               fs_keypair w walletPath = inl e) /\
    (snd (run_testTransaction fuel w []) = Returned tt \/
     snd (run_testTransaction fuel w []) = OutOfFuel).
Proof.
  intros w fuel. repeat apply conj.
  - destruct (testBundle w []) as [trace out] eqn:H. cbn [snd].
    unfold_testBundle H. crunch H; leaf H; try (left; reflexivity).
    all: right; eexists; split; reflexivity.
  - destruct (run_testBundle w []) as [trace out] eqn:H. cbn [snd].
    unfold_testBundle H. crunch H; leaf H; reflexivity.
  - destruct (testTransaction fuel w []) as [trace out] eqn:H. cbn [snd].
    unfold_testTransaction H. crunch H; leaf H; try (left; reflexivity);
      try (right; left; reflexivity).
    all: right; right; eexists; split; reflexivity.
  - destruct (run_testTransaction fuel w []) as [trace out] eqn:H. cbn [snd].
    unfold_testTransaction H. crunch H; leaf H; try (left; reflexivity);
      right; reflexivity.
Qed.

(** X14: neither script issues a request or calls the chain or the relay
    unless the API key and the UUID are set and not empty, the wallet file
    exists and its key pair could be read. *)
Theorem X14_nothing_remote_without_configuration :
  forall (w : World) (fuel : nat),
    remoteCalls (fst (run_testBundle w [])) <> [] \/
    remoteCalls (fst (run_testTransaction fuel w [])) <> [] ->
    exists (key uuid : string) (walletKeypair : Keypair),
      nonEmpty (process_env w "HELIUS_API_KEY") = Some key /\
      fs_existsSync w walletPath = true /\
      fs_keypair w walletPath = inr walletKeypair /\
      nonEmpty (process_env w "JITO_UUID") = Some uuid.
Proof.
  intros w fuel [Hne|Hne].
  - destruct (run_testBundle w []) as [trace out] eqn:H. cbn [fst] in Hne.
    unfold_testBundle H. crunch H; leaf H.
    all: try (do 3 eexists; repeat apply conj;
              first [reflexivity|eassumption|apply negb_false_iff; eassumption]).
    all: exfalso; apply Hne; reflexivity.
  - destruct (run_testTransaction fuel w []) as [trace out] eqn:H. cbn [fst] in Hne.
    unfold_testTransaction H. crunch H; leaf H.
    all: try (do 3 eexists; repeat apply conj;
              first [reflexivity|eassumption|apply negb_false_iff; eassumption]).
    all: exfalso; apply Hne; reflexivity.
Qed.

Lemma X14_witness :
  exists (key uuid : string) (walletKeypair : Keypair),
    nonEmpty (process_env happy "HELIUS_API_KEY") = Some key /\
    fs_existsSync happy walletPath = true /\
    fs_keypair happy walletPath = inr walletKeypair /\
    nonEmpty (process_env happy "JITO_UUID") = Some uuid.
Proof.
  apply (X14_nothing_remote_without_configuration happy 5).
  left. vm_compute. discriminate.
Defined.

Lemma reportInflightStatus_confirmed inflightStatus slot :
  reportInflightStatus inflightStatus = ConfirmedAtSlot slot ->
  strict_eq_str (inflightStatus !! "confirmation_status") "confirmed" = true.
Proof.
  unfold reportInflightStatus.
  destruct (strict_eq_str (inflightStatus !! "confirmation_status") "confirmed");
    [reflexivity|].
  destruct (inflightStatus !! "status") as [st|].
  - repeat match goal with
           | |- context [if ?b then _ else _] => destruct b
           end; discriminate.
  - destruct (inflightStatus !! "err") as [e|]; [destruct (truthy e)|]; discriminate.
Qed.

(** X15: [testBundle] asks for the final status of a bundle at most once,
    and only for the bundle it has just sent, after the relay has answered
    the wait for confirmation with a [confirmation_status] equal to
    "confirmed"; the query is [[[bundleId]]].  When that query fails, the
    failure is reported by the inner handler and not by the outer one, and
    the script still returns. *)
Theorem X15_final_status_only_after_confirmation :
  forall (w : World) (jitoService : Service) (query : JSON),
    let trace := fst (run_testBundle w []) in
    In (jitoService, query) (statusQueries trace) ->
    exists (bundle : JSON) (response : SendBundleResponse) (bundleId : string)
           (inflightStatus : gmap string JSON),
      sentBundles trace = [(jitoService, bundle)] /\
      relay_sendBundle w jitoService bundle = inr response /\
      nonEmpty (result response) = Some bundleId /\
      relay_confirmInflightBundle w jitoService bundleId 120000
        = inr inflightStatus /\
      strict_eq_str (inflightStatus !! "confirmation_status") "confirmed" = true /\
      query = JArr [JArr [JStr bundleId]] /\
      statusQueries trace = [(jitoService, query)] /\
      (forall e : Exn,
         relay_getBundleStatuses w jitoService query = inl e ->
         In (ErrorFetchingFinalStatus e) (errors trace) /\
         forall e', ~ In (ErrorSendingOrConfirmingBundle e') (errors trace)).
Proof.
  intros w jitoService query trace. subst trace.
  destruct (run_testBundle w []) as [trace out] eqn:H. cbn [fst].
  intros Hin. unfold_testBundle H.
  crunch H; leaf H; queries_in Hin; try contradiction.
  all: destruct Hin as [[= <- <-]|[]].
  all: match goal with
       | Hr : reportInflightStatus _ = ConfirmedAtSlot _ |- _ =>
           apply reportInflightStatus_confirmed in Hr
       end.
  all: do 4 eexists; queries;
    repeat apply conj; try eassumption; try reflexivity.
  all: intros e' He'; try congruence.
  all: match goal with
       | Hs : relay_getBundleStatuses _ _ _ = inl ?e |- _ =>
           rewrite Hs in He'; injection He' as <-
       end.
  all: split; [cbn [In]; auto|].
  all: intros e'' Hin; cbn [In] in Hin;
    repeat match type of Hin with
           | _ \/ _ => destruct Hin as [Hin|Hin]
           end; (discriminate Hin || contradiction).
Qed.

Lemma X15_witness :
  exists (bundle : JSON) (response : SendBundleResponse) (bundleId : string)
         (inflightStatus : gmap string JSON),
    sentBundles (fst (run_testBundle happy []))
      = [(new_JitoService MAINNET (Some "jito-uuid"), bundle)] /\
    relay_sendBundle happy (new_JitoService MAINNET (Some "jito-uuid")) bundle
      = inr response /\
    nonEmpty (result response) = Some bundleId /\
    relay_confirmInflightBundle happy (new_JitoService MAINNET (Some "jito-uuid"))
        bundleId 120000
      = inr inflightStatus /\
    strict_eq_str (inflightStatus !! "confirmation_status") "confirmed" = true /\
    JArr [JArr [JStr "bundle"]] = JArr [JArr [JStr bundleId]] /\
    statusQueries (fst (run_testBundle happy []))
      = [(new_JitoService MAINNET (Some "jito-uuid"), JArr [JArr [JStr "bundle"]])] /\
    (forall e : Exn,
       relay_getBundleStatuses happy (new_JitoService MAINNET (Some "jito-uuid"))
           (JArr [JArr [JStr "bundle"]]) = inl e ->
       In (ErrorFetchingFinalStatus e) (errors (fst (run_testBundle happy []))) /\
       forall e', ~ In (ErrorSendingOrConfirmingBundle e')
                       (errors (fst (run_testBundle happy [])))).
Proof.
  apply (X15_final_status_only_after_confirmation happy
           (new_JitoService MAINNET (Some "jito-uuid"))
           (JArr [JArr [JStr "bundle"]])).
  vm_compute. left. reflexivity.
Defined.

(** *** [testTransaction] *)

(** What the polling loop added to the trace holds no line and no send. *)
Ltac polled :=
  match goal with
  | Hc : confirmTransaction ?f ?s ?t ?w ?tr = (?l, _) |- _ =>
      let added := fresh "added" in
      let Hrun := fresh "Hrun" in
      let Hp := fresh "Hp" in
      let Hsig := fresh "Hsig" in
      destruct (confirmTransaction_polling f s t w tr) as (added & Hrun & Hp & Hsig);
      rewrite Hc in Hrun; cbn [fst] in Hrun; subst l;
      pose proof (select_none log_of is_polling added ltac:(no_line) Hp);
      pose proof (select_none error_of is_polling added ltac:(no_line) Hp);
      pose proof (select_none transaction_of is_polling added ltac:(no_line) Hp)
  end.

Ltac queries_polled_in H :=
  repeat first
    [ progress queries_in H
    | match goal with
      | E : select _ ?added = [] |- _ => rewrite E in H
      end ].

Ltac queries_polled :=
  repeat first
    [ progress queries
    | match goal with
      | E : select _ ?added = [] |- _ => rewrite E
      end ].

Ltac decide_in H :=
  cbn [In] in H;
  repeat match type of H with
         | _ \/ _ => destruct H as [H|H]
         end;
  try discriminate H; try contradiction.

(** X16: the line "Transaction was not finalized within the expected time"
    is not what a timeout prints.  [testTransaction] prints it only after
    [confirmTransaction] has returned a finalized status and the chain,
    asked once more, has answered with a status that is not finalized; no
    error line is printed in that run. *)
Theorem X16_not_finalized_line_follows_a_finalized_confirmation :
  forall (w : World) (fuel : nat),
    let trace := fst (run_testTransaction fuel w []) in
    In TransactionNotFinalized (printed trace) ->
    exists confirmation status : SignatureStatusResponse,
      In (TransactionConfirmation confirmation) (printed trace) /\
      finalized confirmation = true /\
      In (TransactionStatus status) (printed trace) /\
      finalized status = false /\
      errors trace = [].
Proof.
  intros w fuel trace. subst trace.
  destruct (run_testTransaction fuel w []) as [trace out] eqn:H. cbn [fst].
  intros Hin. unfold_testTransaction H.
  crunch H; leaf H; try polled; queries_polled_in Hin; decide_in Hin.
  all: match goal with
       | Hc : confirmTransaction _ _ _ _ _ = (_, Returned ?c) |- _ =>
           apply confirmTransaction_returned in Hc as [Hc _]; exists c
       end.
  all: eexists; queries_polled;
    repeat apply conj; try eassumption; try reflexivity.
  all: cbn [In]; auto 20.
Qed.

Lemma X16_witness :
  exists confirmation status : SignatureStatusResponse,
    In (TransactionConfirmation confirmation)
       (printed (fst (run_testTransaction 5 flapping []))) /\
    finalized confirmation = true /\
    In (TransactionStatus status)
       (printed (fst (run_testTransaction 5 flapping []))) /\
    finalized status = false /\
    errors (fst (run_testTransaction 5 flapping [])) = [].
Proof.
  apply (X16_not_finalized_line_follows_a_finalized_confirmation flapping 5).
  vm_compute. do 10 right. left. reflexivity.
Defined.

(** X17: [testTransaction] sends at most one transaction, with
    [bundleOnly] false and the parameters [[transaction, {encoding:
    "base64"}]]; the transaction is the serialization, signatures verified,
    of the compute-unit price, the memo and the transfer of
    [jitoTipLamports] from the wallet to the tip account drawn, built from
    the recommendation for the 75th percentile of the newest sample.  The
    tip is at least 1000 lamports when that percentile is not negative. *)
Theorem X17_transaction_sent_with_the_recommended_tip :
  forall (w : World) (fuel : nat) (jitoService : Service) (params : JSON)
         (bundleOnly : bool),
    let trace := fst (run_testTransaction fuel w []) in
    In (jitoService, params, bundleOnly) (sentTransactions trace) ->
    exists (latestData : TipFloorData) (rest : list TipFloorData)
           (walletKeypair : Keypair) (jitoTipAccount : PublicKey)
           (uuid blockhash base64Transaction : string),
      let fees :=
        calculateRecommendedFees (landed_tips_75th_percentile latestData / 0.3) in
      let memoText := "Test memo from Jito service at " +:+ toISOString w in
      let transaction :=
        tipTransaction fees walletKeypair jitoTipAccount memoText blockhash in
      json (tip_floor w tip_floor_request) = Some (latestData :: rest) /\
      fs_keypair w walletPath = inr walletKeypair /\
      new_PublicKey w (getRandomTipAccount (Math_random w)) = inr jitoTipAccount /\
      latestBlockhash w = inr blockhash /\
      nonEmpty (process_env w "JITO_UUID") = Some uuid /\
      serialize w true transaction = inr base64Transaction /\
      instructions transaction =
        [setComputeUnitPrice (Math_floor (priorityFeeLamports fees / 1000));
         createMemoInstruction memoText [publicKey walletKeypair];
         transfer (publicKey walletKeypair) jitoTipAccount (jitoTipLamports fees)] /\
      jitoService = new_JitoService MAINNET (Some uuid) /\
      params = JArr [JStr base64Transaction; JObj [("encoding", JStr "base64")]] /\
      bundleOnly = false /\
      sentTransactions trace = [(jitoService, params, bundleOnly)] /\
      ((0 <=? landed_tips_75th_percentile latestData) = true ->
         (1000 <=? jitoTipLamports fees) = true).
Proof.
  intros w fuel jitoService params bundleOnly trace. subst trace.
  destruct (run_testTransaction fuel w []) as [trace out] eqn:H. cbn [fst].
  intros Hin. unfold_testTransaction H.
  crunch H; leaf H; try polled; queries_polled_in Hin; decide_in Hin.
  all: injection Hin as <- <- <-.
  all: do 7 eexists; cbn zeta; queries_polled;
    repeat apply conj; try eassumption; try reflexivity.
  all: intros Hpositive; exact (tip_of_percentile_above_minimum _ Hpositive).
Qed.

Lemma X17_witness :
  exists (latestData : TipFloorData) (rest : list TipFloorData)
         (walletKeypair : Keypair) (jitoTipAccount : PublicKey)
         (uuid blockhash base64Transaction : string),
    let fees :=
      calculateRecommendedFees (landed_tips_75th_percentile latestData / 0.3) in
    let memoText := "Test memo from Jito service at " +:+ toISOString happy in
    let transaction :=
      tipTransaction fees walletKeypair jitoTipAccount memoText blockhash in
    json (tip_floor happy tip_floor_request) = Some (latestData :: rest) /\
    fs_keypair happy walletPath = inr walletKeypair /\
    new_PublicKey happy (getRandomTipAccount (Math_random happy))
      = inr jitoTipAccount /\
    latestBlockhash happy = inr blockhash /\
    nonEmpty (process_env happy "JITO_UUID") = Some uuid /\
    serialize happy true transaction = inr base64Transaction /\
    instructions transaction =
      [setComputeUnitPrice (Math_floor (priorityFeeLamports fees / 1000));
       createMemoInstruction memoText [publicKey walletKeypair];
       transfer (publicKey walletKeypair) jitoTipAccount (jitoTipLamports fees)] /\
    new_JitoService MAINNET (Some "jito-uuid") = new_JitoService MAINNET (Some uuid) /\
    JArr [JStr "Ag=="; JObj [("encoding", JStr "base64")]]
      = JArr [JStr base64Transaction; JObj [("encoding", JStr "base64")]] /\
    false = false /\
    sentTransactions (fst (run_testTransaction 5 happy []))
      = [(new_JitoService MAINNET (Some "jito-uuid"),
          JArr [JStr "Ag=="; JObj [("encoding", JStr "base64")]], false)] /\
    ((0 <=? landed_tips_75th_percentile latestData) = true ->
       (1000 <=? jitoTipLamports fees) = true).
Proof.
  apply (X17_transaction_sent_with_the_recommended_tip happy 5
           (new_JitoService MAINNET (Some "jito-uuid"))
           (JArr [JStr "Ag=="; JObj [("encoding", JStr "base64")]]) false).
  vm_compute. left. reflexivity.
Defined.

(** X18: the follow-up calls use what the relay returned.  [testBundle]
    waits for a confirmation at most once, for the non-empty bundle id the
    relay answered the send with, and with a timeout of 120000 ms;
    [testTransaction] asks the chain only about the non-empty signature the
    relay answered the send with.  When the answer holds no [result], or
    an empty one, there is no follow-up call. *)
Theorem X18_follow_up_calls_use_the_returned_id :
  forall (w : World) (fuel : nat),
    (forall (jitoService : Service) (bundleId : string) (timeoutMs : number),
       let trace := fst (run_testBundle w []) in
       In (jitoService, bundleId, timeoutMs) (waits trace) ->
       exists (bundle : JSON) (response : SendBundleResponse),
         sentBundles trace = [(jitoService, bundle)] /\
         relay_sendBundle w jitoService bundle = inr response /\
         nonEmpty (result response) = Some bundleId /\
         timeoutMs = 120000 /\
         waits trace = [(jitoService, bundleId, timeoutMs)]) /\
    (forall signature : string,
       let trace := fst (run_testTransaction fuel w []) in
       In signature (polls trace) ->
       exists (jitoService : Service) (params : JSON)
              (response : SendTransactionResponse),
         sentTransactions trace = [(jitoService, params, false)] /\
         relay_sendTxn w jitoService params false = inr response /\
         nonEmpty (result response) = Some signature).
Proof.
  intros w fuel. split.
  - intros jitoService bundleId timeoutMs trace. subst trace.
    destruct (run_testBundle w []) as [trace out] eqn:H. cbn [fst].
    intros Hin. unfold_testBundle H.
    crunch H; leaf H; queries_in Hin; try contradiction.
    all: destruct Hin as [[= <- <- <-]|[]].
    all: do 2 eexists; queries;
      repeat apply conj; try eassumption; reflexivity.
  - intros signature trace. subst trace.
    destruct (run_testTransaction fuel w []) as [trace out] eqn:H. cbn [fst].
    intros Hin. unfold_testTransaction H.
    crunch H; leaf H; try polled; queries_polled_in Hin; try contradiction.
    all: repeat rewrite in_app_iff in Hin; cbn [In] in Hin.
    all: repeat match type of Hin with
                | _ \/ _ => destruct Hin as [Hin|Hin]
                | In _ (select poll_of _) =>
                    match goal with
                    | Hs : forall s, In s (select poll_of _) -> s = _ |- _ =>
                        apply Hs in Hin
                    end
                end; try contradiction; subst.
    all: do 3 eexists; queries_polled;
      repeat apply conj; try eassumption; reflexivity.
Qed.

(** *** [main] *)

(** X19: [main] never throws and issues exactly one request, the tip-floor
    request, after which it prints exactly one line: the recommendation for
    the 75th percentile of the newest sample, or the error when the
    response is not successful or holds no sample. *)
Theorem X19_main_prints_the_fees_or_the_error :
  forall w : World,
    let response := tip_floor w tip_floor_request in
    exists line : Event,
      main w [] = ([fetched tip_floor_request; line], Returned tt) /\
      (ok response = false ->
         line = console_error
                  (ErrorLine (ServiceError (FailedToFetchTipFloor (status response))))) /\
      (ok response = true ->
         (json response = None \/ json response = Some [] ->
            line = console_error (ErrorLine (ServiceError NoTipFloorDataAvailable))) /\
         (forall latestData rest,
            json response = Some (latestData :: rest) ->
            line = console_log
                     (RecommendedFees
                        (calculateRecommendedFees
                           (landed_tips_75th_percentile latestData / 0.3))))).
Proof.
  intros w response.
  destruct (main w []) as [trace out] eqn:H.
  unfold main in H. unfold_script H. subst response.
  crunch H; leaf H; eexists; (split; [reflexivity|]); split;
    try discriminate; try (intros _; split); try congruence.
  all: try (intros [E|E]; congruence).
  all: try (intros _; split; [intros [E|E]; congruence|]).
  all: try (intros latestData rest [= <- <-]; reflexivity).
  all: try (intros latestData rest E; discriminate E).
Qed.

(** *** What the libraries throw *)

(** X20: [testTransaction] asks the chain for the blockhash only after the
    Solana client has accepted the two amounts: the compute-unit price and
    the transfer of the tip, both built from the recommendation for the
    75th percentile of the newest sample.  When the client refuses one of
    them, the script leaves the [try] block before that request. *)
Theorem X20_blockhash_requested_after_the_instructions :
  forall (w : World) (fuel : nat),
    let trace := fst (run_testTransaction fuel w []) in
    In getLatestBlockhash (remoteCalls trace) ->
    exists (latestData : TipFloorData) (rest : list TipFloorData)
           (walletKeypair : Keypair) (jitoTipAccount : PublicKey),
      let fees :=
        calculateRecommendedFees (landed_tips_75th_percentile latestData / 0.3) in
      json (tip_floor w tip_floor_request) = Some (latestData :: rest) /\
      fs_keypair w walletPath = inr walletKeypair /\
      new_PublicKey w (getRandomTipAccount (Math_random w)) = inr jitoTipAccount /\
      instruction_error w
        (setComputeUnitPrice (Math_floor (priorityFeeLamports fees / 1000))) = None /\
      instruction_error w
        (transfer (publicKey walletKeypair) jitoTipAccount (jitoTipLamports fees))
        = None.
Proof.
  intros w fuel trace. subst trace.
  destruct (run_testTransaction fuel w []) as [trace out] eqn:H. cbn [fst].
  intros Hin. unfold_testTransaction H.
  crunch H; leaf H; try polled; queries_polled_in Hin; decide_in Hin.
  all: do 4 eexists; cbn zeta;
    repeat apply conj; try eassumption; try reflexivity.
Qed.

Lemma X20_witness :
  exists (latestData : TipFloorData) (rest : list TipFloorData)
         (walletKeypair : Keypair) (jitoTipAccount : PublicKey),
    let fees :=
      calculateRecommendedFees (landed_tips_75th_percentile latestData / 0.3) in
    json (tip_floor happy tip_floor_request) = Some (latestData :: rest) /\
    fs_keypair happy walletPath = inr walletKeypair /\
    new_PublicKey happy (getRandomTipAccount (Math_random happy))
      = inr jitoTipAccount /\
    instruction_error happy
      (setComputeUnitPrice (Math_floor (priorityFeeLamports fees / 1000))) = None /\
    instruction_error happy
      (transfer (publicKey walletKeypair) jitoTipAccount (jitoTipLamports fees))
      = None.
Proof.
  apply (X20_blockhash_requested_after_the_instructions happy 5).
  vm_compute. right. left. reflexivity.
Defined.

(** X21: [testTransaction] prints the line "Server response:" only for a
    thrown [Error] that carries a truthy [response.data]; the two error
    lines of that run are then the report of this error and its response.
    A thrown value that is not an [Error] has no such line. *)
Theorem X21_server_response_only_for_an_Error :
  forall (w : World) (fuel : nat) (data : JSON),
    let trace := fst (run_testTransaction fuel w []) in
    In (ServerResponse data) (errors trace) ->
    truthy data = true /\
    exists text : string,
      errors trace =
        [ErrorSendingOrConfirmingTransaction (LibraryError text (Some data));
         ServerResponse data].
Proof.
  intros w fuel data trace. subst trace.
  destruct (run_testTransaction fuel w []) as [trace out] eqn:H. cbn [fst].
  intros Hin. unfold_testTransaction H.
  crunch H; leaf H; try polled; queries_polled_in Hin; decide_in Hin.
  all: injection Hin as <-.
  all: match goal with
       | He : instanceof_Error ?e = true, Hd : response_data ?e = Some _ |- _ =>
           destruct e; try discriminate He; try discriminate Hd;
           cbn [response_data] in Hd; subst
       end.
  all: split; [assumption|]; eexists; queries_polled; reflexivity.
Qed.

Lemma X21_witness :
  truthy (JStr "rate limited") = true /\
  exists text : string,
    errors (fst (run_testTransaction 5 rate_limited [])) =
      [ErrorSendingOrConfirmingTransaction
         (LibraryError text (Some (JStr "rate limited")));
       ServerResponse (JStr "rate limited")].
Proof.
  apply (X21_server_response_only_for_an_Error rate_limited 5 (JStr "rate limited")).
  vm_compute. right. left. reflexivity.
Defined.

(** *** The scripts on an example *)

(** In a world where everything succeeds, [testBundle] asks for the tip
    floor and the blockhash, simulates, sends, waits and asks for the final
    status, in that order. *)
Example testBundle_remote_calls :
  let jitoService := new_JitoService MAINNET (Some "jito-uuid") in
  remoteCalls (fst (run_testBundle happy [])) =
    [fetched tip_floor_request;
     getLatestBlockhash;
     fetched {| url := "https://mainnet.helius-rpc.com/?api-key=helius-key";
                method := "POST";
                headers := [("Content-Type", "application/json")]%string;
                body := Some (requestBody
                                {| encodedTransactions := ["AQ=="; "Ag=="];
                                   skipSigVerify := Some false;
                                   replaceRecentBlockhash := Some false |}) |};
     sendBundle jitoService
       (JArr [JArr [JStr "AQ=="; JStr "Ag=="]; JObj [("encoding", JStr "base64")]]);
     confirmInflightBundle jitoService "bundle" 120000;
     getBundleStatuses jitoService (JArr [JArr [JStr "bundle"]])] /\
  errors (fst (run_testBundle happy [])) = [] /\
  snd (run_testBundle happy []) = Returned tt.
Proof. vm_compute. repeat split; reflexivity. Qed.

(** [testTransaction] in the same world: the signature is finalized at the
    third query, and a fourth one reads the status that is printed. *)
Example testTransaction_remote_calls :
  let jitoService := new_JitoService MAINNET (Some "jito-uuid") in
  remoteCalls (fst (run_testTransaction 5 happy [])) =
    [fetched tip_floor_request;
     getLatestBlockhash;
     sendTxn jitoService
       (JArr [JStr "Ag=="; JObj [("encoding", JStr "base64")]]) false;
     getSignatureStatus "signature"; getSignatureStatus "signature";
     getSignatureStatus "signature"; getSignatureStatus "signature"] /\
  errors (fst (run_testTransaction 5 happy [])) = [] /\
  last (printed (fst (run_testTransaction 5 happy [])))
    = Some (TransactionFinalized "https://solscan.io/tx/signature") /\
  snd (run_testTransaction 5 happy []) = Returned tt.
Proof. vm_compute. repeat split; reflexivity. Qed.

(** A timeout is reported by the handler of the [try] block. *)
Example testTransaction_timeout :
  errors (fst (run_testTransaction 5 stalled [])) =
    [ErrorSendingOrConfirmingTransaction (ConfirmTimeout "signature" 120000)] /\
  snd (run_testTransaction 5 stalled []) = Returned tt.
Proof. vm_compute. repeat split; reflexivity. Qed.

(** Without the API key nothing else happens. *)
Example testBundle_without_api_key :
  run_testBundle
    {| process_env := fun _ => None;
       fs_existsSync := fs_existsSync happy;
       fs_keypair := fs_keypair happy;
       toISOString := toISOString happy;
       clock := clock happy;
       Math_random := Math_random happy;
       new_PublicKey := new_PublicKey happy;
       instruction_error := instruction_error happy;
       sign_error := sign_error happy;
       latestBlockhash := latestBlockhash happy;
       serialize := serialize happy;
       tip_floor := tip_floor happy;
       rpc := rpc happy;
       relay_sendTxn := relay_sendTxn happy;
       relay_sendBundle := relay_sendBundle happy;
       relay_confirmInflightBundle := relay_confirmInflightBundle happy;
       relay_getBundleStatuses := relay_getBundleStatuses happy;
       signatureStatus := signatureStatus happy |} []
  = ([console_error MissingHeliusApiKey], Returned tt).
Proof. reflexivity. Qed.

(** The handler of [testBundle] has no [instanceof] test: it prints the
    response carried by whatever was thrown. *)
Example testBundle_prints_the_response_of_any_rejection :
  errors (fst (run_testBundle rate_limited [])) =
    [ErrorSendingOrConfirmingBundle (NotAnError (Some (JStr "rate limited")));
     ServerResponse (JStr "rate limited")] /\
  snd (run_testBundle rate_limited []) = Returned tt.
Proof. vm_compute. repeat split; reflexivity. Qed.

(** The members of [BlockEngineUrl] stand for twelve different endpoints. *)
Lemma endpoint_inj u v : endpoint u = endpoint v -> u = v.
Proof. destruct u, v; intros H; try reflexivity; discriminate H. Qed.
